(** * Delta Code: the OAuth token lifecycle

    A shallow embedding of [packages/core/src/delta/qwenOAuth2.ts]
    (the OAuth protocol client and the device authorization flow) and of the
    shared token manager that the client delegates to.

    Conventions of the embedding.
    - A JavaScript [number] that holds a time stamp, a duration or an HTTP
      status is an integer ([Z]); every value the program computes from
      integer inputs is an integer (see [nextPollInterval_exact]).
    - An optional property ([p?: T], or [T | null]) is an [option]; [None]
      stands for both [undefined] and [null], which the program never tells
      apart except where noted.
    - A promise that settles is an [Outcome]: [Resolved v] or [Rejected e].
    - [console.*] calls have no effect on any result and are left out. *)

From Stdlib Require Import ZArith String List Bool Lia DecimalString.
From stdpp Require Import base gmap strings.

#[local] Open Scope string_scope.
#[local] Open Scope list_scope.
#[local] Open Scope Z_scope.

(** ** JavaScript values *)

Module Error.
(** An [Error] object, with the two ad-hoc properties the program reads:
    [status] (set by [pollDeviceToken]) and [code] (set by [node:fs]). *)
Record t : Type := mk
  { message : string;
    status : option Z;
    code : option string }.

Definition plain (msg : string) : t :=
  {| message := msg; status := None; code := None |}.
End Error.

Inductive Outcome (A : Type) : Type :=
| Resolved (a : A)
| Rejected (e : Error.t).
Arguments Resolved {A} a.
Arguments Rejected {A} e.

Module Js.
(** Truthiness of an optional string: [undefined], [null] and [''] are
    falsy. *)
Definition truthy_string (o : option string) : bool :=
  match o with
  | Some s => negb (String.eqb s "")
  | None => false
  end.

(** Truthiness of an optional number: [undefined], [null] and [0] are
    falsy. *)
Definition truthy_number (o : option Z) : bool :=
  match o with
  | Some n => negb (n =? 0)
  | None => false
  end.

Definition truthy_bool (o : option bool) : bool :=
  match o with
  | Some b => b
  | None => false
  end.

(** [a || d] on strings. *)
Definition or_string (o : option string) (d : string) : string :=
  if truthy_string o then default d o else d.

(** [a || undefined] on strings. *)
Definition or_undefined (o : option string) : option string :=
  if truthy_string o then o else None.

(** [a || b] on optional strings. *)
Definition or_else (a b : option string) : option string :=
  if truthy_string a then a else b.

(** [s.includes(sub)]. *)
Definition includes (s sub : string) : bool :=
  match String.index 0 sub s with
  | Some _ => true
  | None => false
  end.

(** Template-literal rendering of an integer. *)
Definition show (z : Z) : string := NilZero.string_of_int (Z.to_int z).

(** [a === b] on an optional string and a literal. *)
Definition str_is (o : option string) (lit : string) : bool :=
  match o with
  | Some s => String.eqb s lit
  | None => false
  end.

(** [Math.ceil(a / b)] for integers [a] and [b > 0]. *)
Definition ceil_div (a b : Z) : Z := - ((- a) / b).
End Js.

(** ** Constants of [qwenOAuth2.ts] *)

Definition QWEN_DIR : string := ".delta".
Definition QWEN_CREDENTIAL_FILENAME : string := "oauth_creds.json".
Definition TOKEN_REFRESH_BUFFER_MS : Z := 30 * 1000.

(** ** Data *)

Module DeltaCredentials.
Record t : Type := mk
  { access_token : option string;
    refresh_token : option string;
    id_token : option string;
    expiry_date : option Z;
    token_type : option string;
    resource_url : option string }.

(** [{}], the initial value of the client's [credentials] field. *)
Definition empty : t :=
  {| access_token := None; refresh_token := None; id_token := None;
     expiry_date := None; token_type := None; resource_url := None |}.
End DeltaCredentials.

(** The value of the client's [credentials] field.  [setCredentials] stores
    whatever it is given, and [loadCachedDeltaCredentials] gives it the
    output of [JSON.parse] unchecked, which is [null] when the file holds
    [null].  Reading a property of [null] throws a [TypeError]; any other
    JSON value reads as the record of the properties it has. *)
Inductive ClientCredentials : Type :=
| Credentials (c : DeltaCredentials.t)
| NullCredentials.
Coercion Credentials : DeltaCredentials.t >-> ClientCredentials.

Module DeviceAuthorizationData.
Record t : Type := mk
  { device_code : string;
    user_code : string;
    verification_uri : string;
    verification_uri_complete : string;
    expires_in : Z }.
End DeviceAuthorizationData.

Module DeviceTokenResponse.
(** The object [response.json()] yields at the token endpoint.  The
    TypeScript type is the union
    [DeviceTokenData | DeviceTokenPendingData | ErrorData]; the program
    tells the members apart by probing properties, so the embedding keeps
    one record with every property of the three members.  [error = Some _]
    means that the key ['error'] is in the object. *)
Record t : Type := mk
  { access_token : option string;
    refresh_token : option string;
    token_type : option string;
    expires_in : option Z;
    resource_url : option string;
    status : option string;
    slowDown : option bool;
    error : option string;
    error_description : option string }.

Definition empty : t :=
  {| access_token := None; refresh_token := None; token_type := None;
     expires_in := None; resource_url := None; status := None;
     slowDown := None; error := None; error_description := None |}.

(** [{ status: 'pending' }] and [{ status: 'pending', slowDown: true }]. *)
Definition pending : t :=
  {| access_token := None; refresh_token := None; token_type := None;
     expires_in := None; resource_url := None; status := Some "pending";
     slowDown := None; error := None; error_description := None |}.

Definition pending_slowDown : t :=
  {| access_token := None; refresh_token := None; token_type := None;
     expires_in := None; resource_url := None; status := Some "pending";
     slowDown := Some true; error := None; error_description := None |}.
End DeviceTokenResponse.

Module TokenRefreshData.
Record t : Type := mk
  { access_token : option string;
    token_type : option string;
    expires_in : Z;
    refresh_token : option string;
    resource_url : option string }.
End TokenRefreshData.

Module ErrorData.
Record t : Type := mk
  { error : option string;
    error_description : option string }.
End ErrorData.

(** [TokenRefreshResponse = TokenRefreshData | ErrorData]; the only probe is
    [isErrorResponse], the presence of the key ['error']. *)
Inductive TokenRefreshResponse : Type :=
| RefreshData (d : TokenRefreshData.t)
| RefreshError (e : ErrorData.t).

Definition isDeviceTokenSuccess (response : DeviceTokenResponse.t) : bool :=
  match DeviceTokenResponse.access_token response with
  | Some s => (0 <? Z.of_nat (String.length s))
  | None => false
  end.

Definition isDeviceTokenPending (response : DeviceTokenResponse.t) : bool :=
  Js.str_is (DeviceTokenResponse.status response) "pending".

Definition isErrorResponse (response : DeviceTokenResponse.t) : bool :=
  match DeviceTokenResponse.error response with
  | Some _ => true
  | None => false
  end.

(** ** HTTP responses

    A [Response] of the Fetch API, as the global [fetch] of Node.js returns
    it.  [body] is the text on the wire and [json_of_body] its reading as a
    JSON object of the expected shape ([None] when the text is not JSON).
    When the text is not JSON, [JSON.parse] throws a [SyntaxError] whose
    message the engine builds from the text (V8 names the unexpected token
    and, in its recent versions, quotes the text around it); [parse_error]
    is that message, which the callers go on to search.  A body is a stream that can be read once: in
    the Fetch standard, [json()] and [text()] run "consume body", which
    returns a promise rejected with a [TypeError] when the body is unusable,
    that is, already read.  The readers therefore thread the [bodyUsed]
    flag. *)

Module Response.
Record t (J : Type) : Type := mk
  { status : Z;
    statusText : string;
    body : string;
    json_of_body : option J;
    parse_error : string }.
Arguments mk {J} _ _ _ _ _.
Arguments status {J} _.
Arguments statusText {J} _.
Arguments body {J} _.
Arguments json_of_body {J} _.
Arguments parse_error {J} _.

(** [response.ok]. *)
Definition ok {J} (r : t J) : bool :=
  (200 <=? status r) && (status r <=? 299).

Definition body_unusable : Error.t :=
  Error.plain "Body is unusable: Body has already been read".

(** The [SyntaxError] of a body that is not JSON. *)
Definition syntax_error {J} (r : t J) : Error.t :=
  Error.plain (parse_error r).

(** [await response.json()] and [await response.text()]: the outcome and
    the new value of [bodyUsed]. *)
Definition json {J} (r : t J) (bodyUsed : bool) : Outcome J * bool :=
  if bodyUsed then (Rejected body_unusable, true)
  else match json_of_body r with
       | Some j => (Resolved j, true)
       | None => (Rejected (syntax_error r), true)
       end.

Definition text {J} (r : t J) (bodyUsed : bool) : Outcome string * bool :=
  if bodyUsed then (Rejected body_unusable, true)
  else (Resolved (body r), true).
End Response.

(** What [await fetch(...)] settles to. *)
Definition Fetched (J : Type) : Type := Outcome (Response.t J).

(** ** The file system

    Files by path, each with its modification time.  A credential file holds
    the JSON text of a record ([JSON.stringify] leaves out the properties
    that are [undefined], so a record is read back as it was written), the
    JSON text [null], or text that [JSON.parse] refuses.  [read_only] makes
    every write and unlink of an existing file fail, which is how the error
    branches of the program are reached. *)

Inductive FileData : Type :=
| JsonCredentials (c : DeltaCredentials.t)
| JsonNull
| NotJson (raw : string).

(** [JSON.parse] on the content of a file; [None] when it throws. *)
Definition JSON_parse (content : FileData) : option ClientCredentials :=
  match content with
  | JsonCredentials c => Some (Credentials c)
  | JsonNull => Some NullCredentials
  | NotJson _ => None
  end.

Record File : Type :=
  { mtimeMs : Z;
    data : FileData }.

Record Disk : Type :=
  { files : gmap string File;
    read_only : bool }.

Module Fs.
Definition ENOENT : Error.t :=
  {| Error.message := "ENOENT: no such file or directory";
     Error.status := None; Error.code := Some "ENOENT" |}.

Definition EACCES : Error.t :=
  {| Error.message := "EACCES: permission denied";
     Error.status := None; Error.code := Some "EACCES" |}.

Definition unlink (d : Disk) (path : string) : Outcome unit * Disk :=
  match files d !! path with
  | None => (Rejected ENOENT, d)
  | Some _ =>
      if read_only d then (Rejected EACCES, d)
      else (Resolved tt,
            {| files := delete path (files d); read_only := read_only d |})
  end.

Definition writeFile (d : Disk) (path : string) (content : FileData)
    (now : Z) : Outcome unit * Disk :=
  if read_only d then (Rejected EACCES, d)
  else (Resolved tt,
        {| files := <[path := {| mtimeMs := now; data := content |}]> (files d);
           read_only := read_only d |}).

(** [fs.mkdir(dir, { recursive: true })]; directories are not modelled,
    only the refusal of a read-only disk. *)
Definition mkdir (d : Disk) (dir : string) : Outcome unit * Disk :=
  if read_only d then (Rejected EACCES, d) else (Resolved tt, d).
End Fs.

Section CredentialFile.
(** [os.homedir()]. *)
Variable homedir : string.

Definition getDeltaCachedCredentialPath : string :=
  homedir +:+ "/" +:+ QWEN_DIR +:+ "/" +:+ QWEN_CREDENTIAL_FILENAME.

(** [path.dirname(getDeltaCachedCredentialPath())]. *)
Definition credentialDir : string := homedir +:+ "/" +:+ QWEN_DIR.

Definition cacheDeltaCredentials (credentials : DeltaCredentials.t)
    (d : Disk) (now : Z) : Outcome unit * Disk :=
  let filePath := getDeltaCachedCredentialPath in
  match Fs.mkdir d credentialDir with
  | (Rejected e, d1) => (Rejected e, d1)
  | (Resolved _, d1) =>
      Fs.writeFile d1 filePath (JsonCredentials credentials) now
  end.

(** Never rejects: [ENOENT] is "already cleared", any other failure is
    logged and dropped. *)
Definition clearDeltaCredentials (d : Disk) : Outcome unit * Disk :=
  let filePath := getDeltaCachedCredentialPath in
  match Fs.unlink d filePath with
  | (Resolved _, d1) => (Resolved tt, d1)
  | (Rejected error, d1) =>
      if Js.str_is (Error.code error) "ENOENT" then (Resolved tt, d1)
      else (Resolved tt, d1)
  end.
End CredentialFile.

(** ** [DeltaOAuth2Client]

    The client object has one mutable field that matters, [credentials];
    every method takes it and, where the method assigns it, returns the new
    value.  The shared token manager is a collaborator: [getAccessToken]
    takes what [sharedManager.getValidCredentials(this)] settled to. *)

Module TokenResult.
(** [{ token?: string }]. *)
Record t : Type := mk { token : option string }.
End TokenResult.

Section DeltaOAuth2Client.
Variable homedir : string.

(** [Date.now() < expiry_date - TOKEN_REFRESH_BUFFER_MS], after the guard
    [!this.credentials.expiry_date]. *)
Definition isTokenValid (credentials : DeltaCredentials.t) (now : Z) : bool :=
  if negb (Js.truthy_number (DeltaCredentials.expiry_date credentials))
  then false
  else
    match DeltaCredentials.expiry_date credentials with
    | Some expiry_date => now <? expiry_date - TOKEN_REFRESH_BUFFER_MS
    | None => false
    end.

(** The [TypeError] of [this.credentials.access_token] when
    [this.credentials] is [null]. *)
Definition null_credentials_error : Error.t :=
  Error.plain "Cannot read properties of null (reading 'access_token')".

(** [credentials] is [this.credentials] and [now] is [Date.now()], both at
    the moment the [catch] block runs.  Nothing catches what the [catch]
    block itself throws. *)
Definition getAccessToken (credentials : ClientCredentials)
    (shared : Outcome DeltaCredentials.t) (now : Z) : Outcome TokenResult.t :=
  match shared with
  | Resolved c =>
      Resolved {| TokenResult.token := DeltaCredentials.access_token c |}
  | Rejected _error =>
      match credentials with
      | NullCredentials => Rejected null_credentials_error
      | Credentials credentials =>
          if Js.truthy_string (DeltaCredentials.access_token credentials)
             && isTokenValid credentials now
          then Resolved {| TokenResult.token :=
                             DeltaCredentials.access_token credentials |}
          else Resolved {| TokenResult.token := None |}
      end
  end.

(** The result of one call of [refreshAccessToken]: what the promise
    settles to, the client's credentials and the disk afterwards, and the
    number of requests sent to the token endpoint. *)
Record RefreshRun : Type :=
  { refresh_outcome : Outcome TokenRefreshResponse;
    refresh_credentials : DeltaCredentials.t;
    refresh_disk : Disk;
    refresh_requests : nat }.

Definition refresh_failed_message (error description : option string) : string :=
  "Token refresh failed: " +:+ Js.or_string error "Unknown error" +:+ " - "
    +:+ Js.or_string description "No details provided".

(** [net] is what the [fetch] of the token endpoint settles to, should the
    method get that far. *)
Definition refreshAccessToken (credentials : DeltaCredentials.t)
    (net : Fetched TokenRefreshResponse) (d : Disk) (now : Z) : RefreshRun :=
  if negb (Js.truthy_string (DeltaCredentials.refresh_token credentials)) then
    {| refresh_outcome := Rejected (Error.plain "No refresh token available");
       refresh_credentials := credentials;
       refresh_disk := d;
       refresh_requests := 0 |}
  else
    match net with
    | Rejected e =>
        {| refresh_outcome := Rejected e;
           refresh_credentials := credentials;
           refresh_disk := d;
           refresh_requests := 1 |}
    | Resolved response =>
        if negb (Response.ok response) then
          match Response.text response false with
          | (Rejected e, _) =>
              {| refresh_outcome := Rejected e;
                 refresh_credentials := credentials;
                 refresh_disk := d;
                 refresh_requests := 1 |}
          | (Resolved errorData, _) =>
              if Response.status response =? 400 then
                let '(_, d1) := clearDeltaCredentials homedir d in
                {| refresh_outcome :=
                     Rejected (Error.plain
                       "Refresh token expired or invalid. Please use '/auth' to re-authenticate.");
                   refresh_credentials := credentials;
                   refresh_disk := d1;
                   refresh_requests := 1 |}
              else
                {| refresh_outcome :=
                     Rejected (Error.plain
                       ("Token refresh failed: "
                          +:+ Js.show (Response.status response) +:+ " "
                          +:+ Response.statusText response
                          +:+ ". Response: " +:+ errorData));
                   refresh_credentials := credentials;
                   refresh_disk := d;
                   refresh_requests := 1 |}
          end
        else
          match Response.json response false with
          | (Rejected e, _) =>
              {| refresh_outcome := Rejected e;
                 refresh_credentials := credentials;
                 refresh_disk := d;
                 refresh_requests := 1 |}
          | (Resolved (RefreshError errorData), _) =>
              {| refresh_outcome :=
                   Rejected (Error.plain
                     (refresh_failed_message (ErrorData.error errorData)
                        (ErrorData.error_description errorData)));
                 refresh_credentials := credentials;
                 refresh_disk := d;
                 refresh_requests := 1 |}
          | (Resolved (RefreshData tokenData), _) =>
              let tokens :=
                {| DeltaCredentials.access_token :=
                     TokenRefreshData.access_token tokenData;
                   DeltaCredentials.token_type :=
                     TokenRefreshData.token_type tokenData;
                   DeltaCredentials.refresh_token :=
                     Js.or_else (TokenRefreshData.refresh_token tokenData)
                       (DeltaCredentials.refresh_token credentials);
                   DeltaCredentials.resource_url :=
                     TokenRefreshData.resource_url tokenData;
                   DeltaCredentials.expiry_date :=
                     Some (now + TokenRefreshData.expires_in tokenData * 1000);
                   DeltaCredentials.id_token := None |} in
              {| refresh_outcome := Resolved (RefreshData tokenData);
                 refresh_credentials := tokens;
                 refresh_disk := d;
                 refresh_requests := 1 |}
          end
    end.

(** The error either branch of [pollDeviceToken] builds, with the HTTP
    status attached. *)
Definition poll_error (msg : string) (status : Z) : Error.t :=
  {| Error.message := msg; Error.status := Some status; Error.code := None |}.

(** [pollDeviceToken]: [net] is what the [fetch] of the token endpoint
    settled to.  The [try] block is [poll_try]; whatever it throws, the
    error built on purpose included, lands in the [catch] block, which
    reads the body a second time with [response.text()]. *)
Definition poll_try (response : Response.t DeviceTokenResponse.t)
    : Outcome DeviceTokenResponse.t * bool :=
  match Response.json response false with
  | (Rejected e, used) => (Rejected e, used)
  | (Resolved errorData, used) =>
      if (Response.status response =? 400)
         && Js.str_is (DeviceTokenResponse.error errorData) "authorization_pending"
      then (Resolved DeviceTokenResponse.pending, used)
      else if (Response.status response =? 429)
              && Js.str_is (DeviceTokenResponse.error errorData) "slow_down"
      then (Resolved DeviceTokenResponse.pending_slowDown, used)
      else
        (Rejected
           (poll_error
              ("Device token poll failed: "
                 +:+ Js.or_string (DeviceTokenResponse.error errorData) "Unknown error"
                 +:+ " - "
                 +:+ Js.or_string (DeviceTokenResponse.error_description errorData)
                       "No details provided")
              (Response.status response)),
         used)
  end.

Definition poll_catch (response : Response.t DeviceTokenResponse.t)
    (bodyUsed : bool) : Outcome DeviceTokenResponse.t :=
  match Response.text response bodyUsed with
  | (Rejected e, _) => Rejected e
  | (Resolved errorData, _) =>
      Rejected
        (poll_error
           ("Device token poll failed: "
              +:+ Js.show (Response.status response) +:+ " "
              +:+ Response.statusText response
              +:+ ". Response: " +:+ errorData)
           (Response.status response))
  end.

Definition pollDeviceToken (net : Fetched DeviceTokenResponse.t)
    : Outcome DeviceTokenResponse.t :=
  match net with
  | Rejected e => Rejected e
  | Resolved response =>
      if negb (Response.ok response) then
        match poll_try response with
        | (Resolved r, _) => Resolved r
        | (Rejected _parseError, bodyUsed) => poll_catch response bodyUsed
        end
      else
        fst (Response.json response false)
  end.
End DeltaOAuth2Client.

(** ** [authWithDeltaDeviceFlow]

    The flow is a coroutine: it runs until it awaits, and the rest of the
    process (the UI, which emits [AuthCancel]) runs while it is suspended.
    An _instant_ numbers the resumptions of the flow: instant 0 is the call,
    and every [await] of I/O or of a timer ends one instant and starts the
    next.  The environment fixes what the outside world does. *)

Module Reason.
Inductive t : Type := timeout | cancelled | error | rate_limit.
End Reason.

(** [AuthResult]: [{ success: true }] or [{ success: false, reason }]. *)
Inductive AuthResult : Type :=
| success
| failure (reason : Reason.t).

(** What the flow does to the outside world, in order. *)
Inductive Effect : Type :=
| EmitAuthUri (deviceAuth : DeviceAuthorizationData.t)
| EmitAuthProgress (status message : string)
| PollRequest (attempt : nat) (instant : nat)
| Waited (pollInterval elapsedTime : Z)
| Slept (ms : Z)
| CacheWritten (credentials : DeltaCredentials.t).

Record Env : Type :=
  { (** what [client.requestDeviceAuthorization] settles to *)
    deviceAuthorization : Outcome DeviceAuthorizationData.t;
    (** [config.isBrowserLaunchSuppressed()] *)
    browserLaunchSuppressed : bool;
    (** what the [fetch] of the [n]-th poll (from 0) settles to *)
    polled : nat -> Fetched DeviceTokenResponse.t;
    (** [Some k]: [AuthCancel] is emitted while the flow is suspended for the
        [k]-th time (from 0), between instants [k] and [k + 1] *)
    cancelAt : option nat;
    (** [Date.now()] at an instant *)
    dateNow : nat -> Z }.

Record FlowState : Type :=
  { credentials : ClientCredentials;    (** the client's [credentials] *)
    disk : Disk;
    effects : list Effect;              (** oldest first *)
    instant : nat }.

Inductive Step : Type :=
| Continue (pollInterval : Z) (s : FlowState)
| Return (r : AuthResult) (s : FlowState).

Section DeviceFlow.
Variable homedir : string.
Variable env : Env.

(** The value of the local [isCancelled] at an instant: the handler
    registered with [once] has run if the event was emitted during an
    earlier suspension. *)
Definition isCancelled (instant : nat) : bool :=
  match cancelAt env with
  | Some k => (k <? instant)%nat
  | None => false
  end.

Definition emit (e : Effect) (s : FlowState) : FlowState :=
  {| credentials := credentials s; disk := disk s;
     effects := effects s ++ [e]; instant := instant s |}.

(** One suspension: the flow resumes at the next instant. *)
Definition await (s : FlowState) : FlowState :=
  {| credentials := credentials s; disk := disk s;
     effects := effects s; instant := S (instant s) |}.

(** [pollInterval = Math.min(pollInterval * 1.5, 10000)], or the reset to
    2000. *)
Definition nextPollInterval (pollInterval : Z) (slowDown : bool) : Z :=
  if slowDown then Z.min (pollInterval * 3 / 2) 10000 else 2000.

(** The [setInterval] callback of the inter-poll wait, fired every
    [checkInterval = 100] ms until it resolves the promise.  [fuel] bounds
    the number of firings; [wait_fuel] is enough ([waitTicks_exit]). *)
Fixpoint waitTicks (fuel : nat) (elapsedTime pollInterval : Z)
    (instant : nat) : nat * Z :=
  match fuel with
  | O => (instant, elapsedTime)
  | S fuel' =>
      let instant := S instant in
      let elapsedTime := elapsedTime + 100 in
      if isCancelled instant then (instant, elapsedTime)
      else if elapsedTime >=? pollInterval then (instant, elapsedTime)
      else waitTicks fuel' elapsedTime pollInterval instant
  end.

Definition wait_fuel (pollInterval : Z) : nat :=
  S (Z.to_nat (pollInterval / 100)).

Definition cancelled_message : string := "Authentication cancelled by user.".

(** The [catch (error)] block inside the loop. *)
Definition handleError (error : Error.t) (pollInterval : Z)
    (s : FlowState) : Step :=
  let errorMessage := Error.message error in
  let statusCode := Error.status error in
  if Js.includes errorMessage "401" || bool_decide (statusCode = Some 401) then
    Return (failure Reason.error)
      (emit (EmitAuthProgress "error"
               "Device code expired or invalid, please restart the authorization process.") s)
  else if Js.includes errorMessage "429" || bool_decide (statusCode = Some 429) then
    Return (failure Reason.rate_limit)
      (emit (EmitAuthProgress "rate_limit"
               "Too many requests. The server is rate limiting our requests. Please select a different authentication method or try again later.") s)
  else
    let s1 := emit (EmitAuthProgress "error"
                      ("Error polling for token: " +:+ errorMessage)) s in
    if isCancelled (instant s1) then Return (failure Reason.cancelled) s1
    else Continue pollInterval (await (emit (Slept pollInterval) s1)).

(** The record built from a successful token response. *)
Definition credentialsOfToken (tokenData : DeviceTokenResponse.t) (now : Z)
    : DeltaCredentials.t :=
  {| DeltaCredentials.access_token := DeviceTokenResponse.access_token tokenData;
     DeltaCredentials.refresh_token :=
       Js.or_undefined (DeviceTokenResponse.refresh_token tokenData);
     DeltaCredentials.token_type := DeviceTokenResponse.token_type tokenData;
     DeltaCredentials.resource_url := DeviceTokenResponse.resource_url tokenData;
     DeltaCredentials.expiry_date :=
       if Js.truthy_number (DeviceTokenResponse.expires_in tokenData)
       then option_map (fun expires_in => now + expires_in * 1000)
              (DeviceTokenResponse.expires_in tokenData)
       else None;
     DeltaCredentials.id_token := None |}.

(** The body of the [for] loop. *)
Definition iteration (attempt : nat) (maxAttempts : Z) (pollInterval : Z)
    (s : FlowState) : Step :=
  if isCancelled (instant s) then
    Return (failure Reason.cancelled) (emit (EmitAuthProgress "error" cancelled_message) s)
  else
    let s := await (emit (PollRequest attempt (instant s)) s) in
    match pollDeviceToken (polled env attempt) with
    | Rejected e => handleError e pollInterval s
    | Resolved tokenResponse =>
        if isDeviceTokenSuccess tokenResponse then
          let credentials := credentialsOfToken tokenResponse (dateNow env (instant s)) in
          let s := {| credentials := credentials; disk := disk s;
                      effects := effects s; instant := instant s |} in
          match cacheDeltaCredentials homedir credentials (disk s)
                  (dateNow env (instant s)) with
          | (Rejected e, d) =>
              handleError e pollInterval
                (await {| credentials := credentials; disk := d;
                          effects := effects s; instant := instant s |})
          | (Resolved _, d) =>
              Return success
                (emit (EmitAuthProgress "success"
                         "Authentication successful! Access token obtained.")
                   (await
                      {| credentials := credentials; disk := d;
                         effects := effects s ++ [CacheWritten credentials];
                         instant := instant s |}))
          end
        else if isDeviceTokenPending tokenResponse then
          let pollInterval :=
            nextPollInterval pollInterval
              (Js.truthy_bool (DeviceTokenResponse.slowDown tokenResponse)) in
          let s := emit (EmitAuthProgress "polling"
                           ("Polling... (attempt " +:+ Js.show (Z.of_nat attempt + 1)
                              +:+ "/" +:+ Js.show maxAttempts +:+ ")")) s in
          let '(instant', elapsedTime) :=
            waitTicks (wait_fuel pollInterval) 0 pollInterval (instant s) in
          let s := {| credentials := credentials s; disk := disk s;
                      effects := effects s ++ [Waited pollInterval elapsedTime];
                      instant := instant' |} in
          if isCancelled (instant s) then
            Return (failure Reason.cancelled)
              (emit (EmitAuthProgress "error" cancelled_message) s)
          else Continue pollInterval s
        else if isErrorResponse tokenResponse then
          handleError
            (Error.plain
               ("Token polling failed: "
                  +:+ Js.or_string (DeviceTokenResponse.error tokenResponse) "Unknown error"
                  +:+ " - "
                  +:+ Js.or_string (DeviceTokenResponse.error_description tokenResponse)
                        "No details provided"))
            pollInterval s
        else Continue pollInterval s
    end.

(** [for (let attempt = 0; attempt < maxAttempts; attempt++)], by recursion
    on the attempts that remain, and the code after the loop. *)
Fixpoint pollLoop (remaining : nat) (attempt : nat) (maxAttempts : Z)
    (pollInterval : Z) (s : FlowState) : AuthResult * FlowState :=
  match remaining with
  | O =>
      (failure Reason.timeout,
       emit (EmitAuthProgress "timeout"
               "Authorization timeout, please restart the process.") s)
  | S remaining' =>
      match iteration attempt maxAttempts pollInterval s with
      | Return r s' => (r, s')
      | Continue pollInterval' s' =>
          pollLoop remaining' (S attempt) maxAttempts pollInterval' s'
      end
  end.

(** [Math.ceil(deviceAuth.expires_in / (pollInterval / 1000))]. *)
Definition maxAttemptsOf (expires_in pollInterval : Z) : Z :=
  Js.ceil_div expires_in (pollInterval / 1000).

(** The whole function.  [requestDeviceAuthorization] only resolves to a
    [DeviceAuthorizationData], so the second test of
    [isDeviceAuthorizationSuccess] cannot fail; a rejection lands in the
    outer [catch].  Opening the browser is one more suspension, whatever its
    result. *)
Definition authWithDeltaDeviceFlow (credentials0 : ClientCredentials)
    (disk0 : Disk) : AuthResult * FlowState :=
  let s := await {| credentials := credentials0; disk := disk0;
                    effects := []; instant := 0 |} in
  match deviceAuthorization env with
  | Rejected _ => (failure Reason.error, s)
  | Resolved deviceAuth =>
      let s := emit (EmitAuthUri deviceAuth) s in
      let s := if browserLaunchSuppressed env then s else await s in
      let s := emit (EmitAuthProgress "polling" "Waiting for authorization...") s in
      let pollInterval := 2000 in
      let maxAttempts :=
        maxAttemptsOf (DeviceAuthorizationData.expires_in deviceAuth) pollInterval in
      pollLoop (Z.to_nat maxAttempts) 0 maxAttempts pollInterval s
  end.
End DeviceFlow.

(** ** The shared token manager

    [sharedTokenManager.ts] is imported by [qwenOAuth2.ts] and exercised by
    the test suite, but the module itself is not among the sources; the
    definitions below follow sections 3, 4.1, 4.2, 5 and 7 of the
    specification.  The refresh operation is the client's
    [refreshAccessToken] above, called on the record being refreshed. *)

Module SharedTokenManager.

(** Modelled from the spec: the error taxonomy of section 7 (the
    [TokenError] enum of the missing [sharedTokenManager.ts]). *)
Inductive TokenError : Type :=
| REFRESH_FAILED | NO_REFRESH_TOKEN | LOCK_TIMEOUT | FILE_ERROR | NETWORK_ERROR.

(** Modelled from the spec: what [getValidCredentials] (missing) settles
    to, a credential record or a typed error. *)
Inductive Result : Type :=
| Ok (record : DeltaCredentials.t)
| Err (e : TokenError).

(** Modelled from the spec: the Memory Cache Entry of section 3 (field
    [memoryCache] of the missing class). *)
Record MemoryCache : Type :=
  { credentials : option DeltaCredentials.t;
    fileModTime : Z;
    lastCheck : Z }.

(** Modelled from the spec: [clearCache()] (missing) drops the in-memory
    state. *)
Definition clearCache : MemoryCache :=
  {| credentials := None; fileModTime := 0; lastCheck := 0 |}.

(** Modelled from the spec: the outcome of [acquireLock] (missing),
    [Held | TimedOut], and the unexpected file-system failure of
    section 7. *)
Inductive LockResult : Type :=
| Held (d : Disk) (now : Z)
| TimedOut
| LockFileError.

(** Modelled from the spec: where steps 2 to 4 of [getValidCredentials]
    (missing) stop, either with the call settled or with the lock held and
    the refresh request for [record] about to be sent. *)
Inductive Prepared : Type :=
| Settled (r : Result) (cache : MemoryCache) (d : Disk)
| NeedNetwork (record : DeltaCredentials.t) (cache : MemoryCache) (d : Disk).

Section Manager.
Variable homedir : string.
(** [acquireLock(maxAttempts, attemptIntervalMs)] and the stale-lock
    threshold, all in milliseconds. *)
Variable lockMaxAttempts : nat.
Variable lockAttemptInterval : Z.
Variable staleThreshold : Z.

(** Modelled from the spec: the lock marker of the missing Credential
    Store, "at a sibling path" of the credential file. *)
Definition lockPath : string := credentialDir homedir +:+ "/oauth_creds.lock".

(** Modelled from the spec: [load()] of the missing Credential Store; a
    parse failure is treated as [NotFound], here [None]. *)
Definition load (d : Disk) : option DeltaCredentials.t :=
  match files d !! getDeltaCachedCredentialPath homedir with
  | Some {| data := JsonCredentials c |} => Some c
  | _ => None
  end.

(** Modelled from the spec: [acquireLock] of the missing Credential
    Store: create the marker exclusively; a marker older than the stale
    threshold is deleted and the creation retried; otherwise wait and
    retry, up to [maxAttempts]. *)
Fixpoint acquireLock (attempts : nat) (d : Disk) (now : Z) : LockResult :=
  match attempts with
  | O => TimedOut
  | S attempts' =>
      match files d !! lockPath with
      | None =>
          match Fs.writeFile d lockPath (NotJson "") now with
          | (Resolved _, d1) => Held d1 now
          | (Rejected _, _) => LockFileError
          end
      | Some marker =>
          if staleThreshold <? now - mtimeMs marker then
            match Fs.unlink d lockPath with
            | (Resolved _, d1) => acquireLock attempts' d1 now
            | (Rejected _, _) => LockFileError
            end
          else acquireLock attempts' d (now + lockAttemptInterval)
      end
  end.

(** Modelled from the spec: [releaseLock()] of the missing Credential
    Store, a best-effort delete that never throws. *)
Definition releaseLock (d : Disk) : Disk := snd (Fs.unlink d lockPath).

(** Modelled from the spec: step 2 of [getValidCredentials] (missing):
    stat the credential file and, if it is newer than the cache, reload
    and adopt it.  An absent file is the normal not-found case. *)
Definition checkAndReloadIfNeeded (cache : MemoryCache) (d : Disk) (now : Z)
    : MemoryCache :=
  match files d !! getDeltaCachedCredentialPath homedir with
  | None => cache
  | Some f =>
      if fileModTime cache <? mtimeMs f then
        {| credentials := load d; fileModTime := mtimeMs f; lastCheck := now |}
      else cache
  end.

(** Modelled from the spec: the freshness test of step 3 of
    [getValidCredentials] (missing), on the cached record; the test
    itself is the client's [isTokenValid]. *)
Definition isFresh (cache : MemoryCache) (now : Z) : bool :=
  match credentials cache with
  | Some record => isTokenValid record now
  | None => false
  end.

(** Modelled from the spec: step 4 of [getValidCredentials] (missing), up
    to the refresh request. *)
Definition prepareRefresh (forceRefresh : bool) (cache : MemoryCache)
    (d : Disk) (now : Z) : Prepared :=
  match credentials cache with
  | None => Settled (Err NO_REFRESH_TOKEN) cache d
  | Some record =>
      if negb (Js.truthy_string (DeltaCredentials.refresh_token record))
      then Settled (Err NO_REFRESH_TOKEN) cache d
      else
        match acquireLock lockMaxAttempts d now with
        | TimedOut => Settled (Err LOCK_TIMEOUT) cache d
        | LockFileError => Settled (Err FILE_ERROR) cache d
        | Held d1 now1 =>
            let cache1 := checkAndReloadIfNeeded cache d1 now1 in
            if negb forceRefresh && isFresh cache1 now1 then
              match credentials cache1 with
              | Some adopted => Settled (Ok adopted) cache1 (releaseLock d1)
              | None => Settled (Err REFRESH_FAILED) cache1 (releaseLock d1)
              end
            else NeedNetwork record cache1 d1
        end
  end.

(** Modelled from the spec: steps 2 and 3 of [getValidCredentials]
    (missing), then step 4. *)
Definition prepare (forceRefresh : bool) (cache : MemoryCache)
    (d : Disk) (now : Z) : Prepared :=
  let cache1 := checkAndReloadIfNeeded cache d now in
  if negb forceRefresh && isFresh cache1 now then
    match credentials cache1 with
    | Some record => Settled (Ok record) cache1 d
    | None => prepareRefresh forceRefresh cache1 d now
    end
  else prepareRefresh forceRefresh cache1 d now.

(** Modelled from the spec: the end of step 4 and step 5 of
    [getValidCredentials] (missing): the refresh operation of the OAuth
    protocol client, then persist, update the cache, release the lock. *)
Definition complete (record : DeltaCredentials.t)
    (net : Fetched TokenRefreshResponse) (cache : MemoryCache)
    (d : Disk) (now : Z) : Result * MemoryCache * Disk :=
  let run := refreshAccessToken homedir record net d now in
  match refresh_outcome run with
  | Rejected _ =>
      (Err match net with
           | Rejected _ => NETWORK_ERROR
           | Resolved _ => REFRESH_FAILED
           end,
       cache, releaseLock (refresh_disk run))
  | Resolved _ =>
      let fresh := refresh_credentials run in
      match cacheDeltaCredentials homedir fresh (refresh_disk run) now with
      | (Rejected _, d1) => (Err FILE_ERROR, cache, releaseLock d1)
      | (Resolved _, d1) =>
          (Ok fresh,
           {| credentials := Some fresh; fileModTime := now; lastCheck := now |},
           releaseLock d1)
      end
  end.

(** Modelled from the spec: one call of [getValidCredentials] (missing)
    run from start to end with nothing else happening in the process:
    its result, the cache and the disk afterwards, and the number of
    refresh requests sent, which are those of the call of
    [refreshAccessToken] that [complete] makes.  [now] is the time of the
    call, [net] what the refresh request settles to (if one is sent) and
    [now'] the time at which it does. *)
Definition getValidCredentials (forceRefresh : bool) (cache : MemoryCache)
    (d : Disk) (now : Z) (net : Fetched TokenRefreshResponse) (now' : Z)
    : Result * MemoryCache * Disk * nat :=
  match prepare forceRefresh cache d now with
  | Settled r cache1 d1 => (r, cache1, d1, 0%nat)
  | NeedNetwork record cache1 d1 =>
      (complete record net cache1 d1 now',
       refresh_requests (refreshAccessToken homedir record net d1 now'))
  end.

(** *** Concurrent callers

    Within one process the manager is driven by an event loop
    (section 5): a call runs until it suspends, and other calls may
    start while it is suspended.  The "pending operation" slot of
    section 9 is [refreshPromise]; [futures] lists every future the
    manager has created and not yet settled, so that "at most one" is a
    property to prove and not a matter of typing. *)

(** Modelled from the spec: where the in-flight operation of the missing
    [getValidCredentials] is suspended: on the stat of the credential
    file (step 2) or on the refresh request (step 4). *)
Inductive Phase : Type :=
| AwaitingStat (forceRefresh : bool)
| AwaitingNetwork (record : DeltaCredentials.t).

(** Modelled from the spec: the state of the missing manager singleton
    and of its callers. *)
Record Process : Type :=
  { memoryCache : MemoryCache;
    disk : Disk;
    refreshPromise : option nat;
    futures : list (nat * Phase);
    nextFuture : nat;
    awaiting : list (nat * nat);          (** caller, future awaited *)
    resolved : list (nat * Result);       (** caller, what its call settled to *)
    requests : nat }.                     (** refresh requests sent *)

(** Modelled from the spec: what happens in one turn of the event loop:
    a caller invokes [getValidCredentials] (missing), or a suspension of
    the in-flight operation ends. *)
Inductive Event : Type :=
| Call (caller : nat) (forceRefresh : bool)
| StatDone (future : nat) (now : Z)
| NetworkDone (future : nat) (net : Fetched TokenRefreshResponse) (now : Z).


(** Modelled from the spec: where the unsettled future [future] of the
    missing manager is suspended, if there is such a future. *)
Definition phaseOf (p : Process) (future : nat) : option Phase :=
  snd <$> find (fun x => Nat.eqb (fst x) future) (futures p).

(** Modelled from the spec: a future settles: it leaves the slot, and
    every caller awaiting it gets the one result. *)
Definition settle (future : nat) (r : Result) (cache : MemoryCache)
    (d : Disk) (p : Process) : Process :=
  {| memoryCache := cache;
     disk := d;
     refreshPromise :=
       match refreshPromise p with
       | Some f => if Nat.eqb f future then None else Some f
       | None => None
       end;
     futures := List.filter (fun x => negb (Nat.eqb (fst x) future)) (futures p);
     nextFuture := nextFuture p;
     awaiting := List.filter (fun x => negb (Nat.eqb (snd x) future)) (awaiting p);
     resolved :=
       resolved p ++
       map (fun x => (fst x, r))
         (List.filter (fun x => Nat.eqb (snd x) future) (awaiting p));
     requests := requests p |}.

(** Modelled from the spec: step 1 of [getValidCredentials] (missing): a
    caller that finds a refresh in flight awaits it; a caller that finds
    none fills the slot in the same turn, before it suspends.  The other
    events resume the operation in flight. *)
Definition step (p : Process) (e : Event) : Process :=
  match e with
  | Call caller forceRefresh =>
      match refreshPromise p with
      | Some f =>
          {| memoryCache := memoryCache p; disk := disk p;
             refreshPromise := Some f; futures := futures p;
             nextFuture := nextFuture p;
             awaiting := awaiting p ++ [(caller, f)];
             resolved := resolved p; requests := requests p |}
      | None =>
          let f := nextFuture p in
          {| memoryCache := memoryCache p; disk := disk p;
             refreshPromise := Some f;
             futures := futures p ++ [(f, AwaitingStat forceRefresh)];
             nextFuture := S f;
             awaiting := awaiting p ++ [(caller, f)];
             resolved := resolved p; requests := requests p |}
      end
  | StatDone future now =>
      match phaseOf p future with
      | Some (AwaitingStat forceRefresh) =>
          match prepare forceRefresh (memoryCache p) (disk p) now with
          | Settled r cache d => settle future r cache d p
          | NeedNetwork record cache d =>
              {| memoryCache := cache; disk := d;
                 refreshPromise := refreshPromise p;
                 futures :=
                   map (fun x => if Nat.eqb (fst x) future
                                 then (future, AwaitingNetwork record) else x)
                     (futures p);
                 nextFuture := nextFuture p;
                 awaiting := awaiting p;
                 resolved := resolved p;
                 requests := S (requests p) |}
          end
      | _ => p
      end
  | NetworkDone future net now =>
      match phaseOf p future with
      | Some (AwaitingNetwork record) =>
          let '(r, cache, d) := complete record net (memoryCache p) (disk p) now in
          settle future r cache d p
      | _ => p
      end
  end.

(** Modelled from the spec: the missing manager driven through a schedule
    of event-loop turns. *)
Definition run (p : Process) (events : list Event) : Process :=
  fold_left step events p.
End Manager.
End SharedTokenManager.

(** ** [requestDeviceAuthorization] *)

(** [DeviceAuthorizationResponse = DeviceAuthorizationData | ErrorData]; the
    only probe is [isDeviceAuthorizationSuccess], the presence of the key
    ['device_code']. *)
Inductive DeviceAuthorizationResponse : Type :=
| AuthorizationData (d : DeviceAuthorizationData.t)
| AuthorizationError (e : ErrorData.t).

Definition isDeviceAuthorizationSuccess (response : DeviceAuthorizationResponse)
    : bool :=
  match response with
  | AuthorizationData _ => true
  | AuthorizationError _ => false
  end.

(** [net] is what the [fetch] of the device-code endpoint settles to. *)
Definition requestDeviceAuthorization (net : Fetched DeviceAuthorizationResponse)
    : Outcome DeviceAuthorizationData.t :=
  match net with
  | Rejected e => Rejected e
  | Resolved response =>
      if negb (Response.ok response) then
        match Response.text response false with
        | (Rejected e, _) => Rejected e
        | (Resolved errorData, _) =>
            Rejected (Error.plain
              ("Device authorization failed: "
                 +:+ Js.show (Response.status response) +:+ " "
                 +:+ Response.statusText response
                 +:+ ". Response: " +:+ errorData))
        end
      else
        match Response.json response false with
        | (Rejected e, _) => Rejected e
        | (Resolved (AuthorizationError errorData), _) =>
            Rejected (Error.plain
              ("Device authorization failed: "
                 +:+ Js.or_string (ErrorData.error errorData) "Unknown error"
                 +:+ " - "
                 +:+ Js.or_string (ErrorData.error_description errorData)
                       "No details provided"))
        | (Resolved (AuthorizationData result), _) => Resolved result
        end
  end.

(** ** [getDeltaOAuthClient]

    The function builds a fresh client, asks the shared token manager for
    credentials and falls back to the device flow.  The manager is a
    collaborator: a call [sharedManager.getValidCredentials(client)] is a
    function from the client's credentials and the disk before the call to
    what the call settles to and the client's credentials and the disk after
    it. *)

Definition SharedCall : Type :=
  ClientCredentials -> Disk ->
  Outcome DeltaCredentials.t * ClientCredentials * Disk.

(** What [getDeltaOAuthClient] settles to (a resolved client is given by the
    credentials it holds), with the disk and the events afterwards. *)
Record ClientRun : Type :=
  { client_outcome : Outcome ClientCredentials;
    client_disk : Disk;
    client_effects : list Effect }.

Section GetDeltaOAuthClient.
Variable homedir : string.
(** The call made by [getDeltaOAuthClient] itself, and the one made by
    [getAccessToken] inside [loadCachedDeltaCredentials]. *)
Variable shared1 : SharedCall.
Variable shared2 : SharedCall.
(** The outside world of the device flow. *)
Variable env : Env.
(** [Date.now()] when the [catch] block of [getAccessToken] runs. *)
Variable now : Z.

(** The result, the client's credentials and the disk afterwards.  Every
    failure ([readFile], [JSON.parse], a rejection of [getAccessToken]) is
    caught and gives [false].  What [JSON.parse] returns is given to
    [setCredentials] as it is. *)
Definition loadCachedDeltaCredentials (credentials : ClientCredentials)
    (d : Disk) : bool * ClientCredentials * Disk :=
  match files d !! getDeltaCachedCredentialPath homedir with
  | None => (false, credentials, d)
  | Some keyFile =>
      match JSON_parse (data keyFile) with
      | None => (false, credentials, d)
      | Some cached =>
          let '(shared, credentials', d') := shared2 cached d in
          match getAccessToken credentials' shared now with
          | Rejected _ => (false, credentials', d')
          | Resolved result =>
              if negb (Js.truthy_string (TokenResult.token result))
              then (false, credentials', d')
              else (true, credentials', d')
          end
      end
  end.

Definition authentication_failed : Error.t :=
  Error.plain "Delta OAuth authentication failed".

(** The message thrown for a failure reason when there were no cached
    credentials. *)
Definition failure_error (reason : Reason.t) : Error.t :=
  match reason with
  | Reason.timeout => Error.plain "Delta OAuth authentication timed out"
  | Reason.cancelled =>
      Error.plain "Delta OAuth authentication was cancelled by user"
  | Reason.rate_limit =>
      Error.plain
        "Too many request for Delta OAuth authentication, please try again later."
  | Reason.error => authentication_failed
  end.

Definition getDeltaOAuthClient (d : Disk) : ClientRun :=
  match shared1 (Credentials DeltaCredentials.empty) d with
  | (Resolved credentials, _, d1) =>
      {| client_outcome := Resolved (Credentials credentials);
         client_disk := d1;
         client_effects := [] |}
  | (Rejected _, credentials1, d1) =>
      let '(cached, credentials2, d2) :=
        loadCachedDeltaCredentials credentials1 d1 in
      let '(result, s) := authWithDeltaDeviceFlow homedir env credentials2 d2 in
      if cached then
        match result with
        | success =>
            {| client_outcome := Resolved (credentials s);
               client_disk := disk s;
               client_effects := effects s |}
        | failure _ =>
            {| client_outcome := Rejected authentication_failed;
               client_disk := disk s;
               client_effects := effects s |}
        end
      else
        match result with
        | success =>
            {| client_outcome := Resolved (credentials s);
               client_disk := disk s;
               client_effects := effects s |}
        | failure reason =>
            {| client_outcome := Rejected (failure_error reason);
               client_disk := disk s;
               client_effects :=
                 match reason with
                 | Reason.timeout =>
                     effects s ++
                     [EmitAuthProgress "timeout"
                        "Authentication timed out. Please try again or select a different authentication method."]
                 | _ => effects s
                 end |}
        end
  end.
End GetDeltaOAuthClient.

(** ** [contentGenerator.ts]

    [createContentGeneratorConfig] reads the CLI configuration and the
    process environment; [createContentGenerator] picks the generator to
    build.  The generators themselves live in other modules: a built
    generator is recorded by its kind and by what it was built from. *)

Module AuthType.
Inductive t : Type :=
| LOGIN_WITH_GOOGLE | USE_GEMINI | USE_VERTEX_AI | CLOUD_SHELL
| USE_OPENAI | USE_CLAUDE | QWEN_OAUTH.

(** The string value of each member of the enum. *)
Definition value (a : t) : string :=
  match a with
  | LOGIN_WITH_GOOGLE => "oauth-personal"
  | USE_GEMINI => "gemini-api-key"
  | USE_VERTEX_AI => "vertex-ai"
  | CLOUD_SHELL => "cloud-shell"
  | USE_OPENAI => "openai"
  | USE_CLAUDE => "claude"
  | QWEN_OAUTH => "delta-oauth"
  end.

(** [a === b] on an optional auth type and a member of the enum. *)
Definition eqb (o : option t) (a : t) : bool :=
  match o with
  | Some x => String.eqb (value x) (value a)
  | None => false
  end.
End AuthType.

Section ContentGenerator.
(** [samplingParams] is passed through untouched. *)
Variable SamplingParams : Type.
(** The two constants imported from [../config/models.js]. *)
Variable DEFAULT_GEMINI_MODEL : string.
Variable DEFAULT_QWEN_MODEL : string.

(** The answers of the [Config] getters that the two functions call. *)
Record Config : Type :=
  { getModel : string;
    getProxy : option string;
    getEnableOpenAILogging : bool;
    getContentGeneratorTimeout : option Z;
    getContentGeneratorMaxRetries : option Z;
    getContentGeneratorSamplingParams : option SamplingParams;
    getCliVersion : option string }.

Record ContentGeneratorConfig : Type :=
  { model : string;
    apiKey : option string;
    baseUrl : option string;
    vertexai : option bool;
    authType : option AuthType.t;
    enableOpenAILogging : option bool;
    timeout : option Z;
    maxRetries : option Z;
    samplingParams : option SamplingParams;
    proxy : option string;
    userAgent : option string }.

Definition QWEN_OAUTH_DYNAMIC_TOKEN : string := "QWEN_OAUTH_DYNAMIC_TOKEN".

Definition with_key (c : ContentGeneratorConfig) (apiKey : option string)
    (vertexai : option bool) : ContentGeneratorConfig :=
  {| model := model c; apiKey := apiKey; baseUrl := baseUrl c;
     vertexai := vertexai; authType := authType c;
     enableOpenAILogging := enableOpenAILogging c; timeout := timeout c;
     maxRetries := maxRetries c; samplingParams := samplingParams c;
     proxy := proxy c; userAgent := userAgent c |}.

(** [env] is [process.env]. *)
Definition createContentGeneratorConfig (config : Config)
    (env : gmap string string) (authType : option AuthType.t)
    : ContentGeneratorConfig :=
  let geminiApiKey := Js.or_undefined (env !! "GEMINI_API_KEY") in
  let googleApiKey := Js.or_undefined (env !! "GOOGLE_API_KEY") in
  let googleCloudProject := Js.or_undefined (env !! "GOOGLE_CLOUD_PROJECT") in
  let googleCloudLocation := Js.or_undefined (env !! "GOOGLE_CLOUD_LOCATION") in
  let openaiApiKey := env !! "OPENAI_API_KEY" in
  let openaiBaseUrl := Js.or_undefined (env !! "OPENAI_BASE_URL") in
  let openaiModel := Js.or_undefined (env !! "OPENAI_MODEL") in
  let effectiveModel := Js.or_string (Some (getModel config)) DEFAULT_GEMINI_MODEL in
  let contentGeneratorConfig :=
    {| model := effectiveModel;
       apiKey := None; baseUrl := None; vertexai := None;
       authType := authType;
       proxy := getProxy config;
       enableOpenAILogging := Some (getEnableOpenAILogging config);
       timeout := getContentGeneratorTimeout config;
       maxRetries := getContentGeneratorMaxRetries config;
       samplingParams := getContentGeneratorSamplingParams config;
       userAgent := None |} in
  if AuthType.eqb authType AuthType.LOGIN_WITH_GOOGLE
     || AuthType.eqb authType AuthType.CLOUD_SHELL
  then contentGeneratorConfig
  else if AuthType.eqb authType AuthType.USE_GEMINI && Js.truthy_string geminiApiKey
  then with_key contentGeneratorConfig geminiApiKey (Some false)
  else if AuthType.eqb authType AuthType.USE_VERTEX_AI
          && (Js.truthy_string googleApiKey
              || (Js.truthy_string googleCloudProject
                  && Js.truthy_string googleCloudLocation))
  then with_key contentGeneratorConfig googleApiKey (Some true)
  else if AuthType.eqb authType AuthType.USE_OPENAI && Js.truthy_string openaiApiKey
  then
    {| model := Js.or_string openaiModel DEFAULT_QWEN_MODEL;
       apiKey := openaiApiKey; baseUrl := openaiBaseUrl;
       vertexai := None; authType := authType;
       proxy := getProxy config;
       enableOpenAILogging := Some (getEnableOpenAILogging config);
       timeout := getContentGeneratorTimeout config;
       maxRetries := getContentGeneratorMaxRetries config;
       samplingParams := getContentGeneratorSamplingParams config;
       userAgent := None |}
  else if AuthType.eqb authType AuthType.QWEN_OAUTH
  then
    {| model := Js.or_string (env !! "QWEN_MODEL") DEFAULT_QWEN_MODEL;
       apiKey := Some QWEN_OAUTH_DYNAMIC_TOKEN; baseUrl := None;
       vertexai := None; authType := authType;
       proxy := getProxy config;
       enableOpenAILogging := Some (getEnableOpenAILogging config);
       timeout := getContentGeneratorTimeout config;
       maxRetries := getContentGeneratorMaxRetries config;
       samplingParams := getContentGeneratorSamplingParams config;
       userAgent := None |}
  else contentGeneratorConfig.

(** The generator [createContentGenerator] builds. *)
Inductive Generator : Type :=
| CodeAssistGenerator (authType : option AuthType.t) (userAgent : string)
| GoogleGenAIGenerator (apiKey : option string) (vertexai : option bool)
    (userAgent : string)
| OpenAIContentGenerator (config : ContentGeneratorConfig)
| DeltaContentGenerator (deltaClient : DeltaCredentials.t)
    (config : ContentGeneratorConfig).

(** [platform] and [arch] are [process.platform] and [process.arch];
    [codeAssist] is what [createCodeAssistContentGenerator] settles to and
    [deltaClient] what [getDeltaOAuthClient] settles to, should the function
    get that far. *)
Definition createContentGenerator (config : ContentGeneratorConfig)
    (gcConfig : Config) (platform arch : string)
    (codeAssist : Outcome unit) (deltaClient : Outcome DeltaCredentials.t)
    : Outcome Generator :=
  let version := Js.or_string (getCliVersion gcConfig) "unknown" in
  let userAgent :=
    "GeminiCLI/" +:+ version +:+ " (" +:+ platform +:+ "; " +:+ arch +:+ ")" in
  if AuthType.eqb (authType config) AuthType.LOGIN_WITH_GOOGLE
     || AuthType.eqb (authType config) AuthType.CLOUD_SHELL
  then
    match codeAssist with
    | Rejected e => Rejected e
    | Resolved _ => Resolved (CodeAssistGenerator (authType config) userAgent)
    end
  else if AuthType.eqb (authType config) AuthType.USE_GEMINI
          || AuthType.eqb (authType config) AuthType.USE_VERTEX_AI
  then
    Resolved
      (GoogleGenAIGenerator
         (if Js.str_is (apiKey config) "" then None else apiKey config)
         (vertexai config) userAgent)
  else if AuthType.eqb (authType config) AuthType.USE_OPENAI
  then
    if negb (Js.truthy_string (apiKey config))
    then Rejected (Error.plain "OpenAI API key is required")
    else Resolved (OpenAIContentGenerator config)
  else if AuthType.eqb (authType config) AuthType.QWEN_OAUTH
  then
    if negb (Js.str_is (apiKey config) QWEN_OAUTH_DYNAMIC_TOKEN)
    then Rejected (Error.plain "Invalid Delta OAuth configuration")
    else
      match deltaClient with
      | Resolved client => Resolved (DeltaContentGenerator client config)
      | Rejected error =>
          Rejected (Error.plain
                      ("Failed to initialize Delta: " +:+ Error.message error))
      end
  else
    Rejected
      (Error.plain
         ("Error creating contentGenerator: Unsupported authType: "
            +:+ match authType config with
                | Some a => AuthType.value a
                | None => "undefined"
                end)).
End ContentGenerator.

(** ** [useDeltaAuth]

    The React hook that listens to the events of the device flow.  Its state
    is a [DeltaAuthState]; every handler is a state update. *)

Module DeviceAuthorizationInfo.
Record t : Type := mk
  { verification_uri : string;
    verification_uri_complete : string;
    user_code : string;
    expires_in : Z }.
End DeviceAuthorizationInfo.

Module DeltaAuthState.
Record t : Type := mk
  { isDeltaAuthenticating : bool;
    deviceAuth : option DeviceAuthorizationInfo.t;
    authStatus : string;
    authMessage : option string }.

(** The initial state, and the state every reset goes back to. *)
Definition initial : t :=
  {| isDeltaAuthenticating := false; deviceAuth := None;
     authStatus := "idle"; authMessage := None |}.
End DeltaAuthState.

(** The update made by the effect when authentication starts. *)
Definition startListening (prev : DeltaAuthState.t) : DeltaAuthState.t :=
  {| DeltaAuthState.isDeltaAuthenticating := true;
     DeltaAuthState.deviceAuth := DeltaAuthState.deviceAuth prev;
     DeltaAuthState.authStatus := "idle";
     DeltaAuthState.authMessage := DeltaAuthState.authMessage prev |}.

Definition handleDeviceAuth (deviceAuth : DeviceAuthorizationData.t)
    (prev : DeltaAuthState.t) : DeltaAuthState.t :=
  {| DeltaAuthState.isDeltaAuthenticating :=
       DeltaAuthState.isDeltaAuthenticating prev;
     DeltaAuthState.deviceAuth :=
       Some {| DeviceAuthorizationInfo.verification_uri :=
                 DeviceAuthorizationData.verification_uri deviceAuth;
               DeviceAuthorizationInfo.verification_uri_complete :=
                 DeviceAuthorizationData.verification_uri_complete deviceAuth;
               DeviceAuthorizationInfo.user_code :=
                 DeviceAuthorizationData.user_code deviceAuth;
               DeviceAuthorizationInfo.expires_in :=
                 DeviceAuthorizationData.expires_in deviceAuth |};
     DeltaAuthState.authStatus := "polling";
     DeltaAuthState.authMessage := DeltaAuthState.authMessage prev |}.

Definition handleAuthProgress (status : string) (message : option string)
    (prev : DeltaAuthState.t) : DeltaAuthState.t :=
  {| DeltaAuthState.isDeltaAuthenticating :=
       DeltaAuthState.isDeltaAuthenticating prev;
     DeltaAuthState.deviceAuth := DeltaAuthState.deviceAuth prev;
     DeltaAuthState.authStatus := status;
     DeltaAuthState.authMessage := Js.or_undefined message |}.

(** The state [cancelDeltaAuth] sets after emitting [AuthCancel]. *)
Definition cancelDeltaAuth (prev : DeltaAuthState.t) : DeltaAuthState.t :=
  DeltaAuthState.initial.

(** The body of the effect for given values of [isDeltaAuth] and
    [isAuthenticating]. *)
Definition authEffect (isDeltaAuth isAuthenticating : bool)
    (prev : DeltaAuthState.t) : DeltaAuthState.t :=
  if negb isDeltaAuth || negb isAuthenticating then DeltaAuthState.initial
  else startListening prev.

(** What the registered listeners do with one effect of the flow: the two
    events reach their handlers, everything else is not an event.  The
    listeners are all there is to the hook while nobody cancels: [AuthCancel]
    is emitted by the hook's own [cancelDeltaAuth], which resets the state
    besides. *)
Definition listen (prev : DeltaAuthState.t) (e : Effect) : DeltaAuthState.t :=
  match e with
  | EmitAuthUri deviceAuth => handleDeviceAuth deviceAuth prev
  | EmitAuthProgress status message =>
      handleAuthProgress status (Some message) prev
  | _ => prev
  end.

(** ** [DeltaOAuthProgress]

    The state updates of the progress component: the countdown run every
    second and the animated dots run every 500 ms. *)

(** [deviceAuth?.expires_in || 300]. *)
Definition defaultTimeout (deviceAuth : option DeviceAuthorizationInfo.t) : Z :=
  match deviceAuth with
  | Some info =>
      if DeviceAuthorizationInfo.expires_in info =? 0 then 300
      else DeviceAuthorizationInfo.expires_in info
  | None => 300
  end.

(** The updater of the countdown: the new [timeRemaining], and whether
    [onTimeout] was called. *)
Definition countdownTick (prev : Z) : Z * bool :=
  if prev <=? 1 then (0, true) else (prev - 1, false).

(** The updater of the dots. *)
Definition dotsTick (prev : string) : string :=
  if (3 <=? String.length prev)%nat then "" else prev +:+ ".".

(** ** [objectToUrlEncoded]

    A JavaScript string is given by its UTF-8 bytes.  [encodeURIComponent]
    keeps the unreserved characters of its definition (letters, digits and
    [- _ . ! ~ * ' ( )]) and writes every other byte of the UTF-8 encoding
    as [%XX] in upper-case hexadecimal. *)

Definition unreservedMark (c : Ascii.ascii) : bool :=
  existsb (Ascii.eqb c)
    (list_ascii_of_string "-_.!~*'()").

Definition uriUnreserved (c : Ascii.ascii) : bool :=
  let n := Ascii.N_of_ascii c in
  ((65 <=? n) && (n <=? 90))%N || ((97 <=? n) && (n <=? 122))%N
  || ((48 <=? n) && (n <=? 57))%N || unreservedMark c.

Definition hexDigit (n : N) : Ascii.ascii :=
  if (n <? 10)%N then Ascii.ascii_of_N (48 + n) else Ascii.ascii_of_N (55 + n).

Fixpoint encodeURIComponent (s : string) : string :=
  match s with
  | EmptyString => EmptyString
  | String c rest =>
      if uriUnreserved c then String c (encodeURIComponent rest)
      else
        let n := Ascii.N_of_ascii c in
        String (Ascii.ascii_of_N 37) (String (hexDigit (n / 16)) (String (hexDigit (n mod 16))
          (encodeURIComponent rest)))
  end.

(** [Object.keys(data).map(...).join('&')], the object being given by its
    properties in insertion order (the order of [Object.keys] for keys that
    are not array indices, as all the keys of the callers are). *)
Fixpoint objectToUrlEncoded (data : list (string * string)) : string :=
  match data with
  | [] => ""
  | [(key, value)] =>
      encodeURIComponent key +:+ "=" +:+ encodeURIComponent value
  | (key, value) :: rest =>
      encodeURIComponent key +:+ "=" +:+ encodeURIComponent value
        +:+ "&" +:+ objectToUrlEncoded rest
  end.


(** * Vocabulary of the statements *)

(** The cached token is usable: a non-empty string. *)
Definition usable_token (credentials : DeltaCredentials.t) : Prop :=
  exists s, DeltaCredentials.access_token credentials = Some s /\ s <> "".

(** The cached record passes the 30 s expiry check. *)
Definition passes_expiry_check (credentials : DeltaCredentials.t) (now : Z) : Prop :=
  exists expiry_date,
    DeltaCredentials.expiry_date credentials = Some expiry_date
    /\ now + 30000 < expiry_date.

(** The instants at which the flow issued its poll requests. *)
Fixpoint poll_instants (effects : list Effect) : list nat :=
  match effects with
  | [] => []
  | PollRequest _ instant :: rest => instant :: poll_instants rest
  | _ :: rest => poll_instants rest
  end.

(** The poll requests of the flow: the attempt and the instant at which
    each was issued. *)
Fixpoint poll_requests (effects : list Effect) : list (nat * nat) :=
  match effects with
  | [] => []
  | PollRequest attempt instant :: rest => (attempt, instant) :: poll_requests rest
  | _ :: rest => poll_requests rest
  end.

(** The inter-poll waits of the flow: the interval in force and the time
    counted by the ticks when the wait ended. *)
Fixpoint waits (effects : list Effect) : list (Z * Z) :=
  match effects with
  | [] => []
  | Waited pollInterval elapsedTime :: rest =>
      (pollInterval, elapsedTime) :: waits rest
  | _ :: rest => waits rest
  end.

(** The errors that end the flow from its [catch] block. *)
Definition terminal_error (e : Error.t) : bool :=
  Js.includes (Error.message e) "401" || bool_decide (Error.status e = Some 401)
  || Js.includes (Error.message e) "429" || bool_decide (Error.status e = Some 429).

(** A poll outcome after which the loop goes on to the next attempt (if the
    flow is not cancelled): a pending answer, an answer of no known shape,
    or an error that is neither a 401 nor a 429. *)
Definition keeps_polling (o : Outcome DeviceTokenResponse.t) : bool :=
  match o with
  | Rejected e => negb (terminal_error e)
  | Resolved tokenResponse =>
      if isDeviceTokenSuccess tokenResponse then false
      else if isDeviceTokenPending tokenResponse then true
      else if isErrorResponse tokenResponse then
        negb (terminal_error
                (Error.plain
                   ("Token polling failed: "
                      +:+ Js.or_string (DeviceTokenResponse.error tokenResponse) "Unknown error"
                      +:+ " - "
                      +:+ Js.or_string (DeviceTokenResponse.error_description tokenResponse)
                            "No details provided")))
      else true
  end.

(** The number of 100 ms ticks that count up to [pollInterval]. *)
Definition ticks_of (pollInterval : Z) : nat :=
  Z.to_nat (Js.ceil_div pollInterval 100).

(** The values the poll interval takes, starting from 2000: each is a whole
    number of milliseconds and the set is closed under the adjustment
    ([nextPollInterval_exact]), so [pollInterval * 1.5] is computed exactly
    by [* 3 / 2]. *)
Definition reachable_interval (pollInterval : Z) : Prop :=
  In pollInterval [2000; 3000; 4500; 6750; 10000].

(** The record [refreshAccessToken] builds from a successful answer. *)
Definition refreshed_record (record : DeltaCredentials.t)
    (tokenData : TokenRefreshData.t) (now : Z) : DeltaCredentials.t :=
  {| DeltaCredentials.access_token := TokenRefreshData.access_token tokenData;
     DeltaCredentials.token_type := TokenRefreshData.token_type tokenData;
     DeltaCredentials.refresh_token :=
       Js.or_else (TokenRefreshData.refresh_token tokenData)
         (DeltaCredentials.refresh_token record);
     DeltaCredentials.resource_url := TokenRefreshData.resource_url tokenData;
     DeltaCredentials.expiry_date :=
       Some (now + TokenRefreshData.expires_in tokenData * 1000);
     DeltaCredentials.id_token := None |}.

Section PollVocabulary.
Variable response : Response.t DeviceTokenResponse.t.

(** The two standard polling answers of RFC 8628. *)
Definition is_authorization_pending : bool :=
  (Response.status response =? 400)
  && match Response.json_of_body response with
     | Some errorData =>
         Js.str_is (DeviceTokenResponse.error errorData) "authorization_pending"
     | None => false
     end.

Definition is_slow_down : bool :=
  (Response.status response =? 429)
  && match Response.json_of_body response with
     | Some errorData => Js.str_is (DeviceTokenResponse.error errorData) "slow_down"
     | None => false
     end.
End PollVocabulary.

Section FlowVocabulary.
Variable homedir : string.
Variable env : Env.

(** What holds of the final state when the flow has ended in [success]:
    the last poll request, issued at instant [p], was answered with a token;
    the flow resumed at instant [p + 1], built the record with the time it
    read then, gave it to the client and wrote it to the credential file; and
    it returned at the instant after that. *)
Definition persisted_from_poll (s' : FlowState) : Prop :=
  exists earlier attempt p tokenResponse,
    poll_requests (effects s') = earlier ++ [(attempt, p)]
    /\ pollDeviceToken (polled env attempt) = Resolved tokenResponse
    /\ isDeviceTokenSuccess tokenResponse = true
    /\ credentials s'
       = Credentials (credentialsOfToken tokenResponse (dateNow env (S p)))
    /\ files (disk s') !! getDeltaCachedCredentialPath homedir
       = Some {| mtimeMs := dateNow env (S p);
                 data := JsonCredentials
                           (credentialsOfToken tokenResponse (dateNow env (S p))) |}
    /\ instant s' = S (S p).
End FlowVocabulary.

Section ManagerVocabulary.
Import SharedTokenManager.
Variable homedir : string.

(** The disk as the lock holder sees it. *)
Definition locked (d : Disk) (now : Z) : Disk :=
  {| files := <[lockPath homedir := {| mtimeMs := now; data := NotJson "" |}]> (files d);
     read_only := read_only d |}.

(** The lock is free and can be taken. *)
Definition lock_free (d : Disk) : Prop :=
  files d !! lockPath homedir = None /\ read_only d = false.



End ManagerVocabulary.

(** The status of the progress event that reports a result to the UI; a
    cancelled flow is reported as an error. *)
Definition status_of (r : AuthResult) : string :=
  match r with
  | success => "success"
  | failure Reason.timeout => "timeout"
  | failure Reason.rate_limit => "rate_limit"
  | failure Reason.error => "error"
  | failure Reason.cancelled => "error"
  end.

(** What the polling loop may do to the outside world: no second
    [AuthUri], every wait and every sleep at a reachable interval, and every
    wait ended by a tick, between one tick and one tick past the interval. *)
Definition loop_effect (e : Effect) : Prop :=
  match e with
  | EmitAuthUri _ => False
  | Waited pollInterval elapsedTime =>
      reachable_interval pollInterval
      /\ 100 <= elapsedTime < pollInterval + 100
  | Slept ms => reachable_interval ms
  | _ => True
  end.

(** The four fields of the authorization that the UI keeps. *)
Definition info_of (deviceAuth : DeviceAuthorizationData.t)
    : DeviceAuthorizationInfo.t :=
  {| DeviceAuthorizationInfo.verification_uri :=
       DeviceAuthorizationData.verification_uri deviceAuth;
     DeviceAuthorizationInfo.verification_uri_complete :=
       DeviceAuthorizationData.verification_uri_complete deviceAuth;
     DeviceAuthorizationInfo.user_code :=
       DeviceAuthorizationData.user_code deviceAuth;
     DeviceAuthorizationInfo.expires_in :=
       DeviceAuthorizationData.expires_in deviceAuth |}.


Definition is_429 (e : Error.t) : bool :=
  Js.includes (Error.message e) "429" || bool_decide (Error.status e = Some 429).

(** The state in which the flow gives up when the device authorization
    request fails: nothing has happened but one suspension. *)
Definition gave_up (credentials0 : ClientCredentials) (disk0 : Disk) : FlowState :=
  {| credentials := credentials0; disk := disk0; effects := []; instant := 1 |}.

(** The JSON value that the credential file holds, when the file is there
    and holds JSON. *)
Definition cached_value (homedir : string) (d : Disk) : option ClientCredentials :=
  match files d !! getDeltaCachedCredentialPath homedir with
  | Some keyFile => JSON_parse (data keyFile)
  | None => None
  end.

(** The character [c] occurs in [s]. *)
Fixpoint occurs (c : Ascii.ascii) (s : string) : bool :=
  match s with
  | EmptyString => false
  | String c' rest => Ascii.eqb c c' || occurs c rest
  end.

(** Every character of [s] is one [encodeURIComponent] keeps. *)
Fixpoint all_unreserved (s : string) : bool :=
  match s with
  | EmptyString => true
  | String c rest => uriUnreserved c && all_unreserved rest
  end.

(** The characters [%], [&] and [=]. *)
Definition percent : Ascii.ascii := Ascii.ascii_of_N 37.
Definition ampersand : Ascii.ascii := Ascii.ascii_of_N 38.
Definition equals_sign : Ascii.ascii := Ascii.ascii_of_N 61.

(** The countdown after [k] ticks of its timer, started at [start]: the
    time shown and the number of calls of [onTimeout] so far. *)
Fixpoint countdown (k : nat) (start : Z) : Z * nat :=
  match k with
  | O => (start, O)
  | S k' =>
      let '(prev, calls) := countdown k' start in
      let '(next, called) := countdownTick prev in
      (next, if called then S calls else calls)
  end.

(** The dots after [k] ticks of their timer, from the initial [''] . *)
Fixpoint dots_after (k : nat) : string :=
  match k with
  | O => ""
  | S k' => dotsTick (dots_after k')
  end.

(** A string of [n] dots. *)
Fixpoint dots (n : nat) : string :=
  match n with
  | O => ""
  | S n' => String (Ascii.ascii_of_N 46) (dots n')
  end.


(** * Sample data *)

(** The message V8 gives for a short text that begins with a character no
    JSON value begins with: the character, then the whole text in double
    quotes. *)
Definition double_quote : string := String (Ascii.ascii_of_N 34) "".

Definition v8_syntax_error (token text : string) : string :=
  "Unexpected token '" +:+ token +:+ "', " +:+ double_quote +:+ text
    +:+ double_quote +:+ " is not valid JSON".

Definition sample_credentials (token : string) (expiry_date : Z) : DeltaCredentials.t :=
  {| DeltaCredentials.access_token := Some token;
     DeltaCredentials.refresh_token := Some "r1";
     DeltaCredentials.id_token := None;
     DeltaCredentials.expiry_date := Some expiry_date;
     DeltaCredentials.token_type := Some "Bearer";
     DeltaCredentials.resource_url := None |}.

Definition sample_disk (homedir : string) (c : DeltaCredentials.t) : Disk :=
  {| files := {[ getDeltaCachedCredentialPath homedir :=
                   {| mtimeMs := 1000; data := JsonCredentials c |} ]};
     read_only := false |}.

Definition bad_request : Response.t TokenRefreshResponse :=
  {| Response.status := 400; Response.statusText := "Bad Request";
     Response.body := "{'error':'invalid_grant'}";
     Response.json_of_body :=
       Some (RefreshError {| ErrorData.error := Some "invalid_grant";
                             ErrorData.error_description := None |});
     Response.parse_error := "" |}.

Definition unauthorized : Response.t DeviceTokenResponse.t :=
  {| Response.status := 401; Response.statusText := "Unauthorized";
     Response.body := "{'error':'invalid_client','error_description':'bad device code'}";
     Response.json_of_body :=
       Some {| DeviceTokenResponse.access_token := None;
               DeviceTokenResponse.refresh_token := None;
               DeviceTokenResponse.token_type := None;
               DeviceTokenResponse.expires_in := None;
               DeviceTokenResponse.resource_url := None;
               DeviceTokenResponse.status := None;
               DeviceTokenResponse.slowDown := None;
               DeviceTokenResponse.error := Some "invalid_client";
               DeviceTokenResponse.error_description := Some "bad device code" |};
     Response.parse_error := "" |}.

Definition sample_deviceAuth (expires_in : Z) : DeviceAuthorizationData.t :=
  {| DeviceAuthorizationData.device_code := "dc";
     DeviceAuthorizationData.user_code := "ABCD-EFGH";
     DeviceAuthorizationData.verification_uri := "https://chat.delta.ai/device";
     DeviceAuthorizationData.verification_uri_complete :=
       "https://chat.delta.ai/device?user_code=ABCD-EFGH";
     DeviceAuthorizationData.expires_in := expires_in |}.

Definition error_body (error : string) : DeviceTokenResponse.t :=
  {| DeviceTokenResponse.access_token := None;
     DeviceTokenResponse.refresh_token := None;
     DeviceTokenResponse.token_type := None;
     DeviceTokenResponse.expires_in := None;
     DeviceTokenResponse.resource_url := None;
     DeviceTokenResponse.status := None;
     DeviceTokenResponse.slowDown := None;
     DeviceTokenResponse.error := Some error;
     DeviceTokenResponse.error_description := None |}.

Definition token_body (access_token : string) (expires_in : option Z)
    : DeviceTokenResponse.t :=
  {| DeviceTokenResponse.access_token := Some access_token;
     DeviceTokenResponse.refresh_token := Some "r2";
     DeviceTokenResponse.token_type := Some "Bearer";
     DeviceTokenResponse.expires_in := expires_in;
     DeviceTokenResponse.resource_url := None;
     DeviceTokenResponse.status := None;
     DeviceTokenResponse.slowDown := None;
     DeviceTokenResponse.error := None;
     DeviceTokenResponse.error_description := None |}.

(** HTTP 400 [authorization_pending], HTTP 429 [slow_down], HTTP 200 with a
    token. *)
Definition http_pending : Fetched DeviceTokenResponse.t :=
  Resolved {| Response.status := 400; Response.statusText := "Bad Request";
              Response.body := "{'error':'authorization_pending'}";
              Response.json_of_body := Some (error_body "authorization_pending");
     Response.parse_error := "" |}.

Definition http_slow_down : Fetched DeviceTokenResponse.t :=
  Resolved {| Response.status := 429; Response.statusText := "Too Many Requests";
              Response.body := "{'error':'slow_down'}";
              Response.json_of_body := Some (error_body "slow_down");
     Response.parse_error := "" |}.

Definition http_token (access_token : string) (expires_in : option Z)
    : Fetched DeviceTokenResponse.t :=
  Resolved {| Response.status := 200; Response.statusText := "OK";
              Response.body := "{'access_token':...}";
              Response.json_of_body := Some (token_body access_token expires_in);
     Response.parse_error := "" |}.

Definition sample_env (expires_in : Z)
    (polled : nat -> Fetched DeviceTokenResponse.t) (cancelAt : option nat) : Env :=
  {| deviceAuthorization := Resolved (sample_deviceAuth expires_in);
     browserLaunchSuppressed := true;
     polled := polled;
     cancelAt := cancelAt;
     dateNow := fun instant => 1700000000000 + 100 * Z.of_nat instant |}.

Definition empty_disk : Disk := {| files := ∅; read_only := false |}.

(** The user never approves: every poll is answered [authorization_pending]. *)
Definition never_approved : Env :=
  sample_env 5 (fun _ => http_pending) None.

(** The user cancels 500 ms into the first wait (during the suspension that
    ends at instant 8, the sixth tick). *)
Definition cancelled_in_wait : Env :=
  sample_env 60 (fun _ => http_pending) (Some 7%nat).

Definition at_first_poll : FlowState :=
  {| credentials := DeltaCredentials.empty; disk := empty_disk;
     effects := []; instant := 1 |}.

(** The user cancels while the first poll is in flight, and that poll is
    answered with a token. *)
Definition cancelled_in_poll : Env :=
  sample_env 60 (fun _ => http_token "a2" (Some 3600)) (Some 1%nat).

(** The answers Pending, Pending with [slowDown], Success, then silence. *)
Definition approved_at_third_poll : Env :=
  sample_env 900
    (fun n => match n with
              | O => http_pending
              | 1%nat => http_slow_down
              | _ => http_token "a2" (Some 3600)
              end)
    None.

(** A token answer whose [expires_in] is 0. *)
Definition approved_expiring_now : Env :=
  sample_env 900 (fun _ => http_token "a2" (Some 0)) None.

Definition sample_cache (record : DeltaCredentials.t) : SharedTokenManager.MemoryCache :=
  {| SharedTokenManager.credentials := Some record;
     SharedTokenManager.fileModTime := 1000;
     SharedTokenManager.lastCheck := 0 |}.

Definition refreshed_tokens : TokenRefreshData.t :=
  {| TokenRefreshData.access_token := Some "a2";
     TokenRefreshData.token_type := Some "Bearer";
     TokenRefreshData.expires_in := 3600;
     TokenRefreshData.refresh_token := Some "r2";
     TokenRefreshData.resource_url := None |}.

Definition refreshed_response : Response.t TokenRefreshResponse :=
  {| Response.status := 200; Response.statusText := "OK";
     Response.body := "{'access_token':'a2','expires_in':3600,'refresh_token':'r2'}";
     Response.json_of_body := Some (RefreshData refreshed_tokens);
     Response.parse_error := "" |}.

Definition refreshed : Fetched TokenRefreshResponse := Resolved refreshed_response.

(** A record without a refresh token, expired. *)
Definition no_refresh_token (expiry_date : Z) : DeltaCredentials.t :=
  {| DeltaCredentials.access_token := Some "a1";
     DeltaCredentials.refresh_token := None;
     DeltaCredentials.id_token := None;
     DeltaCredentials.expiry_date := Some expiry_date;
     DeltaCredentials.token_type := Some "Bearer";
     DeltaCredentials.resource_url := None |}.


(** HTTP 200 with an HTML page that mentions 401, as a gateway in front of
    the token endpoint may answer. *)
Definition html_401 : Response.t DeviceTokenResponse.t :=
  {| Response.status := 200; Response.statusText := "OK";
     Response.body := "<html>401</html>"; Response.json_of_body := None;
     Response.parse_error := v8_syntax_error "<" "<html>401</html>" |}.


(** Every poll is answered HTTP 401 with a JSON error body. *)
Definition always_unauthorized : Env :=
  sample_env 5 (fun _ => Resolved unauthorized) None.

(** The device-code endpoint answers HTTP 403. *)
Definition forbidden : Response.t DeviceAuthorizationResponse :=
  {| Response.status := 403; Response.statusText := "Forbidden";
     Response.body := "denied"; Response.json_of_body := None;
     Response.parse_error := v8_syntax_error "d" "denied" |}.

Definition authorization_refused : Env :=
  {| deviceAuthorization := requestDeviceAuthorization (Resolved forbidden);
     browserLaunchSuppressed := true;
     polled := fun _ => http_pending;
     cancelAt := None;
     dateNow := fun instant => 1700000000000 + 100 * Z.of_nat instant |}.

(** A disk whose credential file holds the JSON text [null]. *)
Definition null_disk : Disk :=
  {| files := {[ getDeltaCachedCredentialPath "/home/user" :=
                   {| mtimeMs := 1000; data := JsonNull |} ]};
     read_only := false |}.

(** A shared manager that cannot get the lock, and one that answers. *)
Definition manager_down : SharedCall :=
  fun credentials d => (Rejected (Error.plain "LOCK_TIMEOUT"), credentials, d).

Definition manager_up (record : DeltaCredentials.t) : SharedCall :=
  fun _ d => (Resolved record, Credentials record, d).

(** A CLI configuration with no model chosen. *)
Definition sample_config : Config unit :=
  {| getModel := ""; getProxy := None; getEnableOpenAILogging := false;
     getContentGeneratorTimeout := None; getContentGeneratorMaxRetries := None;
     getContentGeneratorSamplingParams := None;
     getCliVersion := Some "0.0.1" |}.


(** * Properties *)

(** ** JavaScript values *)

Lemma truthy_string_spec (o : option string) :
  Js.truthy_string o = true <-> exists s, o = Some s /\ s <> "".
Proof.
  unfold Js.truthy_string. destruct o as [s|].
  - rewrite negb_true_iff. split.
    + intros H. exists s. split; [reflexivity|]. now apply String.eqb_neq.
    + intros (s' & [= <-] & Hne). now apply String.eqb_neq.
  - split; [discriminate|]. now intros (s & [=] & _).
Qed.

Lemma truthy_number_spec (o : option Z) :
  Js.truthy_number o = true <-> exists n, o = Some n /\ n <> 0.
Proof.
  unfold Js.truthy_number. destruct o as [n|].
  - rewrite negb_true_iff, Z.eqb_neq. split.
    + intros H. now exists n.
    + now intros (n' & [= <-] & Hne).
  - split; [discriminate|]. now intros (n & [=] & _).
Qed.

Lemma ceil_div_spec (a b : Z) :
  0 < b -> b * (Js.ceil_div a b - 1) < a <= b * Js.ceil_div a b.
Proof.
  intros Hb. unfold Js.ceil_div.
  pose proof (Z.div_mod (- a) b ltac:(lia)) as Hdm.
  pose proof (Z.mod_pos_bound (- a) b Hb) as Hmod.
  nia.
Qed.

(** ** The local expiry check *)

(** With a clock that is not before the epoch, [isTokenValid] says that
    [expiry_date] is present and more than the 30 s buffer ahead. *)
Lemma isTokenValid_spec (credentials : DeltaCredentials.t) (now : Z) :
  0 <= now ->
  isTokenValid credentials now = true <->
  exists expiry_date,
    DeltaCredentials.expiry_date credentials = Some expiry_date
    /\ now + 30000 < expiry_date.
Proof.
  intros Hnow. unfold isTokenValid, TOKEN_REFRESH_BUFFER_MS.
  destruct (DeltaCredentials.expiry_date credentials) as [x|]; cbn.
  - destruct (Z.eqb_spec x 0) as [->|Hx]; cbn.
    + split; [discriminate|]. intros (y & [= <-] & Hy). lia.
    + rewrite Z.ltb_lt. split.
      * intros H. exists x. split; [reflexivity|lia].
      * intros (y & [= <-] & Hy). lia.
  - split; [discriminate|]. now intros (y & [=] & _).
Qed.

(** ** [getAccessToken] *)

(** C10, as amended.  [getAccessToken] resolves whenever the shared manager
    does.  When the shared manager throws, it rejects exactly when the
    client's credentials are [null], the [catch] block reading a property of
    them; with a record it resolves, to the cached [access_token] if and only
    if that token is a non-empty string and the record passes the local
    expiry check ([expiry_date] present and more than 30 s ahead), and
    otherwise to a result whose [token] is [undefined]. *)
Theorem getAccessToken_fallback
    (credentials : ClientCredentials) (now : Z) :
  0 <= now ->
  (forall c,
      getAccessToken credentials (Resolved c) now
      = Resolved {| TokenResult.token := DeltaCredentials.access_token c |})
  /\ (forall e,
        (exists t, getAccessToken credentials (Rejected e) now = Resolved t)
        <-> credentials <> NullCredentials)
  /\ (forall e record,
        credentials = Credentials record ->
        (usable_token record /\ passes_expiry_check record now ->
         getAccessToken credentials (Rejected e) now
         = Resolved {| TokenResult.token := DeltaCredentials.access_token record |})
        /\ (~ (usable_token record /\ passes_expiry_check record now) ->
            getAccessToken credentials (Rejected e) now
            = Resolved {| TokenResult.token := None |})).
Proof.
  intros Hnow.
  assert (Hdec : forall record,
             Js.truthy_string (DeltaCredentials.access_token record)
             && isTokenValid record now = true
             <-> usable_token record /\ passes_expiry_check record now).
  { intros record.
    rewrite andb_true_iff, truthy_string_spec, (isTokenValid_spec _ _ Hnow).
    reflexivity. }
  split; [|split].
  - reflexivity.
  - intros e. destruct credentials as [record|]; cbn.
    + split; [discriminate|]. intros _. destruct (_ && _); eauto.
    + split; [intros (t & [=])|congruence].
  - intros e record ->. cbn. split.
    + intros H. apply Hdec in H. now rewrite H.
    + intros H. destruct (_ && _) eqn:E; [|reflexivity].
      exfalso. apply H, Hdec. exact E.
Qed.

Lemma getAccessToken_fallback_witness :
  getAccessToken (sample_credentials "a1" 100000)
    (Rejected (Error.plain "LOCK_TIMEOUT")) 1000
  = Resolved {| TokenResult.token := Some "a1" |}.
Proof.
  refine (proj1 (proj2 (proj2 (getAccessToken_fallback
                                 (sample_credentials "a1" 100000) 1000 _))
                   (Error.plain "LOCK_TIMEOUT") (sample_credentials "a1" 100000)
                   eq_refl) _).
  - lia.
  - split.
    + exists "a1". split; [reflexivity|discriminate].
    + exists 100000. split; [reflexivity|lia].
Defined.

(** C10 as stated fails on a cached record whose [access_token] is the empty
    string: the record passes the expiry check, yet the guard
    [this.credentials.access_token && ...] is falsy and the result carries
    [undefined], not the cached token. *)
Lemma getAccessToken_empty_token :
  passes_expiry_check (sample_credentials "" 100000) 1000
  /\ getAccessToken (sample_credentials "" 100000)
       (Rejected (Error.plain "LOCK_TIMEOUT")) 1000
     = Resolved {| TokenResult.token := None |}
  /\ getAccessToken (sample_credentials "" 100000)
       (Rejected (Error.plain "LOCK_TIMEOUT")) 1000
     <> Resolved {| TokenResult.token :=
                      DeltaCredentials.access_token (sample_credentials "" 100000) |}.
Proof.
  split; [|split].
  - exists 100000. split; [reflexivity|lia].
  - reflexivity.
  - discriminate.
Qed.

(** C10 as stated also fails on a client whose credentials are [null], as
    [loadCachedDeltaCredentials] leaves them when the credential file holds
    [null]: the shared manager throwing, the [catch] block throws in turn
    and the promise rejects. *)
Lemma getAccessToken_null_credentials :
  JSON_parse JsonNull = Some NullCredentials
  /\ getAccessToken NullCredentials (Rejected (Error.plain "LOCK_TIMEOUT")) 1000
     = Rejected null_credentials_error.
Proof. split; reflexivity. Qed.

(** ** The credential file *)

Lemma clearDeltaCredentials_resolves (homedir : string) (d : Disk) :
  fst (clearDeltaCredentials homedir d) = Resolved tt.
Proof.
  unfold clearDeltaCredentials, Fs.unlink.
  destruct (files d !! _); [destruct (read_only d)|]; reflexivity.
Qed.

(** On a disk that lets files be removed, the credential file is gone
    afterwards, whether it existed or not. *)
Lemma clearDeltaCredentials_removes (homedir : string) (d : Disk) :
  read_only d = false ->
  files (snd (clearDeltaCredentials homedir d))
    !! getDeltaCachedCredentialPath homedir = None.
Proof.
  intros Hrw. unfold clearDeltaCredentials, Fs.unlink.
  destruct (files d !! _) eqn:E; rewrite ?Hrw; cbn.
  - apply lookup_delete_eq.
  - exact E.
Qed.

Lemma clearDeltaCredentials_others (homedir : string) (d : Disk) (path : string) :
  path <> getDeltaCachedCredentialPath homedir ->
  files (snd (clearDeltaCredentials homedir d)) !! path = files d !! path.
Proof.
  intros Hne. unfold clearDeltaCredentials, Fs.unlink.
  destruct (files d !! getDeltaCachedCredentialPath homedir);
    [destruct (read_only d)|]; cbn; try reflexivity.
  now apply lookup_delete_ne.
Qed.

Lemma cacheDeltaCredentials_writes (homedir : string)
    (c : DeltaCredentials.t) (d d' : Disk) (now : Z) :
  cacheDeltaCredentials homedir c d now = (Resolved tt, d') ->
  files d' !! getDeltaCachedCredentialPath homedir
  = Some {| mtimeMs := now; data := JsonCredentials c |}.
Proof.
  unfold cacheDeltaCredentials, Fs.mkdir, Fs.writeFile.
  destruct (read_only d) eqn:Hrw; cbn; rewrite ?Hrw; [discriminate|].
  intros H. injection H as <-. cbn. apply lookup_insert_eq.
Qed.

Lemma cacheDeltaCredentials_writable (homedir : string)
    (c : DeltaCredentials.t) (d : Disk) (now : Z) :
  read_only d = false ->
  exists d', cacheDeltaCredentials homedir c d now = (Resolved tt, d')
             /\ read_only d' = false.
Proof.
  intros Hrw. unfold cacheDeltaCredentials, Fs.mkdir, Fs.writeFile.
  rewrite Hrw. cbn. rewrite Hrw. eexists. split; reflexivity.
Qed.

(** ** [refreshAccessToken] *)

Lemma refreshAccessToken_requests (homedir : string)
    (credentials : DeltaCredentials.t) (net : Fetched TokenRefreshResponse)
    (d : Disk) (now : Z) :
  refresh_requests (refreshAccessToken homedir credentials net d now)
  = if Js.truthy_string (DeltaCredentials.refresh_token credentials)
    then 1%nat else 0%nat.
Proof.
  unfold refreshAccessToken.
  destruct (Js.truthy_string _); cbn; [|reflexivity].
  destruct net as [response|e]; [|reflexivity].
  destruct (Response.ok response); cbn.
  - destruct (Response.json_of_body response) as [[?|?]|]; reflexivity.
  - destruct (Response.status response =? 400); [|reflexivity].
    destruct (clearDeltaCredentials homedir d). reflexivity.
Qed.

Lemma refreshAccessToken_success (homedir : string)
    (record : DeltaCredentials.t) (response : Response.t TokenRefreshResponse)
    (tokenData : TokenRefreshData.t) (d : Disk) (now : Z) :
  Js.truthy_string (DeltaCredentials.refresh_token record) = true ->
  Response.ok response = true ->
  Response.json_of_body response = Some (RefreshData tokenData) ->
  refreshAccessToken homedir record (Resolved response) d now
  = {| refresh_outcome := Resolved (RefreshData tokenData);
       refresh_credentials := refreshed_record record tokenData now;
       refresh_disk := d;
       refresh_requests := 1 |}.
Proof.
  intros Htok Hok Hjson. unfold refreshAccessToken, Response.json.
  rewrite Htok, Hok, Hjson. reflexivity.
Qed.

(** C4.  The token endpoint answered the refresh request (so the client had
    a refresh token to send) with a status outside 200..299.  On status 400
    the method runs [clearDeltaCredentials] and then rejects: on a disk that
    lets files be removed the cached credential file is gone when the error
    surfaces.  On any other such status the disk is left as it was and the
    method rejects.  The client's in-memory credentials are untouched in
    both cases. *)
Theorem refreshAccessToken_http_failure
    (homedir : string) (credentials : DeltaCredentials.t)
    (response : Response.t TokenRefreshResponse) (d : Disk) (now : Z) :
  Js.truthy_string (DeltaCredentials.refresh_token credentials) = true ->
  Response.ok response = false ->
  let run := refreshAccessToken homedir credentials (Resolved response) d now in
  (exists e, refresh_outcome run = Rejected e)
  /\ refresh_credentials run = credentials
  /\ (Response.status response = 400 ->
      refresh_disk run = snd (clearDeltaCredentials homedir d)
      /\ (read_only d = false ->
          files (refresh_disk run) !! getDeltaCachedCredentialPath homedir = None))
  /\ (Response.status response <> 400 -> refresh_disk run = d).
Proof.
  intros Htok Hok run. subst run. unfold refreshAccessToken.
  rewrite Htok, Hok. cbn.
  destruct (Z.eqb_spec (Response.status response) 400) as [H400|H400].
  - pose proof (clearDeltaCredentials_removes homedir d) as Hgone.
    destruct (clearDeltaCredentials homedir d) as [o d1]. cbn in *.
    repeat split; eauto. contradiction.
  - cbn. repeat split; eauto; contradiction.
Qed.

Lemma refreshAccessToken_http_failure_witness :
  files (refresh_disk
           (refreshAccessToken "/home/user" (sample_credentials "a1" 0)
              (Resolved bad_request)
              (sample_disk "/home/user" (sample_credentials "a1" 0)) 5000))
    !! getDeltaCachedCredentialPath "/home/user" = None.
Proof.
  pose proof (refreshAccessToken_http_failure "/home/user"
                (sample_credentials "a1" 0) bad_request
                (sample_disk "/home/user" (sample_credentials "a1" 0)) 5000
                eq_refl eq_refl) as H.
  cbv zeta in H.
  destruct H as (_ & _ & H400 & _).
  destruct (H400 eq_refl) as [_ Hgone].
  exact (Hgone eq_refl).
Defined.

(** ** [pollDeviceToken] *)

Section PollDeviceToken.
Variable response : Response.t DeviceTokenResponse.t.
Hypothesis not_ok : Response.ok response = false.

Lemma pollDeviceToken_authorization_pending :
  is_authorization_pending response = true ->
  pollDeviceToken (Resolved response) = Resolved DeviceTokenResponse.pending.
Proof using not_ok.
  unfold is_authorization_pending, pollDeviceToken, poll_try, Response.json.
  rewrite not_ok. cbn.
  destruct (Response.json_of_body response) as [errorData|];
    rewrite ?andb_false_r; [|discriminate].
  now intros ->.
Qed.

Lemma pollDeviceToken_slow_down :
  is_slow_down response = true ->
  pollDeviceToken (Resolved response) = Resolved DeviceTokenResponse.pending_slowDown.
Proof using not_ok.
  unfold is_slow_down, pollDeviceToken, poll_try, Response.json.
  rewrite not_ok. cbn.
  destruct (Response.json_of_body response) as [errorData|];
    rewrite ?andb_false_r; [|discriminate].
  intros H. rewrite H.
  apply andb_true_iff in H as [Hs _]. apply Z.eqb_eq in Hs.
  rewrite Hs. reflexivity.
Qed.

(** For a JSON answer that is neither, the [try] block builds the error that
    carries the HTTP status... *)
Lemma poll_try_attaches_status (errorData : DeviceTokenResponse.t) :
  Response.json_of_body response = Some errorData ->
  is_authorization_pending response = false ->
  is_slow_down response = false ->
  exists e, poll_try response = (Rejected e, true)
            /\ Error.status e = Some (Response.status response).
Proof using Type.
  unfold is_authorization_pending, is_slow_down, poll_try, Response.json.
  intros -> -> ->. cbn. eexists. split; reflexivity.
Qed.

(** ... but the [throw] is inside the [try], so the [catch] block runs and
    reads the body again: the method rejects with the [TypeError] of the
    second read, which carries no status.  The same happens when the body is
    not JSON. *)
Lemma pollDeviceToken_other_failure :
  is_authorization_pending response = false ->
  is_slow_down response = false ->
  pollDeviceToken (Resolved response) = Rejected Response.body_unusable.
Proof using not_ok.
  unfold is_authorization_pending, is_slow_down, pollDeviceToken, poll_try,
    poll_catch, Response.json.
  rewrite not_ok. cbn.
  destruct (Response.json_of_body response) as [errorData|]; cbn.
  - now intros -> ->.
  - reflexivity.
Qed.
End PollDeviceToken.

(** C5, at an HTTP 401 answer with a JSON error body.  The claim has the
    method reject with an error that carries the status 401; the method
    rejects with the body-already-read [TypeError], whose [status] is
    [undefined]. *)
Theorem pollDeviceToken_unauthorized_loses_status :
  Response.ok unauthorized = false
  /\ pollDeviceToken (Resolved unauthorized) = Rejected Response.body_unusable
  /\ Error.status Response.body_unusable = None
  /\ Error.status Response.body_unusable <> Some (Response.status unauthorized).
Proof.
  repeat split; try reflexivity. discriminate.
Qed.

(** ** The device flow: effects *)

Lemma poll_instants_app (l1 l2 : list Effect) :
  poll_instants (l1 ++ l2) = poll_instants l1 ++ poll_instants l2.
Proof.
  induction l1 as [|[] l1 IH]; cbn; rewrite ?IH; reflexivity.
Qed.

Lemma poll_requests_app (l1 l2 : list Effect) :
  poll_requests (l1 ++ l2) = poll_requests l1 ++ poll_requests l2.
Proof.
  induction l1 as [|[] l1 IH]; cbn; congruence.
Qed.

Lemma waits_app (l1 l2 : list Effect) :
  waits (l1 ++ l2) = waits l1 ++ waits l2.
Proof.
  induction l1 as [|[] l1 IH]; cbn; rewrite ?IH; reflexivity.
Qed.

(** ** The cancellation flag and the tick loop *)

Section FlowFacts.
Variable homedir : string.
Variable env : Env.

(** Once set, the flag stays set. *)
Lemma isCancelled_mono (i j : nat) :
  (i <= j)%nat -> isCancelled env i = true -> isCancelled env j = true.
Proof.
  unfold isCancelled. destruct (cancelAt env) as [k|]; [|discriminate].
  rewrite !Nat.ltb_lt. lia.
Qed.

Lemma isCancelled_never (i : nat) :
  cancelAt env = None -> isCancelled env i = false.
Proof. unfold isCancelled. now intros ->. Qed.

Lemma nextPollInterval_exact (pollInterval : Z) (slowDown : bool) :
  reachable_interval pollInterval ->
  reachable_interval (nextPollInterval pollInterval slowDown)
  /\ (slowDown = true ->
      2 * nextPollInterval pollInterval slowDown
      = Z.min (3 * pollInterval) 20000).
Proof.
  unfold reachable_interval, nextPollInterval. cbn.
  intros [<-|[<-|[<-|[<-|[<-|[]]]]]]; destruct slowDown; cbn;
    (split; [tauto | intros; try reflexivity; discriminate]).
Qed.

(** The tick loop: the wait ends at the first tick at which the flag is set
    or the counted time has reached the interval, and [wait_fuel] ticks are
    always enough to get there. *)
Lemma waitTicks_spec (fuel : nat) (elapsedTime pollInterval : Z) (i : nat) :
  let '(i', elapsedTime') := waitTicks env fuel elapsedTime pollInterval i in
  elapsedTime' = elapsedTime + 100 * Z.of_nat (i' - i)
  /\ (i <= i' <= i + fuel)%nat
  /\ ((0 < fuel)%nat -> (i < i')%nat)
  /\ (forall j, (i < j < i')%nat ->
        isCancelled env j = false
        /\ elapsedTime + 100 * Z.of_nat (j - i) < pollInterval)
  /\ ((0 < fuel)%nat -> pollInterval <= elapsedTime + 100 * Z.of_nat fuel ->
      isCancelled env i' = true \/ pollInterval <= elapsedTime').
Proof.
  revert elapsedTime i.
  induction fuel as [|fuel IH]; intros elapsedTime i; cbn.
  - repeat split; try lia.
  - destruct (isCancelled env (S i)) eqn:Hc.
    { repeat split; try lia. auto. }
    destruct (Z.geb_spec (elapsedTime + 100) pollInterval) as [Hge|Hlt].
    { repeat split; lia. }
    specialize (IH (elapsedTime + 100) (S i)).
    destruct (waitTicks env fuel (elapsedTime + 100) pollInterval (S i))
      as [i' e'].
    destruct IH as (He & Hi & Hpos & Hbetween & Hexit).
    split; [lia|]. split; [lia|]. split; [lia|]. split.
    + intros j Hj. destruct (Nat.eq_dec j (S i)) as [->|Hne].
      * split; [exact Hc|]. replace (Z.of_nat (S i - i)) with 1 by lia. lia.
      * destruct (Hbetween j ltac:(lia)) as [Hcj Hej].
        split; [exact Hcj|].
        replace (Z.of_nat (j - i)) with (1 + Z.of_nat (j - S i)) by lia. lia.
    + intros _ Hfuel. destruct fuel as [|fuel'].
      * exfalso. lia.
      * apply Hexit; lia.
Qed.

Lemma wait_fuel_enough (pollInterval : Z) :
  pollInterval <= 0 + 100 * Z.of_nat (wait_fuel pollInterval).
Proof.
  unfold wait_fuel.
  destruct (Z.le_gt_cases pollInterval 0) as [Hneg|Hpos]; [lia|].
  pose proof (Z.div_mod pollInterval 100 ltac:(lia)) as Hdm.
  pose proof (Z.mod_pos_bound pollInterval 100 ltac:(lia)) as Hmod.
  assert (0 <= pollInterval / 100) by (apply Z.div_pos; lia).
  lia.
Qed.

(** The wait as the loop runs it: it exits through one of the two exits of
    the callback, never through the fuel. *)
Lemma waitTicks_exit (pollInterval : Z) (i : nat) :
  let '(i', elapsedTime) :=
    waitTicks env (wait_fuel pollInterval) 0 pollInterval i in
  (i < i')%nat
  /\ (isCancelled env i' = true \/ pollInterval <= elapsedTime).
Proof.
  pose proof (waitTicks_spec (wait_fuel pollInterval) 0 pollInterval i) as H.
  destruct (waitTicks env (wait_fuel pollInterval) 0 pollInterval i) as [i' e'].
  destruct H as (_ & _ & Hpos & _ & Hexit).
  assert (Hfuel : (0 < wait_fuel pollInterval)%nat) by (unfold wait_fuel; lia).
  split; [auto|]. apply Hexit; [exact Hfuel|apply wait_fuel_enough].
Qed.

(** A flag raised while the poll is in flight or during the wait ends the
    wait at the next tick. *)
Lemma waitTicks_cancel (pollInterval : Z) (i k : nat) :
  cancelAt env = Some k ->
  (k < i + ticks_of pollInterval)%nat ->
  let '(i', _) := waitTicks env (wait_fuel pollInterval) 0 pollInterval i in
  isCancelled env i' = true /\ i' = S (Nat.max i k).
Proof.
  intros Hk Hduring.
  pose proof (waitTicks_spec (wait_fuel pollInterval) 0 pollInterval i) as H.
  pose proof (waitTicks_exit pollInterval i) as Hexit.
  destruct (waitTicks env (wait_fuel pollInterval) 0 pollInterval i) as [i' e'].
  destruct H as (He & Hi & _ & Hbetween & _).
  destruct Hexit as [Hlt Hexit].
  assert (Hflag : isCancelled env i' = true).
  { destruct Hexit as [Hc|Hdone]; [exact Hc|].
    unfold isCancelled. rewrite Hk. apply Nat.ltb_lt.
    unfold ticks_of in Hduring.
    pose proof (ceil_div_spec pollInterval 100 ltac:(lia)) as Hceil.
    lia. }
  split; [exact Hflag|].
  assert (Hki' : (k < i')%nat).
  { unfold isCancelled in Hflag. rewrite Hk in Hflag. now apply Nat.ltb_lt. }
  destruct (Nat.eq_dec i' (S (Nat.max i k))) as [|Hne]; [assumption|exfalso].
  destruct (Hbetween (S (Nat.max i k)) ltac:(lia)) as [Hc _].
  unfold isCancelled in Hc. rewrite Hk in Hc. apply Nat.ltb_ge in Hc. lia.
Qed.
End FlowFacts.

(** ** One iteration of the polling loop *)

#[local] Arguments waitTicks : simpl never.
#[local] Arguments wait_fuel : simpl never.

Section IterationFacts.
Variable homedir : string.
Variable env : Env.

Lemma handleError_cases (e : Error.t) (pollInterval : Z) (s : FlowState) :
  (terminal_error e = true
   /\ exists r status message,
        (r = Reason.error \/ r = Reason.rate_limit)
        /\ handleError env e pollInterval s
           = Return (failure r) (emit (EmitAuthProgress status message) s))
  \/ (terminal_error e = false
      /\ isCancelled env (instant s) = true
      /\ exists message,
           handleError env e pollInterval s
           = Return (failure Reason.cancelled)
               (emit (EmitAuthProgress "error" message) s))
  \/ (terminal_error e = false
      /\ isCancelled env (instant s) = false
      /\ exists message,
           handleError env e pollInterval s
           = Continue pollInterval
               (await (emit (Slept pollInterval)
                         (emit (EmitAuthProgress "error" message) s)))).
Proof.
  unfold handleError, terminal_error.
  destruct (Js.includes (Error.message e) "401"
            || bool_decide (Error.status e = Some 401)) eqn:H401; cbn.
  { left. split; [reflexivity|]. eauto 8. }
  destruct (Js.includes (Error.message e) "429") eqn:Hm; cbn.
  { left. split; [reflexivity|]. eauto 8. }
  destruct (bool_decide (Error.status e = Some 429)) eqn:Hs; cbn.
  { left. split; [reflexivity|]. eauto 8. }
  right. destruct (isCancelled env (instant s)) eqn:Hc.
  - left. eauto.
  - right. eauto.
Qed.

(** What one iteration adds to the poll requests, whatever the outside
    world does: at most one request, issued only while the flag is unset;
    an iteration that goes on to the next attempt has issued exactly one;
    and no iteration ends the flow in [timeout]. *)
Lemma iteration_polls (attempt : nat) (maxAttempts pollInterval : Z)
    (s : FlowState) :
  match iteration homedir env attempt maxAttempts pollInterval s with
  | Continue _ s' =>
      poll_instants (effects s') = poll_instants (effects s) ++ [instant s]
      /\ isCancelled env (instant s) = false
      /\ (instant s < instant s')%nat
  | Return r s' =>
      r <> failure Reason.timeout
      /\ (instant s <= instant s')%nat
      /\ (poll_instants (effects s') = poll_instants (effects s)
          \/ (poll_instants (effects s') = poll_instants (effects s) ++ [instant s]
              /\ isCancelled env (instant s) = false))
  end.
Proof.
  unfold iteration.
  destruct (isCancelled env (instant s)) eqn:Hc.
  { cbn. rewrite poll_instants_app, app_nil_r. repeat split; auto; discriminate. }
  assert (Herr : forall e P s1,
             poll_instants (effects s1)
             = poll_instants (effects s) ++ [instant s] ->
             (instant s < instant s1)%nat ->
             match handleError env e P s1 with
             | Continue _ s' =>
                 poll_instants (effects s')
                 = poll_instants (effects s) ++ [instant s]
                 /\ false = false /\ (instant s < instant s')%nat
             | Return r s' =>
                 r <> failure Reason.timeout
                 /\ (instant s <= instant s')%nat
                 /\ (poll_instants (effects s') = poll_instants (effects s)
                     \/ (poll_instants (effects s')
                         = poll_instants (effects s) ++ [instant s]
                         /\ false = false))
             end).
  { intros e P s1 Hp Hi.
    destruct (handleError_cases e P s1)
      as [(_ & r & st & msg & Hr & ->)
         |[(_ & _ & msg & ->)|(_ & _ & msg & ->)]]; cbn;
      rewrite ?poll_instants_app, ?app_nil_r, Hp; cbn; rewrite ?app_nil_r.
    - split; [destruct Hr as [-> | ->]; discriminate|]. split; [lia|auto].
    - split; [discriminate|]. split; [lia|auto].
    - repeat split; auto. }
  destruct (pollDeviceToken (polled env attempt)) as [tokenResponse|e].
  2:{ apply Herr; cbn; [now rewrite poll_instants_app|lia]. }
  destruct (isDeviceTokenSuccess tokenResponse).
  { destruct (cacheDeltaCredentials _ _ _ _) as [[[]|e] d].
    - cbn. rewrite !poll_instants_app. cbn. rewrite !app_nil_r.
      split; [discriminate|]. split; [lia|auto].
    - apply Herr; cbn; [now rewrite poll_instants_app|lia]. }
  destruct (isDeviceTokenPending tokenResponse).
  { cbn.
    pose proof (waitTicks_exit env
                  (nextPollInterval pollInterval
                     (Js.truthy_bool (DeviceTokenResponse.slowDown tokenResponse)))
                  (S (instant s))) as Hw.
    destruct (waitTicks _ _ _ _ _) as [i' e']. destruct Hw as [Hlt _]. cbn.
    destruct (isCancelled env i'); cbn;
      rewrite !poll_instants_app; cbn; rewrite !app_nil_r.
    - split; [discriminate|]. split; [lia|auto].
    - repeat split; auto. lia. }
  destruct (isErrorResponse tokenResponse).
  { apply Herr; cbn; [now rewrite poll_instants_app|lia]. }
  cbn. rewrite poll_instants_app. repeat split; auto.
Qed.
End IterationFacts.

(** ** The polling loop *)

Section LoopFacts.
Variable homedir : string.
Variable env : Env.

(** The loop issues at most [remaining] poll requests, each while the flag
    is unset, and ends in [timeout] only after issuing all of them. *)
Lemma pollLoop_polls (remaining : nat) :
  forall (attempt : nat) (maxAttempts pollInterval : Z) (s : FlowState)
         (r : AuthResult) (s' : FlowState),
    pollLoop homedir env remaining attempt maxAttempts pollInterval s = (r, s') ->
    exists extra,
      poll_instants (effects s') = poll_instants (effects s) ++ extra
      /\ (length extra <= remaining)%nat
      /\ (r = failure Reason.timeout -> length extra = remaining)
      /\ Forall (fun i => isCancelled env i = false) extra.
Proof.
  induction remaining as [|remaining IH];
    intros attempt maxAttempts pollInterval s r s'; cbn.
  - intros [= <- <-]. exists []. cbn.
    rewrite poll_instants_app. cbn. repeat split; auto.
  - pose proof (iteration_polls homedir env attempt maxAttempts pollInterval s)
      as Hit.
    destruct (iteration homedir env attempt maxAttempts pollInterval s)
      as [pollInterval' s1|r1 s1].
    + destruct Hit as (Hp & Hc & _). intros Hloop.
      destruct (IH _ _ _ _ _ _ Hloop) as (extra & Hp' & Hlen & Hto & Hall).
      exists (instant s :: extra). cbn.
      rewrite Hp', Hp, <- app_assoc. cbn.
      split; [reflexivity|]. split; [lia|]. split.
      * intros Hr. rewrite (Hto Hr). reflexivity.
      * constructor; assumption.
    + destruct Hit as (Hr & _ & Hp). intros [= <- <-].
      destruct Hp as [Hp|[Hp Hc]].
      * exists []. rewrite app_nil_r. cbn.
        split; [assumption|]. split; [lia|]. split; [intros; contradiction|].
        constructor.
      * exists [instant s]. cbn.
        split; [assumption|]. split; [lia|]. split; [intros; contradiction|].
        repeat constructor. assumption.
Qed.

Lemma iteration_keeps_polling (attempt : nat) (maxAttempts pollInterval : Z)
    (s : FlowState) :
  cancelAt env = None ->
  keeps_polling (pollDeviceToken (polled env attempt)) = true ->
  exists pollInterval' s',
    iteration homedir env attempt maxAttempts pollInterval s
    = Continue pollInterval' s'.
Proof.
  intros Hnever Hkeep. unfold iteration.
  rewrite (isCancelled_never env _ Hnever).
  assert (Herr : forall e P s1,
             terminal_error e = false ->
             exists P' s', handleError env e P s1 = Continue P' s').
  { intros e P s1 Hterm.
    destruct (handleError_cases env e P s1)
      as [(Ht & _)|[(_ & Hc & _)|(_ & _ & msg & ->)]].
    - congruence.
    - rewrite (isCancelled_never env _ Hnever) in Hc. discriminate.
    - eauto. }
  unfold keeps_polling in Hkeep.
  destruct (pollDeviceToken (polled env attempt)) as [tokenResponse|e].
  2:{ apply Herr. now apply negb_true_iff. }
  destruct (isDeviceTokenSuccess tokenResponse); [discriminate|].
  destruct (isDeviceTokenPending tokenResponse).
  { cbn. destruct (waitTicks _ _ _ _ _) as [i' e']. cbn.
    rewrite (isCancelled_never env _ Hnever). eauto. }
  destruct (isErrorResponse tokenResponse).
  { apply Herr. now apply negb_true_iff. }
  eauto.
Qed.

Lemma pollLoop_exhausted (remaining : nat) :
  forall (attempt : nat) (maxAttempts pollInterval : Z) (s : FlowState),
    cancelAt env = None ->
    (forall k, (attempt <= k < attempt + remaining)%nat ->
               keeps_polling (pollDeviceToken (polled env k)) = true) ->
    fst (pollLoop homedir env remaining attempt maxAttempts pollInterval s)
    = failure Reason.timeout.
Proof.
  induction remaining as [|remaining IH];
    intros attempt maxAttempts pollInterval s Hnever Hkeep; cbn.
  - reflexivity.
  - destruct (iteration_keeps_polling attempt maxAttempts pollInterval s Hnever)
      as (P' & s' & ->).
    + apply Hkeep. lia.
    + apply IH; [exact Hnever|]. intros k Hk. apply Hkeep. lia.
Qed.
End LoopFacts.


(** The user never approves within the 5 s the device code lasts: the flow
    polls [ceil(5 / 2) = 3] times and ends in [timeout]. *)


(** A 2xx answer that is not JSON does not always keep the flow polling:
    the message of the [SyntaxError] quotes the text, and a page that
    mentions 401 ends the flow at that poll. *)
Example page_mentioning_401 :
  pollDeviceToken (Resolved html_401)
  = Rejected (Error.plain (v8_syntax_error "<" "<html>401</html>"))
  /\ keeps_polling (pollDeviceToken (Resolved html_401)) = false.
Proof. split; reflexivity. Qed.

(** ** Cancellation *)

(** C8, as amended.  The flag is checked before each poll request, on every
    100 ms tick of the wait that follows a pending answer, and once more
    when that wait is over.  (1) Every poll request is issued while the flag
    is unset: once it is set, no further request is issued.  (2) An
    iteration that starts with the flag set ends the flow in [cancelled]
    without a request.  (3) When the flag is raised while a poll that is
    answered "pending" is in flight, or during the wait that follows it, the
    iteration ends the flow in [cancelled] at the first tick after the flag
    was raised. *)
Theorem deviceFlow_cancellation (homedir : string) (env : Env) :
  (forall credentials0 disk0 i,
      In i (poll_instants
              (effects (snd (authWithDeltaDeviceFlow homedir env credentials0 disk0)))) ->
      isCancelled env i = false)
  /\ (forall attempt maxAttempts pollInterval s,
        isCancelled env (instant s) = true ->
        iteration homedir env attempt maxAttempts pollInterval s
        = Return (failure Reason.cancelled)
            (emit (EmitAuthProgress "error" cancelled_message) s))
  /\ (forall attempt maxAttempts pollInterval s tokenResponse k,
        pollDeviceToken (polled env attempt) = Resolved tokenResponse ->
        isDeviceTokenSuccess tokenResponse = false ->
        isDeviceTokenPending tokenResponse = true ->
        cancelAt env = Some k ->
        (instant s <= k)%nat ->
        (k < S (instant s)
             + ticks_of (nextPollInterval pollInterval
                           (Js.truthy_bool (DeviceTokenResponse.slowDown tokenResponse))))%nat ->
        exists s',
          iteration homedir env attempt maxAttempts pollInterval s
          = Return (failure Reason.cancelled) s'
          /\ instant s' = S (Nat.max (S (instant s)) k)
          /\ poll_instants (effects s') = poll_instants (effects s) ++ [instant s]).
Proof.
  split; [|split].
  - intros credentials0 disk0 i. unfold authWithDeltaDeviceFlow.
    destruct (deviceAuthorization env) as [deviceAuth|e]; [|intros []].
    set (s0 := emit _ (if browserLaunchSuppressed env then _ else _)).
    assert (Hs0 : poll_instants (effects s0) = []).
    { subst s0. destruct (browserLaunchSuppressed env); reflexivity. }
    destruct (pollLoop _ _ _ _ _ _ s0) as [r s'] eqn:Hloop.
    destruct (pollLoop_polls homedir env _ _ _ _ _ _ _ Hloop)
      as (extra & Hp & _ & _ & Hall).
    cbn [snd]. rewrite Hp, Hs0. cbn. intros Hin.
    rewrite Forall_forall in Hall. apply Hall, list_elem_of_In, Hin.
  - intros attempt maxAttempts pollInterval s Hc.
    unfold iteration. rewrite Hc. reflexivity.
  - intros attempt maxAttempts pollInterval s tokenResponse k
           Hpoll Hsucc Hpend Hk Hlow Hhigh.
    unfold iteration.
    assert (Hc : isCancelled env (instant s) = false).
    { unfold isCancelled. rewrite Hk. apply Nat.ltb_ge. exact Hlow. }
    rewrite Hc, Hpoll, Hsucc, Hpend. cbn.
    pose proof (waitTicks_cancel env _ (S (instant s)) k Hk Hhigh) as Hw.
    destruct (waitTicks _ _ _ _ _) as [i' e']. destruct Hw as [Hflag ->]. cbn.
    rewrite Hflag. eexists. split; [reflexivity|]. cbn.
    split; [reflexivity|].
    rewrite !poll_instants_app. cbn. rewrite !app_nil_r. reflexivity.
Qed.

Lemma deviceFlow_cancellation_witness :
  exists s',
    iteration "/home/user" cancelled_in_wait 0 30 2000 at_first_poll
    = Return (failure Reason.cancelled) s'
    /\ instant s' = 8%nat
    /\ poll_instants (effects s') = [1%nat].
Proof.
  destruct (deviceFlow_cancellation "/home/user" cancelled_in_wait)
    as (_ & _ & H).
  apply (H 0%nat 30 2000 at_first_poll DeviceTokenResponse.pending 7%nat);
    try reflexivity.
  - cbn. lia.
  - vm_compute. lia.
Defined.

Example cancelled_in_wait_run :
  let run := authWithDeltaDeviceFlow "/home/user" cancelled_in_wait
               DeltaCredentials.empty empty_disk in
  fst run = failure Reason.cancelled
  /\ instant (snd run) = 8%nat
  /\ waits (effects (snd run)) = [(2000, 600)].
Proof. vm_compute. repeat split. Qed.

(** C8 as stated fails: the flag is set when the poll resumes (instant 2),
    no check stands between the answer and its handling, and the flow ends
    in [success]. *)
Lemma deviceFlow_cancel_during_successful_poll :
  let run := authWithDeltaDeviceFlow "/home/user" cancelled_in_poll
               DeltaCredentials.empty empty_disk in
  poll_instants (effects (snd run)) = [1%nat]
  /\ isCancelled cancelled_in_poll 2 = true
  /\ fst run = success
  /\ fst run <> failure Reason.cancelled.
Proof. vm_compute. repeat split. discriminate. Qed.

(** ** Backoff *)

Section Backoff.
Variable homedir : string.
Variable env : Env.
Hypothesis never_cancelled : cancelAt env = None.

(** An uncancelled wait lasts the number of ticks that count up to the
    interval. *)
Lemma waitTicks_uncancelled (pollInterval : Z) (i : nat) :
  0 < pollInterval ->
  waitTicks env (wait_fuel pollInterval) 0 pollInterval i
  = ((i + ticks_of pollInterval)%nat, 100 * Z.of_nat (ticks_of pollInterval)).
Proof using never_cancelled.
  intros Hpos.
  pose proof (waitTicks_spec env (wait_fuel pollInterval) 0 pollInterval i) as H.
  pose proof (waitTicks_exit env pollInterval i) as Hexit.
  destruct (waitTicks env (wait_fuel pollInterval) 0 pollInterval i) as [i' e'].
  destruct H as (He & Hi & _ & Hbetween & _).
  destruct Hexit as [Hlt [Hc|Hdone]].
  { rewrite (isCancelled_never env _ never_cancelled) in Hc. discriminate. }
  pose proof (ceil_div_spec pollInterval 100 ltac:(lia)) as Hceil.
  unfold ticks_of.
  assert (Hn : (i' - i)%nat = Z.to_nat (Js.ceil_div pollInterval 100)).
  { destruct (Nat.lt_trichotomy (i' - i) (Z.to_nat (Js.ceil_div pollInterval 100)))
      as [Hl|[Heq|Hg]]; [exfalso; lia|exact Heq|exfalso].
    destruct (Hbetween (i + Z.to_nat (Js.ceil_div pollInterval 100))%nat
                ltac:(lia)) as [_ Hj].
    replace (i + Z.to_nat (Js.ceil_div pollInterval 100) - i)%nat
      with (Z.to_nat (Js.ceil_div pollInterval 100)) in Hj by lia.
    lia. }
  f_equal; [lia|]. rewrite He, Hn. lia.
Qed.

Lemma reachable_interval_pos (pollInterval : Z) :
  reachable_interval pollInterval -> 0 < pollInterval.
Proof using Type.
  unfold reachable_interval. cbn. intros [<-|[<-|[<-|[<-|[<-|[]]]]]]; lia.
Qed.

(** A pending answer: the interval is adjusted, the flow waits that long
    and goes on to the next attempt. *)
Lemma iteration_pending (attempt : nat) (maxAttempts pollInterval : Z)
    (s : FlowState) (tokenResponse : DeviceTokenResponse.t) :
  reachable_interval pollInterval ->
  pollDeviceToken (polled env attempt) = Resolved tokenResponse ->
  isDeviceTokenSuccess tokenResponse = false ->
  isDeviceTokenPending tokenResponse = true ->
  let pollInterval' :=
    nextPollInterval pollInterval
      (Js.truthy_bool (DeviceTokenResponse.slowDown tokenResponse)) in
  exists s',
    iteration homedir env attempt maxAttempts pollInterval s
    = Continue pollInterval' s'
    /\ waits (effects s')
       = waits (effects s)
         ++ [(pollInterval', 100 * Z.of_nat (ticks_of pollInterval'))]
    /\ credentials s' = credentials s
    /\ disk s' = disk s.
Proof using never_cancelled.
  intros Hreach Hpoll Hsucc Hpend pollInterval'.
  unfold iteration. rewrite (isCancelled_never env _ never_cancelled).
  rewrite Hpoll, Hsucc, Hpend. cbn. fold pollInterval'.
  rewrite waitTicks_uncancelled.
  2:{ apply reachable_interval_pos, nextPollInterval_exact, Hreach. }
  cbn. rewrite (isCancelled_never env _ never_cancelled).
  eexists. split; [reflexivity|]. cbn.
  rewrite !waits_app. cbn. rewrite !app_nil_r. auto.
Qed.

(** An answer with a token, on a disk that can be written: the record is
    built, handed to the client, written to the credential file, and the
    flow ends in [success]. *)
Lemma iteration_token (attempt : nat) (maxAttempts pollInterval : Z)
    (s : FlowState) (tokenResponse : DeviceTokenResponse.t) :
  pollDeviceToken (polled env attempt) = Resolved tokenResponse ->
  isDeviceTokenSuccess tokenResponse = true ->
  read_only (disk s) = false ->
  let now := dateNow env (S (instant s)) in
  exists s',
    iteration homedir env attempt maxAttempts pollInterval s = Return success s'
    /\ waits (effects s') = waits (effects s)
    /\ credentials s' = credentialsOfToken tokenResponse now
    /\ files (disk s') !! getDeltaCachedCredentialPath homedir
       = Some {| mtimeMs := now;
                 data := JsonCredentials (credentialsOfToken tokenResponse now) |}.
Proof using never_cancelled.
  intros Hpoll Hsucc Hrw now.
  unfold iteration. rewrite (isCancelled_never env _ never_cancelled).
  rewrite Hpoll, Hsucc. cbn. fold now.
  destruct (cacheDeltaCredentials_writable homedir
              (credentialsOfToken tokenResponse now) (disk s) now Hrw)
    as (d' & Hwrite & _).
  rewrite Hwrite. eexists. split; [reflexivity|]. cbn.
  rewrite !waits_app. cbn. rewrite !app_nil_r.
  repeat split. now apply cacheDeltaCredentials_writes in Hwrite.
Qed.
End Backoff.

(** C6.  In a flow that is not cancelled: (1) a pending answer with
    [slowDown] multiplies the interval by 1.5, capped at 10000 ms, a pending
    answer without it resets the interval to 2000 ms, and either way the
    flow waits that long and goes on polling; (2) on the answers Pending,
    Pending with [slowDown], Success the flow waits 2000 ms, then 3000 ms,
    and ends in [success] with the record built from the third answer. *)
Theorem deviceFlow_backoff (homedir : string) (env : Env) :
  cancelAt env = None ->
  (forall attempt maxAttempts pollInterval s tokenResponse,
      reachable_interval pollInterval ->
      pollDeviceToken (polled env attempt) = Resolved tokenResponse ->
      isDeviceTokenSuccess tokenResponse = false ->
      isDeviceTokenPending tokenResponse = true ->
      exists pollInterval' s',
        iteration homedir env attempt maxAttempts pollInterval s
        = Continue pollInterval' s'
        /\ waits (effects s')
           = waits (effects s)
             ++ [(pollInterval', 100 * Z.of_nat (ticks_of pollInterval'))]
        /\ reachable_interval pollInterval'
        /\ (Js.truthy_bool (DeviceTokenResponse.slowDown tokenResponse) = true ->
            2 * pollInterval' = Z.min (3 * pollInterval) 20000)
        /\ (Js.truthy_bool (DeviceTokenResponse.slowDown tokenResponse) = false ->
            pollInterval' = 2000))
  /\ (forall credentials0 disk0 deviceAuth r0 r1 r2,
        deviceAuthorization env = Resolved deviceAuth ->
        4 < DeviceAuthorizationData.expires_in deviceAuth ->
        read_only disk0 = false ->
        pollDeviceToken (polled env 0) = Resolved r0 ->
        isDeviceTokenSuccess r0 = false ->
        isDeviceTokenPending r0 = true ->
        Js.truthy_bool (DeviceTokenResponse.slowDown r0) = false ->
        pollDeviceToken (polled env 1) = Resolved r1 ->
        isDeviceTokenSuccess r1 = false ->
        isDeviceTokenPending r1 = true ->
        Js.truthy_bool (DeviceTokenResponse.slowDown r1) = true ->
        pollDeviceToken (polled env 2) = Resolved r2 ->
        isDeviceTokenSuccess r2 = true ->
        exists s' i record,
          authWithDeltaDeviceFlow homedir env credentials0 disk0 = (success, s')
          /\ waits (effects s') = [(2000, 2000); (3000, 3000)]
          /\ credentials s' = Credentials record
          /\ record = credentialsOfToken r2 (dateNow env i)
          /\ DeltaCredentials.access_token record
             = DeviceTokenResponse.access_token r2).
Proof.
  intros Hnever. split.
  - intros attempt maxAttempts pollInterval s tokenResponse
           Hreach Hpoll Hsucc Hpend.
    destruct (iteration_pending homedir env Hnever attempt maxAttempts
                pollInterval s tokenResponse Hreach Hpoll Hsucc Hpend)
      as (s' & Hit & Hw & _).
    destruct (nextPollInterval_exact pollInterval
                (Js.truthy_bool (DeviceTokenResponse.slowDown tokenResponse))
                Hreach) as [Hreach' Hslow].
    eexists. exists s'. split; [exact Hit|]. split; [exact Hw|].
    split; [exact Hreach'|]. split; [exact Hslow|].
    intros ->. reflexivity.
  - intros credentials0 disk0 deviceAuth r0 r1 r2 Hauth Hexp Hrw
           Hp0 Hs0 Hpe0 Hsl0 Hp1 Hs1 Hpe1 Hsl1 Hp2 Hs2.
    unfold authWithDeltaDeviceFlow. rewrite Hauth.
    set (maxAttempts := maxAttemptsOf _ 2000).
    set (s0 := emit _ (if browserLaunchSuppressed env then _ else _)).
    assert (Hw0 : waits (effects s0) = []).
    { subst s0. destruct (browserLaunchSuppressed env); reflexivity. }
    assert (Hd0 : disk s0 = disk0).
    { subst s0. destruct (browserLaunchSuppressed env); reflexivity. }
    assert (Hmax : exists n, Z.to_nat maxAttempts = S (S (S n))).
    { subst maxAttempts. unfold maxAttemptsOf. change (2000 / 1000) with 2.
      pose proof (ceil_div_spec (DeviceAuthorizationData.expires_in deviceAuth) 2
                    ltac:(lia)) as Hceil.
      exists (Z.to_nat (Js.ceil_div (DeviceAuthorizationData.expires_in deviceAuth) 2)
              - 3)%nat. lia. }
    destruct Hmax as [n ->]. cbn [pollLoop].
    destruct (iteration_pending homedir env Hnever 0 maxAttempts 2000 s0 r0
                ltac:(cbn; tauto) Hp0 Hs0 Hpe0) as (s1 & -> & Hw1 & _ & Hd1).
    rewrite Hsl0 in *. cbn [nextPollInterval] in *.
    destruct (iteration_pending homedir env Hnever 1 maxAttempts 2000 s1 r1
                ltac:(cbn; tauto) Hp1 Hs1 Hpe1) as (s2 & -> & Hw2 & _ & Hd2).
    rewrite Hsl1 in *.
    destruct (iteration_token homedir env Hnever 2 maxAttempts
                (nextPollInterval 2000 true) s2 r2 Hp2 Hs2
                ltac:(congruence)) as (s3 & -> & Hw3 & Hc3 & _).
    exists s3, (S (instant s2)), (credentialsOfToken r2 (dateNow env (S (instant s2)))).
    split; [reflexivity|]. split; [|split; [|split]].
    + rewrite Hw3, Hw2, Hw1, Hw0. reflexivity.
    + exact Hc3.
    + reflexivity.
    + reflexivity.
Qed.

Lemma deviceFlow_backoff_witness :
  exists s' i record,
    authWithDeltaDeviceFlow "/home/user" approved_at_third_poll
      DeltaCredentials.empty empty_disk = (success, s')
    /\ waits (effects s') = [(2000, 2000); (3000, 3000)]
    /\ credentials s' = Credentials record
    /\ record
       = credentialsOfToken (token_body "a2" (Some 3600))
           (dateNow approved_at_third_poll i)
    /\ DeltaCredentials.access_token record = Some "a2".
Proof.
  destruct (deviceFlow_backoff "/home/user" approved_at_third_poll eq_refl)
    as [_ H].
  apply (H DeltaCredentials.empty empty_disk (sample_deviceAuth 900)
           DeviceTokenResponse.pending DeviceTokenResponse.pending_slowDown
           (token_body "a2" (Some 3600)));
    reflexivity.
Defined.

(** ** The record of a successful flow *)

Lemma credentialsOfToken_expiry (tokenData : DeviceTokenResponse.t) (now : Z) :
  DeltaCredentials.expiry_date (credentialsOfToken tokenData now)
  = match DeviceTokenResponse.expires_in tokenData with
    | Some expires_in =>
        if expires_in =? 0 then None else Some (now + expires_in * 1000)
    | None => None
    end.
Proof.
  unfold credentialsOfToken. cbn.
  destruct (DeviceTokenResponse.expires_in tokenData) as [e|]; cbn;
    [destruct (e =? 0)|]; reflexivity.
Qed.

Section SuccessFacts.
Variable homedir : string.
Variable env : Env.

Lemma handleError_not_success (e : Error.t) (pollInterval : Z)
    (s s' : FlowState) :
  handleError env e pollInterval s <> Return success s'.
Proof.
  destruct (handleError_cases env e pollInterval s)
    as [(_ & r & st & msg & _ & ->)
       |[(_ & _ & msg & ->)|(_ & _ & msg & ->)]]; discriminate.
Qed.

Lemma iteration_success (attempt : nat) (maxAttempts pollInterval : Z)
    (s s' : FlowState) :
  iteration homedir env attempt maxAttempts pollInterval s = Return success s' ->
  persisted_from_poll homedir env s'.
Proof.
  unfold iteration.
  destruct (isCancelled env (instant s)); [discriminate|].
  destruct (pollDeviceToken (polled env attempt)) as [tokenResponse|e] eqn:Hpoll.
  2:{ intros H. now apply handleError_not_success in H. }
  destruct (isDeviceTokenSuccess tokenResponse) eqn:Hsucc.
  { cbn.
    destruct (cacheDeltaCredentials _ _ _ _) as [[[]|e] d] eqn:Hwrite.
    - intros [= <-].
      exists (poll_requests (effects s)), attempt, (instant s), tokenResponse.
      cbn. rewrite !poll_requests_app. cbn. rewrite !app_nil_r.
      repeat split; auto.
      now apply cacheDeltaCredentials_writes in Hwrite.
    - intros H. now apply handleError_not_success in H. }
  destruct (isDeviceTokenPending tokenResponse).
  { cbn. destruct (waitTicks _ _ _ _ _) as [i' e']. cbn.
    destruct (isCancelled env i'); discriminate. }
  destruct (isErrorResponse tokenResponse).
  { intros H. now apply handleError_not_success in H. }
  discriminate.
Qed.

Lemma pollLoop_success (remaining : nat) :
  forall (attempt : nat) (maxAttempts pollInterval : Z) (s s' : FlowState),
    pollLoop homedir env remaining attempt maxAttempts pollInterval s
    = (success, s') ->
    persisted_from_poll homedir env s'.
Proof.
  induction remaining as [|remaining IH];
    intros attempt maxAttempts pollInterval s s'; cbn.
  - discriminate.
  - destruct (iteration homedir env attempt maxAttempts pollInterval s)
      as [pollInterval' s1|r1 s1] eqn:Hit.
    + apply IH.
    + intros [= -> ->]. eapply iteration_success, Hit.
Qed.
End SuccessFacts.

(** C9, as amended.  When the flow ends in [success], the last poll
    request, issued at instant [p], was answered with a token, and the flow
    returned two instants later.  The client holds a record built from that
    answer: its [expiry_date] is the time read when the flow resumed with
    the answer, at instant [p + 1], plus [expires_in * 1000] when
    [expires_in] is present and not zero, and is absent when [expires_in] is
    absent or zero.  The credential file on disk holds that record, written
    at that time. *)
Theorem deviceFlow_success_record
    (homedir : string) (env : Env) (credentials0 : ClientCredentials)
    (disk0 : Disk) (s' : FlowState) :
  authWithDeltaDeviceFlow homedir env credentials0 disk0 = (success, s') ->
  exists earlier attempt p tokenResponse record,
    poll_requests (effects s') = earlier ++ [(attempt, p)]
    /\ instant s' = S (S p)
    /\ pollDeviceToken (polled env attempt) = Resolved tokenResponse
    /\ isDeviceTokenSuccess tokenResponse = true
    /\ credentials s' = Credentials record
    /\ DeltaCredentials.access_token record
       = DeviceTokenResponse.access_token tokenResponse
    /\ (forall expires_in,
          DeviceTokenResponse.expires_in tokenResponse = Some expires_in ->
          expires_in <> 0 ->
          DeltaCredentials.expiry_date record
          = Some (dateNow env (S p) + expires_in * 1000))
    /\ (DeviceTokenResponse.expires_in tokenResponse = None
        \/ DeviceTokenResponse.expires_in tokenResponse = Some 0 ->
        DeltaCredentials.expiry_date record = None)
    /\ files (disk s') !! getDeltaCachedCredentialPath homedir
       = Some {| mtimeMs := dateNow env (S p);
                 data := JsonCredentials record |}.
Proof.
  unfold authWithDeltaDeviceFlow.
  destruct (deviceAuthorization env) as [deviceAuth|e]; [|discriminate].
  intros Hloop. apply pollLoop_success in Hloop.
  destruct Hloop
    as (earlier & attempt & p & tokenResponse & Hreq & Hpoll & Hsucc & Hc
        & Hfile & Hi).
  exists earlier, attempt, p, tokenResponse,
    (credentialsOfToken tokenResponse (dateNow env (S p))).
  split; [exact Hreq|]. split; [exact Hi|].
  split; [exact Hpoll|]. split; [exact Hsucc|].
  split; [exact Hc|]. split; [reflexivity|].
  split; [|split].
  - intros expires_in He Hnz. rewrite credentialsOfToken_expiry, He.
    apply Z.eqb_neq in Hnz. now rewrite Hnz.
  - intros [He|He]; rewrite credentialsOfToken_expiry, He; reflexivity.
  - exact Hfile.
Qed.

(** The third poll, issued at instant 53, is answered with a token that
    lasts 3600 s: the record expires 3600 s after the time of instant 54. *)
Lemma deviceFlow_success_record_witness :
  exists record,
    credentials (snd (authWithDeltaDeviceFlow "/home/user"
                        approved_at_third_poll DeltaCredentials.empty
                        empty_disk))
    = Credentials record
    /\ DeltaCredentials.access_token record = Some "a2"
    /\ DeltaCredentials.expiry_date record
       = Some (dateNow approved_at_third_poll 54 + 3600 * 1000).
Proof.
  destruct (deviceFlow_success_record "/home/user" approved_at_third_poll
              DeltaCredentials.empty empty_disk
              (snd (authWithDeltaDeviceFlow "/home/user" approved_at_third_poll
                      DeltaCredentials.empty empty_disk)))
    as (earlier & attempt & p & tokenResponse & record & Hreq & _ & Hpoll
        & _ & Hc & Htok & Hexp & _).
  { vm_compute. reflexivity. }
  assert (Hlast : (attempt, p) = (2%nat, 53%nat)).
  { change (poll_requests _) with ([(0%nat, 1%nat); (1%nat, 22%nat)] ++ [(2%nat, 53%nat)])
      in Hreq.
    apply app_inj_tail in Hreq as [_ Hreq]. now symmetry. }
  injection Hlast as -> ->.
  injection Hpoll as <-.
  exists record. split; [exact Hc|]. split; [exact Htok|].
  apply Hexp; [reflexivity|lia].
Defined.

(** C9 as stated fails when [expires_in] is present and zero: the test
    [tokenData.expires_in ? ... : undefined] is a truthiness test, and the
    record is built without [expiry_date]; the claim has it equal to the
    current time. *)
Lemma deviceFlow_expires_in_zero :
  let run := authWithDeltaDeviceFlow "/home/user" approved_expiring_now
               DeltaCredentials.empty empty_disk in
  fst run = success
  /\ pollDeviceToken (polled approved_expiring_now 0)
     = Resolved (token_body "a2" (Some 0))
  /\ (exists record,
        credentials (snd run) = Credentials record
        /\ DeltaCredentials.expiry_date record = None
        /\ DeltaCredentials.expiry_date record
           <> Some (dateNow approved_expiring_now 2 + 0 * 1000)).
Proof.
  vm_compute. repeat split. eexists. split; [reflexivity|].
  split; [reflexivity|discriminate].
Qed.

(** ** The shared token manager: one call *)

Lemma append_inj_l (s a b : string) : s +:+ a = s +:+ b -> a = b.
Proof.
  induction s as [|c s IH]; [auto|].
  change (String c s +:+ a) with (String c (s +:+ a)).
  change (String c s +:+ b) with (String c (s +:+ b)).
  intros H. injection H as H. auto.
Qed.

Lemma append_assoc (a b c : string) : (a +:+ b) +:+ c = a +:+ (b +:+ c).
Proof.
  induction a as [|x a IH]; [reflexivity|].
  change ((String x a +:+ b) +:+ c) with (String x ((a +:+ b) +:+ c)).
  change (String x a +:+ (b +:+ c)) with (String x (a +:+ (b +:+ c))).
  f_equal. exact IH.
Qed.

Lemma lockPath_not_credentialPath (homedir : string) :
  SharedTokenManager.lockPath homedir <> getDeltaCachedCredentialPath homedir.
Proof.
  unfold SharedTokenManager.lockPath, credentialDir, getDeltaCachedCredentialPath.
  rewrite !append_assoc. intros H.
  apply append_inj_l in H. discriminate H.
Qed.

Section ManagerFacts.
Import SharedTokenManager.
Variable homedir : string.
Variable lockMaxAttempts : nat.
Variable lockAttemptInterval : Z.
Variable staleThreshold : Z.

#[local] Abbreviation credentialPath := (getDeltaCachedCredentialPath homedir).
#[local] Abbreviation prepare := (prepare homedir lockMaxAttempts lockAttemptInterval staleThreshold).
#[local] Abbreviation prepareRefresh :=
  (prepareRefresh homedir lockMaxAttempts lockAttemptInterval staleThreshold).
#[local] Abbreviation getValidCredentials :=
  (getValidCredentials homedir lockMaxAttempts lockAttemptInterval staleThreshold).

Lemma acquireLock_free (d : Disk) (now : Z) :
  (1 <= lockMaxAttempts)%nat ->
  lock_free homedir d ->
  acquireLock homedir lockAttemptInterval staleThreshold lockMaxAttempts d now
  = Held (locked homedir d now) now.
Proof using Type.
  intros Hn [Hfree Hrw]. destruct lockMaxAttempts as [|n]; [lia|].
  cbn. rewrite Hfree. unfold Fs.writeFile, locked.
  destruct d as [fs ro]. cbn in *. subst ro. reflexivity.
Qed.

Lemma releaseLock_locked (d : Disk) (now : Z) :
  lock_free homedir d -> releaseLock homedir (locked homedir d now) = d.
Proof using Type.
  intros [Hfree Hrw]. unfold releaseLock, Fs.unlink, locked. cbn.
  rewrite lookup_insert_eq, Hrw. cbn.
  rewrite delete_insert_eq, delete_id by exact Hfree.
  destruct d as [fs ro]. cbn in *. now subst ro.
Qed.

(** Reloading is idempotent, and the lock marker does not disturb it. *)
Lemma checkAndReloadIfNeeded_locked (cache : MemoryCache) (d : Disk)
    (now now1 now2 : Z) :
  checkAndReloadIfNeeded homedir
    (checkAndReloadIfNeeded homedir cache d now) (locked homedir d now1) now2
  = checkAndReloadIfNeeded homedir cache d now.
Proof using Type.
  unfold checkAndReloadIfNeeded, locked. cbn.
  rewrite lookup_insert_ne by apply lockPath_not_credentialPath.
  destruct (files d !! credentialPath) as [f|] eqn:Hf; [|reflexivity].
  destruct (Z.ltb_spec (fileModTime cache) (mtimeMs f)) as [Hlt|Hge]; cbn.
  - now rewrite Z.ltb_irrefl.
  - destruct (Z.ltb_spec (fileModTime cache) (mtimeMs f)); [lia|reflexivity].
Qed.

Lemma isFresh_spec (cache : MemoryCache) (now : Z) :
  0 <= now ->
  isFresh cache now = true <->
  exists record expiry_date,
    credentials cache = Some record
    /\ DeltaCredentials.expiry_date record = Some expiry_date
    /\ now + 30000 < expiry_date.
Proof using Type.
  intros Hnow. unfold isFresh.
  destruct (credentials cache) as [record|].
  - rewrite (isTokenValid_spec record now Hnow). split.
    + intros (e & He & Hlt). eauto.
    + intros (r & e & [= <-] & He & Hlt). eauto.
  - split; [discriminate|]. now intros (r & e & [=] & _).
Qed.

(** When a refresh is required and possible, one request is sent. *)
Lemma prepare_needs_network (forceRefresh : bool) (cache : MemoryCache)
    (d : Disk) (now : Z) (record : DeltaCredentials.t) :
  let cache1 := checkAndReloadIfNeeded homedir cache d now in
  credentials cache1 = Some record ->
  negb forceRefresh && isFresh cache1 now = false ->
  Js.truthy_string (DeltaCredentials.refresh_token record) = true ->
  (1 <= lockMaxAttempts)%nat ->
  lock_free homedir d ->
  prepare forceRefresh cache d now = NeedNetwork record cache1 (locked homedir d now).
Proof using Type.
  intros cache1 Hrec Hstale Htok Hn Hfree.
  unfold SharedTokenManager.prepare. fold cache1. rewrite Hstale.
  unfold SharedTokenManager.prepareRefresh. rewrite Hrec, Htok. cbn.
  rewrite (acquireLock_free d now Hn Hfree).
  subst cache1. rewrite checkAndReloadIfNeeded_locked, Hstale. reflexivity.
Qed.

(** C2.  The record is the cached one once the credential file has been
    checked (step 2).  With [forceRefresh] false: if its [expiry_date] is
    more than 30 s ahead, the call returns it, leaves the cache and the disk
    as the check left them and sends no request.  If its [expiry_date] is
    30 s ahead or less, or past, and the record has a refresh token and the
    lock can be taken, the call runs the client's [refreshAccessToken] on the
    record, which sends one request.  When the endpoint answers with a
    token, the call returns the record built from the answer, with the new
    access token and an [expiry_date] counted from the time of the answer,
    the cache and the credential file hold the new record and the lock is
    released; when the refresh is rejected, the call fails and the cache
    keeps the old record. *)
Theorem getValidCredentials_freshness_buffer
    (cache : MemoryCache) (d : Disk) (now : Z)
    (net : Fetched TokenRefreshResponse) (now' : Z)
    (record : DeltaCredentials.t) (expiry_date : Z) :
  0 <= now ->
  let cache1 := checkAndReloadIfNeeded homedir cache d now in
  credentials cache1 = Some record ->
  DeltaCredentials.expiry_date record = Some expiry_date ->
  (now + 30000 < expiry_date ->
   getValidCredentials false cache d now net now' = (Ok record, cache1, d, 0%nat))
  /\ (expiry_date <= now + 30000 ->
      Js.truthy_string (DeltaCredentials.refresh_token record) = true ->
      (1 <= lockMaxAttempts)%nat ->
      lock_free homedir d ->
      let run := refreshAccessToken homedir record net (locked homedir d now) now' in
      snd (getValidCredentials false cache d now net now') = refresh_requests run
      /\ refresh_requests run = 1%nat
      /\ (forall response tokenData,
            net = Resolved response ->
            Response.ok response = true ->
            Response.json_of_body response = Some (RefreshData tokenData) ->
            let fresh := refreshed_record record tokenData now' in
            exists d',
              getValidCredentials false cache d now net now'
              = (Ok fresh,
                 {| credentials := Some fresh; fileModTime := now';
                    lastCheck := now' |},
                 d', 1%nat)
              /\ DeltaCredentials.access_token fresh
                 = TokenRefreshData.access_token tokenData
              /\ DeltaCredentials.expiry_date fresh
                 = Some (now' + TokenRefreshData.expires_in tokenData * 1000)
              /\ files d' !! credentialPath
                 = Some {| mtimeMs := now'; data := JsonCredentials fresh |}
              /\ files d' !! lockPath homedir = None)
      /\ (forall e,
            refresh_outcome run = Rejected e ->
            exists error d',
              getValidCredentials false cache d now net now'
              = (Err error, cache1, d', 1%nat))).
Proof using Type.
  intros Hnow cache1 Hrec Hexp.
  pose proof (isFresh_spec cache1 now Hnow) as Hfresh.
  split.
  - intros Hlt.
    assert (Hf : isFresh cache1 now = true).
    { apply Hfresh. eauto. }
    unfold SharedTokenManager.getValidCredentials, SharedTokenManager.prepare.
    fold cache1. rewrite Hf, Hrec. reflexivity.
  - intros Hle Htok Hn Hfree run.
    assert (Hf : isFresh cache1 now = false).
    { destruct (isFresh cache1 now) eqn:E; [|reflexivity].
      destruct (proj1 Hfresh eq_refl) as (r & e & Hr & He & Hlt).
      rewrite Hrec in Hr. injection Hr as <-.
      rewrite Hexp in He. injection He as <-. lia. }
    assert (Hcall : getValidCredentials false cache d now net now'
                    = (complete homedir record net cache1 (locked homedir d now) now',
                       refresh_requests run)).
    { unfold SharedTokenManager.getValidCredentials.
      rewrite (prepare_needs_network false cache d now record Hrec
                 ltac:(fold cache1; now rewrite Hf) Htok Hn Hfree).
      reflexivity. }
    assert (Hone : refresh_requests run = 1%nat).
    { subst run. now rewrite refreshAccessToken_requests, Htok. }
    split; [now rewrite Hcall|]. split; [exact Hone|]. split.
    + intros response tokenData -> Hok Hjson fresh.
      rewrite Hcall, Hone. unfold complete.
      rewrite (refreshAccessToken_success homedir record response tokenData
                 _ now' Htok Hok Hjson).
      cbn [refresh_outcome refresh_credentials refresh_disk]. fold fresh.
      destruct Hfree as [Hlock Hrw]. destruct d as [fs ro]. cbn in Hlock, Hrw.
      subst ro.
      unfold cacheDeltaCredentials, Fs.mkdir, Fs.writeFile, locked. cbn.
      unfold releaseLock, Fs.unlink. cbn.
      rewrite lookup_insert_ne by (apply not_eq_sym, lockPath_not_credentialPath).
      rewrite lookup_insert_eq. cbn.
      eexists. split; [reflexivity|]. split; [reflexivity|].
      split; [reflexivity|]. cbn. split.
      * rewrite lookup_delete_ne by apply lockPath_not_credentialPath.
        apply lookup_insert_eq.
      * apply lookup_delete_eq.
    + intros e He. rewrite Hcall, Hone. unfold complete. fold run.
      rewrite He. eauto.
Qed.

(** C3.  The record is the cached one once the credential file has been
    checked.  When a refresh is required (the record does not pass the
    expiry check, or [forceRefresh] is set) and the record has no refresh
    token, the call rejects with [NO_REFRESH_TOKEN]; no request is sent and
    the disk is left as it was (the lock is not even tried). *)
Theorem getValidCredentials_no_refresh_token
    (forceRefresh : bool) (cache : MemoryCache) (d : Disk) (now : Z)
    (net : Fetched TokenRefreshResponse) (now' : Z)
    (record : DeltaCredentials.t) :
  let cache1 := checkAndReloadIfNeeded homedir cache d now in
  credentials cache1 = Some record ->
  Js.truthy_string (DeltaCredentials.refresh_token record) = false ->
  forceRefresh = true \/ isTokenValid record now = false ->
  getValidCredentials forceRefresh cache d now net now'
  = (Err NO_REFRESH_TOKEN, cache1, d, 0%nat).
Proof using Type.
  intros cache1 Hrec Htok Hreq.
  assert (Hstale : negb forceRefresh && isFresh cache1 now = false).
  { destruct Hreq as [-> | Hv]; [reflexivity|].
    unfold isFresh. rewrite Hrec, Hv. apply andb_false_r. }
  unfold SharedTokenManager.getValidCredentials, SharedTokenManager.prepare.
  fold cache1. rewrite Hstale.
  unfold SharedTokenManager.prepareRefresh. rewrite Hrec, Htok. reflexivity.
Qed.
End ManagerFacts.

(** At time 4000000 a record that expires at 5000000 is returned as it is
    and no request is sent; a record that expires at 4020000, 20 s ahead, is
    refreshed with one request, and the call returns the new token. *)
Lemma getValidCredentials_freshness_buffer_witness :
  SharedTokenManager.getValidCredentials "/home/user" 3 100 15000 false
    (sample_cache (sample_credentials "a1" 5000000))
    (sample_disk "/home/user" (sample_credentials "a1" 5000000))
    4000000 refreshed 4000500
  = (SharedTokenManager.Ok (sample_credentials "a1" 5000000),
     sample_cache (sample_credentials "a1" 5000000),
     sample_disk "/home/user" (sample_credentials "a1" 5000000), 0%nat)
  /\ exists d',
      SharedTokenManager.getValidCredentials "/home/user" 3 100 15000 false
        (sample_cache (sample_credentials "a1" 4020000))
        (sample_disk "/home/user" (sample_credentials "a1" 4020000))
        4000000 refreshed 4000500
      = (SharedTokenManager.Ok
           (refreshed_record (sample_credentials "a1" 4020000)
              refreshed_tokens 4000500),
         {| SharedTokenManager.credentials :=
              Some (refreshed_record (sample_credentials "a1" 4020000)
                      refreshed_tokens 4000500);
            SharedTokenManager.fileModTime := 4000500;
            SharedTokenManager.lastCheck := 4000500 |},
         d', 1%nat).
Proof.
  split.
  - refine (proj1 (getValidCredentials_freshness_buffer "/home/user" 3 100 15000
                     (sample_cache (sample_credentials "a1" 5000000))
                     (sample_disk "/home/user" (sample_credentials "a1" 5000000))
                     4000000 refreshed 4000500
                     (sample_credentials "a1" 5000000) 5000000 _ _ _) _).
    + lia.
    + vm_compute. reflexivity.
    + reflexivity.
    + lia.
  - pose proof (proj2 (getValidCredentials_freshness_buffer "/home/user" 3 100
                         15000
                         (sample_cache (sample_credentials "a1" 4020000))
                         (sample_disk "/home/user"
                            (sample_credentials "a1" 4020000))
                         4000000 refreshed 4000500
                         (sample_credentials "a1" 4020000) 4020000
                         ltac:(lia) ltac:(vm_compute; reflexivity) eq_refl)
                  ltac:(lia) eq_refl ltac:(lia)
                  ltac:(split; [vm_compute|]; reflexivity)) as H.
    cbv zeta in H. destruct H as (_ & _ & Hok & _).
    destruct (Hok refreshed_response refreshed_tokens eq_refl eq_refl eq_refl)
      as (d' & Hcall & _).
    exists d'. exact Hcall.
Defined.

Lemma getValidCredentials_no_refresh_token_witness :
  SharedTokenManager.getValidCredentials "/home/user" 3 100 15000 false
    (sample_cache (no_refresh_token 3000000))
    (sample_disk "/home/user" (no_refresh_token 3000000))
    4000000 refreshed 4000500
  = (SharedTokenManager.Err SharedTokenManager.NO_REFRESH_TOKEN,
     sample_cache (no_refresh_token 3000000),
     sample_disk "/home/user" (no_refresh_token 3000000), 0%nat).
Proof.
  refine (getValidCredentials_no_refresh_token "/home/user" 3 100 15000 false
            (sample_cache (no_refresh_token 3000000))
            (sample_disk "/home/user" (no_refresh_token 3000000))
            4000000 refreshed 4000500 (no_refresh_token 3000000) _ _ _).
  - vm_compute. reflexivity.
  - reflexivity.
  - right. reflexivity.
Defined.

(** ** The shared token manager: concurrent callers *)

Section SingleFlight.
Import SharedTokenManager.
Variable homedir : string.
Variable lockMaxAttempts : nat.
Variable lockAttemptInterval : Z.
Variable staleThreshold : Z.

#[local] Abbreviation step :=
  (step homedir lockMaxAttempts lockAttemptInterval staleThreshold).
#[local] Abbreviation run :=
  (run homedir lockMaxAttempts lockAttemptInterval staleThreshold).









End SingleFlight.


(** * Further properties *)

(** ** The effects of the device flow *)

Lemma append_nonempty (a b : string) : a <> "" -> a +:+ b <> "".
Proof.
  destruct a as [|c a]; [contradiction|]. intros _.
  change (String c a +:+ b) with (String c (a +:+ b)). discriminate.
Qed.

#[local] Ltac loop_effects :=
  repeat match goal with
         | |- Forall _ [] => constructor
         | |- Forall _ (_ :: _) =>
             constructor;
               [first [exact I | cbn [loop_effect]; first [assumption | tauto]]|]
         end.

Section EffectFacts.
Variable homedir : string.
Variable env : Env.

Lemma handleError_effects (e : Error.t) (pollInterval : Z) (s : FlowState) :
  match handleError env e pollInterval s with
  | Continue pollInterval' s' =>
      pollInterval' = pollInterval
      /\ disk s' = disk s
      /\ exists message,
           effects s'
           = effects s ++ [EmitAuthProgress "error" message; Slept pollInterval]
  | Return r s' =>
      r <> success
      /\ disk s' = disk s
      /\ exists message,
           effects s' = effects s ++ [EmitAuthProgress (status_of r) message]
           /\ message <> ""
  end.
Proof.
  unfold handleError.
  destruct (Js.includes (Error.message e) "401"
            || bool_decide (Error.status e = Some 401)).
  { cbn. repeat split; [discriminate|]. eexists. split; [reflexivity|discriminate]. }
  destruct (Js.includes (Error.message e) "429"
            || bool_decide (Error.status e = Some 429)).
  { cbn. repeat split; [discriminate|]. eexists. split; [reflexivity|discriminate]. }
  cbn. destruct (isCancelled env (instant s)); cbn.
  - repeat split; [discriminate|]. eexists. split; [reflexivity|].
    apply append_nonempty. discriminate.
  - repeat split. eexists. rewrite <- app_assoc. reflexivity.
Qed.

(** One iteration: it appends to the effects, writes the disk only when it
    ends the flow in [success], keeps the interval reachable, and when it
    ends the flow its last effect is the progress event of the result. *)
Lemma iteration_effects (attempt : nat) (maxAttempts pollInterval : Z)
    (s : FlowState) :
  reachable_interval pollInterval ->
  match iteration homedir env attempt maxAttempts pollInterval s with
  | Continue pollInterval' s' =>
      reachable_interval pollInterval'
      /\ disk s' = disk s
      /\ exists rest,
           effects s' = effects s ++ rest /\ Forall loop_effect rest
  | Return r s' =>
      (r <> success -> disk s' = disk s)
      /\ exists rest message,
           effects s'
           = effects s ++ rest ++ [EmitAuthProgress (status_of r) message]
           /\ message <> ""
           /\ Forall loop_effect rest
  end.
Proof.
  intros Hreach. unfold iteration.
  destruct (isCancelled env (instant s)).
  { cbn. split; [reflexivity|]. exists [], cancelled_message.
    repeat split; [discriminate|constructor]. }
  assert (Herr : forall e s1 pre,
             disk s1 = disk s ->
             effects s1 = effects s ++ pre ->
             Forall loop_effect pre ->
             match handleError env e pollInterval s1 with
             | Continue pollInterval' s' =>
                 reachable_interval pollInterval'
                 /\ disk s' = disk s
                 /\ exists rest,
                      effects s' = effects s ++ rest /\ Forall loop_effect rest
             | Return r s' =>
                 (r <> success -> disk s' = disk s)
                 /\ exists rest message,
                      effects s'
                      = effects s ++ rest ++ [EmitAuthProgress (status_of r) message]
                      /\ message <> ""
                      /\ Forall loop_effect rest
             end).
  { intros e s1 pre Hd He Hpre.
    pose proof (handleError_effects e pollInterval s1) as H.
    destruct (handleError env e pollInterval s1) as [P' s'|r s'].
    - destruct H as (-> & Hd' & message & He').
      split; [exact Hreach|]. split; [congruence|].
      exists (pre ++ [EmitAuthProgress "error" message; Slept pollInterval]).
      split; [rewrite He', He, <- app_assoc; reflexivity|].
      apply Forall_app. split; [exact Hpre|]. loop_effects.
    - destruct H as (_ & Hd' & message & He' & Hm).
      split; [intros _; congruence|].
      exists pre, message.
      split; [rewrite He', He, <- app_assoc; reflexivity|]. auto. }
  destruct (pollDeviceToken (polled env attempt)) as [tokenResponse|e].
  2:{ apply (Herr e _ [PollRequest attempt (instant s)]);
        [reflexivity|reflexivity|loop_effects]. }
  destruct (isDeviceTokenSuccess tokenResponse).
  { destruct (cacheDeltaCredentials _ _ _ _) as [[[]|e] d] eqn:Hwrite.
    - cbn. split; [intros H; now elim H|].
      eexists [PollRequest attempt (instant s); CacheWritten _], _.
      rewrite <- !app_assoc. cbn.
      split; [reflexivity|]. split; [discriminate|loop_effects].
    - apply (Herr e _ [PollRequest attempt (instant s)]); cbn.
      + unfold cacheDeltaCredentials, Fs.mkdir, Fs.writeFile in Hwrite.
        cbn in Hwrite.
        destruct (read_only (disk s)) eqn:Hro; cbn in Hwrite;
          rewrite ?Hro in Hwrite; cbn in Hwrite; congruence.
      + reflexivity.
      + loop_effects. }
  destruct (isDeviceTokenPending tokenResponse).
  { cbn.
    set (P' := nextPollInterval pollInterval
                 (Js.truthy_bool (DeviceTokenResponse.slowDown tokenResponse))).
    assert (Hreach' : reachable_interval P')
      by apply nextPollInterval_exact, Hreach.
    pose proof (reachable_interval_pos P' Hreach') as Hpos.
    pose proof (waitTicks_spec env (wait_fuel P') 0 P' (S (instant s))) as Hw.
    pose proof (waitTicks_exit env P' (S (instant s))) as Hexit.
    destruct (waitTicks env (wait_fuel P') 0 P' (S (instant s))) as [i' e'].
    destruct Hw as (He & _ & _ & Hbetween & _). destruct Hexit as [Hlt _].
    assert (Hbound : 100 <= e' < P' + 100).
    { split; [lia|].
      destruct (Nat.eq_dec i' (S (S (instant s)))) as [->|Hne]; [lia|].
      destruct (Hbetween (i' - 1)%nat ltac:(lia)) as [_ Hj]. lia. }
    cbn. destruct (isCancelled env i'); cbn.
    - split; [reflexivity|].
      eexists [PollRequest attempt (instant s); EmitAuthProgress "polling" _;
               Waited P' e'], cancelled_message.
      rewrite <- !app_assoc. cbn.
      split; [reflexivity|]. split; [discriminate|]. loop_effects.
    - split; [exact Hreach'|]. split; [reflexivity|].
      eexists [PollRequest attempt (instant s); EmitAuthProgress "polling" _;
               Waited P' e'].
      rewrite <- !app_assoc. cbn.
      split; [reflexivity|]. loop_effects. }
  destruct (isErrorResponse tokenResponse).
  { apply (Herr _ _ [PollRequest attempt (instant s)]);
      [reflexivity|reflexivity|loop_effects]. }
  cbn. split; [exact Hreach|]. split; [reflexivity|].
  exists [PollRequest attempt (instant s)]. split; [reflexivity|].
  loop_effects.
Qed.

Lemma pollLoop_effects (remaining : nat) :
  forall (attempt : nat) (maxAttempts pollInterval : Z) (s : FlowState)
         (r : AuthResult) (s' : FlowState),
    reachable_interval pollInterval ->
    pollLoop homedir env remaining attempt maxAttempts pollInterval s = (r, s') ->
    (r <> success -> disk s' = disk s)
    /\ exists rest message,
         effects s'
         = effects s ++ rest ++ [EmitAuthProgress (status_of r) message]
         /\ message <> ""
         /\ Forall loop_effect rest.
Proof.
  induction remaining as [|remaining IH];
    intros attempt maxAttempts pollInterval s r s' Hreach; cbn.
  - intros [= <- <-]. cbn. split; [reflexivity|].
    exists [], "Authorization timeout, please restart the process.".
    repeat split; [discriminate|constructor].
  - pose proof (iteration_effects attempt maxAttempts pollInterval s Hreach)
      as Hit.
    destruct (iteration homedir env attempt maxAttempts pollInterval s)
      as [P1 s1|r1 s1].
    + destruct Hit as (Hreach1 & Hd1 & rest1 & He1 & Hall1). intros Hloop.
      destruct (IH _ _ _ _ _ _ Hreach1 Hloop) as (Hd & rest & message & He & Hm & Hall).
      split; [intros Hr; rewrite (Hd Hr); exact Hd1|].
      exists (rest1 ++ rest), message.
      split; [rewrite He, He1, <- !app_assoc; reflexivity|].
      split; [exact Hm|]. apply Forall_app. auto.
    + intros [= <- <-]. exact Hit.
Qed.
End EffectFacts.

(** The shape of the effects of a flow whose device authorization
    succeeded. *)
Lemma authWithDeltaDeviceFlow_effects
    (homedir : string) (env : Env) (credentials0 : ClientCredentials)
    (disk0 : Disk) (deviceAuth : DeviceAuthorizationData.t) :
  deviceAuthorization env = Resolved deviceAuth ->
  let run := authWithDeltaDeviceFlow homedir env credentials0 disk0 in
  exists rest message,
    effects (snd run)
    = EmitAuthUri deviceAuth
      :: rest ++ [EmitAuthProgress (status_of (fst run)) message]
    /\ message <> ""
    /\ Forall loop_effect rest.
Proof.
  intros Hauth run. subst run. unfold authWithDeltaDeviceFlow. rewrite Hauth.
  set (s0 := emit _ (if browserLaunchSuppressed env then _ else _)).
  assert (Hs0 : effects s0
                = [EmitAuthUri deviceAuth;
                   EmitAuthProgress "polling" "Waiting for authorization..."]).
  { subst s0. destruct (browserLaunchSuppressed env); reflexivity. }
  destruct (pollLoop _ _ _ _ _ _ s0) as [r s'] eqn:Hloop.
  destruct (pollLoop_effects homedir env _ _ _ _ _ _ _
              ltac:(cbn; tauto) Hloop) as (_ & rest & message & He & Hm & Hall).
  exists (EmitAuthProgress "polling" "Waiting for authorization..." :: rest),
         message.
  cbn [fst snd]. rewrite He, Hs0. cbn.
  split; [reflexivity|]. split; [exact Hm|]. constructor; [exact I|exact Hall].
Qed.

(** X1.  When the device authorization succeeded, the events of the flow
    begin with the [AuthUri] event and end with a progress event whose
    status is that of the result ([success], [timeout], [rate_limit], and
    [error] for both an error and a cancellation) and whose message is not
    empty; in between there is no other [AuthUri] event, and every wait and
    sleep of the loop is at an interval between 2000 and 10000 ms. *)
Theorem deviceFlow_reports_result
    (homedir : string) (env : Env) (credentials0 : ClientCredentials)
    (disk0 : Disk) (deviceAuth : DeviceAuthorizationData.t) :
  deviceAuthorization env = Resolved deviceAuth ->
  let run := authWithDeltaDeviceFlow homedir env credentials0 disk0 in
  exists rest message,
    effects (snd run)
    = EmitAuthUri deviceAuth
      :: rest ++ [EmitAuthProgress (status_of (fst run)) message]
    /\ message <> ""
    /\ Forall loop_effect rest.
Proof. apply authWithDeltaDeviceFlow_effects. Qed.

Lemma deviceFlow_reports_result_witness :
  exists rest message,
    effects (snd (authWithDeltaDeviceFlow "/home/user" cancelled_in_wait
                    DeltaCredentials.empty empty_disk))
    = EmitAuthUri (sample_deviceAuth 60)
      :: rest ++ [EmitAuthProgress "error" message]
    /\ message <> "".
Proof.
  destruct (deviceFlow_reports_result "/home/user" cancelled_in_wait
              DeltaCredentials.empty empty_disk (sample_deviceAuth 60) eq_refl)
    as (rest & message & He & Hm & _).
  exists rest, message. split; [exact He|exact Hm].
Defined.

(** The listeners of the hook leave [isDeltaAuthenticating] and
    [deviceAuth] alone on everything the polling loop does. *)
Lemma listen_loop_effects (rest : list Effect) :
  Forall loop_effect rest ->
  forall st,
    DeltaAuthState.isDeltaAuthenticating (fold_left listen rest st)
    = DeltaAuthState.isDeltaAuthenticating st
    /\ DeltaAuthState.deviceAuth (fold_left listen rest st)
       = DeltaAuthState.deviceAuth st.
Proof.
  induction 1 as [|e rest He _ IH]; intros st; cbn; [auto|].
  destruct (IH (listen st e)) as [-> ->].
  destruct e; cbn in *; auto. contradiction.
Qed.

(** X2.  A hook that is listening while the flow runs, and whose
    [cancelDeltaAuth] is not called, ends up showing the result:
    [authStatus] is the status of the flow's result, [authMessage] is a
    non-empty message, and [deviceAuth] holds the four fields of the
    authorization the flow obtained. *)
Theorem useDeltaAuth_shows_result
    (homedir : string) (env : Env) (credentials0 : ClientCredentials)
    (disk0 : Disk) (deviceAuth : DeviceAuthorizationData.t) :
  deviceAuthorization env = Resolved deviceAuth ->
  cancelAt env = None ->
  let run := authWithDeltaDeviceFlow homedir env credentials0 disk0 in
  exists message,
    message <> ""
    /\ fold_left listen (effects (snd run))
         (authEffect true true DeltaAuthState.initial)
       = {| DeltaAuthState.isDeltaAuthenticating := true;
            DeltaAuthState.deviceAuth := Some (info_of deviceAuth);
            DeltaAuthState.authStatus := status_of (fst run);
            DeltaAuthState.authMessage := Some message |}.
Proof.
  intros Hauth _ run.
  destruct (authWithDeltaDeviceFlow_effects homedir env credentials0 disk0
              deviceAuth Hauth) as (rest & message & He & Hm & Hall).
  fold run in He. exists message. split; [exact Hm|].
  rewrite He. cbn [fold_left]. rewrite fold_left_app. cbn [fold_left].
  destruct (listen_loop_effects rest Hall
              (listen (authEffect true true DeltaAuthState.initial)
                 (EmitAuthUri deviceAuth))) as [Hflag Hinfo].
  unfold listen at 1. unfold handleAuthProgress. rewrite Hflag, Hinfo. cbn.
  f_equal. unfold Js.or_undefined, Js.truthy_string.
  apply String.eqb_neq in Hm. now rewrite Hm.
Qed.

Lemma useDeltaAuth_shows_result_witness :
  exists message,
    message <> ""
    /\ DeltaAuthState.authStatus
         (fold_left listen
            (effects (snd (authWithDeltaDeviceFlow "/home/user" never_approved
                             DeltaCredentials.empty empty_disk)))
            (authEffect true true DeltaAuthState.initial))
       = "timeout".
Proof.
  destruct (useDeltaAuth_shows_result "/home/user" never_approved
              DeltaCredentials.empty empty_disk (sample_deviceAuth 5) eq_refl
              eq_refl)
    as (message & Hm & Hui).
  exists message. split; [exact Hm|]. rewrite Hui. reflexivity.
Defined.

(** X3.  The flow writes to the disk only when it ends in [success]: after
    any other result the disk is as it was. *)
Theorem deviceFlow_writes_only_on_success
    (homedir : string) (env : Env) (credentials0 : ClientCredentials)
    (disk0 : Disk) :
  fst (authWithDeltaDeviceFlow homedir env credentials0 disk0) <> success ->
  disk (snd (authWithDeltaDeviceFlow homedir env credentials0 disk0)) = disk0.
Proof.
  unfold authWithDeltaDeviceFlow.
  destruct (deviceAuthorization env) as [deviceAuth|e]; [|reflexivity].
  set (s0 := emit _ (if browserLaunchSuppressed env then _ else _)).
  assert (Hd0 : disk s0 = disk0).
  { subst s0. destruct (browserLaunchSuppressed env); reflexivity. }
  destruct (pollLoop _ _ _ _ _ _ s0) as [r s'] eqn:Hloop.
  destruct (pollLoop_effects homedir env _ _ _ _ _ _ _
              ltac:(cbn; tauto) Hloop) as (Hd & _).
  cbn [fst snd]. intros Hr. rewrite (Hd Hr). exact Hd0.
Qed.

Lemma deviceFlow_writes_only_on_success_witness :
  disk (snd (authWithDeltaDeviceFlow "/home/user" cancelled_in_wait
               DeltaCredentials.empty
               (sample_disk "/home/user" (sample_credentials "a1" 0))))
  = sample_disk "/home/user" (sample_credentials "a1" 0).
Proof.
  apply deviceFlow_writes_only_on_success. vm_compute. discriminate.
Defined.

(** X4.  Every inter-poll wait of the flow is at an interval between 2000
    and 10000 ms and lasts at least one tick and less than one tick more
    than the interval; every sleep after a failed poll is at an interval
    between 2000 and 10000 ms. *)
Theorem deviceFlow_interval_bounds
    (homedir : string) (env : Env) (credentials0 : ClientCredentials)
    (disk0 : Disk) :
  let run := authWithDeltaDeviceFlow homedir env credentials0 disk0 in
  (forall pollInterval elapsedTime,
      In (Waited pollInterval elapsedTime) (effects (snd run)) ->
      2000 <= pollInterval <= 10000
      /\ 100 <= elapsedTime < pollInterval + 100)
  /\ (forall ms,
        In (Slept ms) (effects (snd run)) -> 2000 <= ms <= 10000).
Proof.
  intros run.
  assert (Hrange : forall P, reachable_interval P -> 2000 <= P <= 10000).
  { unfold reachable_interval. cbn.
    intros P [<-|[<-|[<-|[<-|[<-|[]]]]]]; lia. }
  assert (Hloop : forall e, In e (effects (snd run)) ->
                            match e with
                            | Waited _ _ | Slept _ => loop_effect e
                            | _ => True
                            end).
  { intros e. subst run.
    destruct (deviceAuthorization env) as [deviceAuth|err] eqn:Hauth.
    - destruct (authWithDeltaDeviceFlow_effects homedir env credentials0 disk0
                  deviceAuth Hauth) as (rest & message & -> & _ & Hall).
      cbn. intros [<-|Hin]; [exact I|].
      apply in_app_or in Hin as [Hin|[<-|[]]]; [|exact I].
      rewrite Forall_forall in Hall.
      apply list_elem_of_In, Hall in Hin. destruct e; auto.
    - unfold authWithDeltaDeviceFlow. rewrite Hauth. intros []. }
  split.
  - intros P el Hin. destruct (Hloop _ Hin) as [Hreach Hel].
    split; [apply Hrange, Hreach|exact Hel].
  - intros ms Hin. apply Hrange, (Hloop _ Hin).
Qed.

Lemma deviceFlow_interval_bounds_witness :
  2000 <= 2000 <= 10000 /\ 100 <= 600 < 2000 + 100.
Proof.
  apply (proj1 (deviceFlow_interval_bounds "/home/user" cancelled_in_wait
                  DeltaCredentials.empty empty_disk) 2000 600).
  vm_compute. tauto.
Defined.

(** ** Errors while polling *)

Section PollingErrors.
Variable homedir : string.
Variable env : Env.
Hypothesis never_cancelled : cancelAt env = None.


End PollingErrors.



(** X6.  An HTTP answer to a poll that is not a 2xx and is not one of the
    two pending answers does not end the flow, whatever its status: the
    error that [pollDeviceToken] rejects with has no status and a message
    without "401" or "429", so the loop sleeps and polls again.  When every
    poll is answered that way and the flow is not cancelled, it polls
    [maxAttempts] times and ends in [timeout]. *)
Theorem deviceFlow_retries_http_errors
    (homedir : string) (env : Env) (credentials0 : ClientCredentials)
    (disk0 : Disk) (deviceAuth : DeviceAuthorizationData.t) :
  deviceAuthorization env = Resolved deviceAuth ->
  cancelAt env = None ->
  (forall k, exists response,
      polled env k = Resolved response
      /\ Response.ok response = false
      /\ is_authorization_pending response = false
      /\ is_slow_down response = false) ->
  let run := authWithDeltaDeviceFlow homedir env credentials0 disk0 in
  fst run = failure Reason.timeout
  /\ length (poll_instants (effects (snd run)))
     = Z.to_nat (maxAttemptsOf (DeviceAuthorizationData.expires_in deviceAuth) 2000).
Proof.
  intros Hauth Hnever Hanswers run. subst run.
  unfold authWithDeltaDeviceFlow. rewrite Hauth.
  set (maxAttempts := maxAttemptsOf _ 2000).
  set (s0 := emit _ (if browserLaunchSuppressed env then _ else _)).
  assert (Hs0 : poll_instants (effects s0) = []).
  { subst s0. destruct (browserLaunchSuppressed env); reflexivity. }
  assert (Hkeep : forall k, keeps_polling (pollDeviceToken (polled env k)) = true).
  { intros k. destruct (Hanswers k) as (response & -> & Hok & Hp & Hs).
    rewrite (pollDeviceToken_other_failure response Hok Hp Hs). reflexivity. }
  pose proof (pollLoop_exhausted homedir env (Z.to_nat maxAttempts) 0
                maxAttempts 2000 s0 Hnever ltac:(intros; apply Hkeep)) as Hto.
  destruct (pollLoop _ _ _ _ _ _ s0) as [r s'] eqn:Hloop.
  cbn [fst snd] in *. subst r. split; [reflexivity|].
  destruct (pollLoop_polls homedir env _ _ _ _ _ _ _ Hloop)
    as (extra & Hp & _ & Hlen & _).
  rewrite Hp, Hs0. cbn. apply Hlen. reflexivity.
Qed.

Lemma deviceFlow_retries_http_errors_witness :
  fst (authWithDeltaDeviceFlow "/home/user" always_unauthorized
         DeltaCredentials.empty empty_disk)
  = failure Reason.timeout.
Proof.
  refine (proj1 (deviceFlow_retries_http_errors "/home/user" always_unauthorized
                   DeltaCredentials.empty empty_disk (sample_deviceAuth 5)
                   eq_refl eq_refl _)).
  intros k. exists unauthorized. repeat split; reflexivity.
Defined.

(** X7.  Unless the device-code endpoint answers with a 2xx status and a
    body that has a device code, the flow ends in [error] after the one
    request: it emits no event, issues no poll and leaves the client's
    credentials and the disk as they were. *)
Theorem deviceFlow_authorization_failure
    (homedir : string) (env : Env) (credentials0 : ClientCredentials)
    (disk0 : Disk) (net : Fetched DeviceAuthorizationResponse) :
  deviceAuthorization env = requestDeviceAuthorization net ->
  (forall response deviceAuth,
      net = Resolved response ->
      Response.ok response = true ->
      Response.json_of_body response <> Some (AuthorizationData deviceAuth)) ->
  authWithDeltaDeviceFlow homedir env credentials0 disk0
  = (failure Reason.error, gave_up credentials0 disk0).
Proof.
  intros Henv Hbad. unfold authWithDeltaDeviceFlow. rewrite Henv.
  unfold requestDeviceAuthorization.
  destruct net as [response|e]; [|reflexivity].
  destruct (Response.ok response) eqn:Hok; cbn; [|reflexivity].
  destruct (Response.json_of_body response) as [[d|err]|] eqn:Hjson;
    try reflexivity.
  exfalso. now apply (Hbad response d).
Qed.

Lemma deviceFlow_authorization_failure_witness :
  authWithDeltaDeviceFlow "/home/user" authorization_refused
    DeltaCredentials.empty empty_disk
  = (failure Reason.error, gave_up DeltaCredentials.empty empty_disk).
Proof.
  apply (deviceFlow_authorization_failure "/home/user" authorization_refused
           DeltaCredentials.empty empty_disk (Resolved forbidden)).
  - reflexivity.
  - intros response deviceAuth [= <-] Hok. discriminate Hok.
Defined.

(** ** [refreshAccessToken], again *)

(** X8.  Whatever the endpoint does, [refreshAccessToken] changes the
    client's credentials only when it resolves, touches the disk only when
    the answer has status 400, and even then leaves every file but the
    credential file alone. *)
Theorem refreshAccessToken_frame
    (homedir : string) (credentials : DeltaCredentials.t)
    (net : Fetched TokenRefreshResponse) (d : Disk) (now : Z) :
  let run := refreshAccessToken homedir credentials net d now in
  (forall e, refresh_outcome run = Rejected e ->
             refresh_credentials run = credentials)
  /\ ((forall response, net = Resolved response ->
                        Response.status response <> 400) ->
      refresh_disk run = d)
  /\ (forall path, path <> getDeltaCachedCredentialPath homedir ->
                   files (refresh_disk run) !! path = files d !! path).
Proof.
  intros run. subst run. unfold refreshAccessToken.
  destruct (Js.truthy_string (DeltaCredentials.refresh_token credentials)); cbn;
    [|auto].
  destruct net as [response|e]; [|auto].
  destruct (Response.ok response); cbn.
  - destruct (Response.json_of_body response) as [[tokenData|err]|]; cbn;
      repeat split; auto; discriminate.
  - destruct (Z.eqb_spec (Response.status response) 400) as [H400|H400].
    + pose proof (clearDeltaCredentials_others homedir d) as Hothers.
      destruct (clearDeltaCredentials homedir d) as [o d1]. cbn in *.
      split; [auto|]. split; [|exact Hothers].
      intros Hnot. exfalso. now apply (Hnot response).
    + cbn. auto.
Qed.

Lemma refreshAccessToken_frame_witness :
  refresh_credentials
    (refreshAccessToken "/home/user" (sample_credentials "a1" 0)
       (Resolved bad_request)
       (sample_disk "/home/user" (sample_credentials "a1" 0)) 5000)
  = sample_credentials "a1" 0.
Proof.
  eapply (proj1 (refreshAccessToken_frame "/home/user" (sample_credentials "a1" 0)
                   (Resolved bad_request)
                   (sample_disk "/home/user" (sample_credentials "a1" 0)) 5000)).
  reflexivity.
Defined.

(** X9.  After a successful refresh the client holds a record that the
    local expiry check accepts exactly until 30 s before [expires_in]
    seconds have passed; its refresh token is the new one when the answer
    has one and the old one otherwise; nothing is written to disk. *)
Theorem refreshAccessToken_success_window
    (homedir : string) (credentials : DeltaCredentials.t)
    (response : Response.t TokenRefreshResponse)
    (tokenData : TokenRefreshData.t) (d : Disk) (now : Z) :
  Js.truthy_string (DeltaCredentials.refresh_token credentials) = true ->
  Response.ok response = true ->
  Response.json_of_body response = Some (RefreshData tokenData) ->
  let run := refreshAccessToken homedir credentials (Resolved response) d now in
  refresh_outcome run = Resolved (RefreshData tokenData)
  /\ refresh_disk run = d
  /\ DeltaCredentials.access_token (refresh_credentials run)
     = TokenRefreshData.access_token tokenData
  /\ DeltaCredentials.refresh_token (refresh_credentials run)
     = (if Js.truthy_string (TokenRefreshData.refresh_token tokenData)
        then TokenRefreshData.refresh_token tokenData
        else DeltaCredentials.refresh_token credentials)
  /\ (forall later,
        0 <= later ->
        isTokenValid (refresh_credentials run) later = true
        <-> later + 30000 < now + TokenRefreshData.expires_in tokenData * 1000).
Proof.
  intros Htok Hok Hjson run. subst run.
  rewrite (refreshAccessToken_success homedir credentials response tokenData d
             now Htok Hok Hjson). cbn.
  repeat split; try reflexivity.
  - intros Hvalid. apply (isTokenValid_spec _ _ H) in Hvalid.
    destruct Hvalid as (x & [= <-] & Hlt). exact Hlt.
  - intros Hlt. apply (isTokenValid_spec _ _ H). eauto.
Qed.

Lemma refreshAccessToken_success_window_witness :
  isTokenValid
    (refresh_credentials
       (refreshAccessToken "/home/user" (sample_credentials "a1" 0)
          refreshed empty_disk 4000500))
    7000000 = true.
Proof.
  pose proof (refreshAccessToken_success_window "/home/user"
                (sample_credentials "a1" 0) refreshed_response refreshed_tokens
                empty_disk 4000500 eq_refl eq_refl eq_refl) as H.
  cbv zeta in H. destruct H as (_ & _ & _ & _ & H).
  apply (H 7000000); [lia|]. cbn. lia.
Defined.

(** ** The credential file, again *)

Lemma clearDeltaCredentials_idempotent (homedir : string) (d : Disk) :
  snd (clearDeltaCredentials homedir (snd (clearDeltaCredentials homedir d)))
  = snd (clearDeltaCredentials homedir d).
Proof.
  unfold clearDeltaCredentials, Fs.unlink.
  destruct (files d !! getDeltaCachedCredentialPath homedir) eqn:Hf.
  - destruct (read_only d) eqn:Hro; cbn.
    + rewrite Hf, Hro. reflexivity.
    + rewrite lookup_delete_eq. reflexivity.
  - cbn. rewrite Hf. reflexivity.
Qed.

(** X10.  [clearDeltaCredentials] never rejects, not even when the file
    cannot be removed; it leaves every other file alone; clearing twice is
    the same as clearing once; and on a disk that lets files be removed the
    credential file is gone afterwards. *)
Theorem clearDeltaCredentials_safe (homedir : string) (d : Disk) :
  fst (clearDeltaCredentials homedir d) = Resolved tt
  /\ (forall path, path <> getDeltaCachedCredentialPath homedir ->
        files (snd (clearDeltaCredentials homedir d)) !! path = files d !! path)
  /\ snd (clearDeltaCredentials homedir (snd (clearDeltaCredentials homedir d)))
     = snd (clearDeltaCredentials homedir d)
  /\ (read_only d = false ->
      files (snd (clearDeltaCredentials homedir d))
        !! getDeltaCachedCredentialPath homedir = None).
Proof.
  split; [apply clearDeltaCredentials_resolves|].
  split; [intros path; apply clearDeltaCredentials_others|].
  split; [apply clearDeltaCredentials_idempotent|].
  apply clearDeltaCredentials_removes.
Qed.

Lemma clearDeltaCredentials_safe_witness :
  files (snd (clearDeltaCredentials "/home/user"
                (sample_disk "/home/user" (sample_credentials "a1" 0))))
    !! getDeltaCachedCredentialPath "/home/user" = None.
Proof.
  apply (clearDeltaCredentials_safe "/home/user"). reflexivity.
Defined.

(** X11.  On a disk that can be written, [cacheDeltaCredentials] resolves
    and the credential file then holds the record, whatever it held before;
    a following [clearDeltaCredentials] removes it again, and the two
    together leave every other file as it was.  On a read-only disk
    [cacheDeltaCredentials] rejects and changes nothing. *)
Theorem credential_file_round_trip
    (homedir : string) (c : DeltaCredentials.t) (d : Disk) (now : Z) :
  (read_only d = false ->
   exists d1,
     cacheDeltaCredentials homedir c d now = (Resolved tt, d1)
     /\ data <$> files d1 !! getDeltaCachedCredentialPath homedir
        = Some (JsonCredentials c)
     /\ files (snd (clearDeltaCredentials homedir d1))
          !! getDeltaCachedCredentialPath homedir = None
     /\ (forall path, path <> getDeltaCachedCredentialPath homedir ->
           files (snd (clearDeltaCredentials homedir d1)) !! path
           = files d !! path))
  /\ (read_only d = true ->
      exists e, cacheDeltaCredentials homedir c d now = (Rejected e, d)).
Proof.
  split.
  - intros Hrw.
    destruct (cacheDeltaCredentials_writable homedir c d now Hrw)
      as (d1 & Hwrite & Hrw1).
    exists d1. split; [exact Hwrite|].
    split; [now rewrite (cacheDeltaCredentials_writes _ _ _ _ _ Hwrite)|].
    split; [now apply clearDeltaCredentials_removes|].
    intros path Hne. rewrite (clearDeltaCredentials_others _ _ _ Hne).
    unfold cacheDeltaCredentials, Fs.mkdir, Fs.writeFile in Hwrite.
    rewrite Hrw in Hwrite. cbn in Hwrite. rewrite Hrw in Hwrite.
    injection Hwrite as <-. cbn. now apply lookup_insert_ne.
  - intros Hro. unfold cacheDeltaCredentials, Fs.mkdir. rewrite Hro. eauto.
Qed.

Lemma credential_file_round_trip_witness :
  exists d1,
    cacheDeltaCredentials "/home/user" (sample_credentials "a2" 9000)
      (sample_disk "/home/user" (sample_credentials "a1" 0)) 5000
    = (Resolved tt, d1)
    /\ data <$> files d1 !! getDeltaCachedCredentialPath "/home/user"
       = Some (JsonCredentials (sample_credentials "a2" 9000)).
Proof.
  destruct (proj1 (credential_file_round_trip "/home/user"
                     (sample_credentials "a2" 9000)
                     (sample_disk "/home/user" (sample_credentials "a1" 0)) 5000)
              eq_refl) as (d1 & Hw & Hd & _).
  exists d1. split; [exact Hw|exact Hd].
Defined.

(** ** [pollDeviceToken], again *)

(** X12.  For an answer that is not a 2xx, [pollDeviceToken] resolves only
    in the two pending cases, [authorization_pending] with status 400 and
    [slow_down] with status 429, and then to the matching pending value: a
    non-2xx answer never yields a token, whatever its body holds. *)
Theorem pollDeviceToken_failure_classes
    (response : Response.t DeviceTokenResponse.t) (r : DeviceTokenResponse.t) :
  Response.ok response = false ->
  (pollDeviceToken (Resolved response) = Resolved r <->
   (is_authorization_pending response = true /\ r = DeviceTokenResponse.pending)
   \/ (is_slow_down response = true /\ r = DeviceTokenResponse.pending_slowDown))
  /\ (pollDeviceToken (Resolved response) = Resolved r ->
      isDeviceTokenSuccess r = false).
Proof.
  intros Hok.
  assert (Hclass :
    pollDeviceToken (Resolved response) = Resolved r <->
    (is_authorization_pending response = true /\ r = DeviceTokenResponse.pending)
    \/ (is_slow_down response = true /\ r = DeviceTokenResponse.pending_slowDown)).
  { destruct (is_authorization_pending response) eqn:Hp.
    - rewrite (pollDeviceToken_authorization_pending response Hok Hp).
      assert (Hs : is_slow_down response = false).
      { unfold is_authorization_pending, is_slow_down in *.
        apply andb_true_iff in Hp as [Hp _]. apply Z.eqb_eq in Hp.
        rewrite Hp. reflexivity. }
      rewrite Hs. split.
      + intros [= <-]. auto.
      + intros [[_ ->]|[[=] _]]. reflexivity.
    - destruct (is_slow_down response) eqn:Hs.
      + rewrite (pollDeviceToken_slow_down response Hok Hs). split.
        * intros [= <-]. auto.
        * intros [[[=] _]|[_ ->]]. reflexivity.
      + rewrite (pollDeviceToken_other_failure response Hok Hp Hs). split.
        * discriminate.
        * intros [[[=] _]|[[=] _]]. }
  split; [exact Hclass|].
  intros H. apply Hclass in H as [[_ ->]|[_ ->]]; reflexivity.
Qed.

Lemma pollDeviceToken_failure_classes_witness :
  pollDeviceToken http_slow_down = Resolved DeviceTokenResponse.pending_slowDown.
Proof.
  refine (proj2 (proj1 (pollDeviceToken_failure_classes _ _ _)) _).
  - reflexivity.
  - right. split; reflexivity.
Defined.

(** ** [loadCachedDeltaCredentials] and [getDeltaOAuthClient] *)

Lemma authWithDeltaDeviceFlow_success
    (homedir : string) (env : Env) (credentials0 : ClientCredentials)
    (disk0 : Disk) (s' : FlowState) :
  authWithDeltaDeviceFlow homedir env credentials0 disk0 = (success, s') ->
  persisted_from_poll homedir env s'.
Proof.
  unfold authWithDeltaDeviceFlow.
  destruct (deviceAuthorization env) as [deviceAuth|e]; [|discriminate].
  apply pollLoop_success.
Qed.

Lemma authWithDeltaDeviceFlow_failure_disk
    (homedir : string) (env : Env) (credentials0 : ClientCredentials)
    (disk0 : Disk) (reason : Reason.t) (s' : FlowState) :
  authWithDeltaDeviceFlow homedir env credentials0 disk0 = (failure reason, s') ->
  disk s' = disk0.
Proof.
  unfold authWithDeltaDeviceFlow.
  destruct (deviceAuthorization env) as [deviceAuth|e]; [|now intros [= _ <-]].
  set (s0 := emit _ (if browserLaunchSuppressed env then _ else _)).
  assert (Hd0 : disk s0 = disk0).
  { subst s0. destruct (browserLaunchSuppressed env); reflexivity. }
  intros Hloop.
  destruct (pollLoop_effects homedir env _ _ _ _ _ _ _
              ltac:(cbn; tauto) Hloop) as (Hd & _).
  rewrite Hd by discriminate. exact Hd0.
Qed.

Section ClientFacts.
Variable homedir : string.
Variable shared1 : SharedCall.
Variable shared2 : SharedCall.
Variable env : Env.
Variable now : Z.

(** X13.  [loadCachedDeltaCredentials] answers [false] without consulting
    the shared manager and without touching the client when the credential
    file is missing or is not JSON.  Otherwise the client is given what the
    file holds, a record or [null], and the manager is consulted.  With a
    clock not before the epoch, the answer is [true] only when a non-empty
    access token was obtained: from the shared manager, or, the manager
    having rejected, from the record that the client then holds, passing the
    local expiry check.  When the manager has rejected and the client's
    credentials are [null], the answer is [false]. *)
Theorem loadCachedDeltaCredentials_sound
    (credentials : ClientCredentials) (d : Disk) :
  0 <= now ->
  (cached_value homedir d = None ->
   loadCachedDeltaCredentials homedir shared2 now credentials d
   = (false, credentials, d))
  /\ (forall credentials' d',
        loadCachedDeltaCredentials homedir shared2 now credentials d
        = (true, credentials', d') ->
        exists cached shared,
          cached_value homedir d = Some cached
          /\ shared2 cached d = (shared, credentials', d')
          /\ ((exists c, shared = Resolved c
                         /\ Js.truthy_string (DeltaCredentials.access_token c) = true)
              \/ (exists e record,
                    shared = Rejected e
                    /\ credentials' = Credentials record
                    /\ usable_token record
                    /\ passes_expiry_check record now)))
  /\ (forall cached e d',
        cached_value homedir d = Some cached ->
        shared2 cached d = (Rejected e, NullCredentials, d') ->
        loadCachedDeltaCredentials homedir shared2 now credentials d
        = (false, NullCredentials, d')).
Proof using Type.
  intros Hnow. unfold loadCachedDeltaCredentials, cached_value.
  destruct (files d !! getDeltaCachedCredentialPath homedir) as [f|].
  2:{ split; [reflexivity|]. split; [discriminate|]. discriminate. }
  destruct (JSON_parse (data f)) as [cached|].
  2:{ split; [reflexivity|]. split; [discriminate|]. discriminate. }
  split; [discriminate|]. split.
  - intros credentials' d'.
    destruct (shared2 cached d) as [[shared c1] d1] eqn:Hshared.
    destruct shared as [c|e]; cbn.
    + destruct (Js.truthy_string (DeltaCredentials.access_token c)) eqn:Htok;
        cbn; [|discriminate].
      intros [= <- <-]. exists cached, (Resolved c).
      split; [reflexivity|]. split; [exact Hshared|]. left. eauto.
    + destruct c1 as [record|]; [|discriminate].
      destruct (Js.truthy_string (DeltaCredentials.access_token record)
                && isTokenValid record now) eqn:Hlocal; cbn.
      * apply andb_true_iff in Hlocal as [Htok Hvalid]. rewrite Htok. cbn.
        intros [= <- <-]. exists cached, (Rejected e).
        split; [reflexivity|]. split; [exact Hshared|]. right. exists e, record.
        split; [reflexivity|]. split; [reflexivity|]. split.
        -- now apply truthy_string_spec.
        -- now apply isTokenValid_spec.
      * discriminate.
  - intros cached' e d' [= <-] ->. reflexivity.
Qed.

(** X14.  [getDeltaOAuthClient] resolves only in two ways: the shared
    manager gave it credentials, and then no device flow ran; or the manager
    rejected and the device flow obtained a token, and then the client holds
    the record built from that token and the credential file holds the same
    record. *)
Theorem getDeltaOAuthClient_resolves (d : Disk) (c : ClientCredentials) :
  let run := getDeltaOAuthClient homedir shared1 shared2 env now d in
  client_outcome run = Resolved c ->
  (exists record c1 d1,
      c = Credentials record
      /\ shared1 DeltaCredentials.empty d = (Resolved record, c1, d1)
      /\ client_effects run = []
      /\ client_disk run = d1)
  \/ (exists e c1 d1 attempt tokenResponse i,
        shared1 DeltaCredentials.empty d = (Rejected e, c1, d1)
        /\ pollDeviceToken (polled env attempt) = Resolved tokenResponse
        /\ isDeviceTokenSuccess tokenResponse = true
        /\ c = credentialsOfToken tokenResponse (dateNow env i)
        /\ files (client_disk run) !! getDeltaCachedCredentialPath homedir
           = Some {| mtimeMs := dateNow env i;
                     data := JsonCredentials
                               (credentialsOfToken tokenResponse (dateNow env i)) |}).
Proof using Type.
  intros run. subst run. unfold getDeltaOAuthClient.
  destruct (shared1 DeltaCredentials.empty d) as [[[c0|e] c1] d1].
  { cbn. intros [= <-]. left. eauto 10. }
  destruct (loadCachedDeltaCredentials homedir shared2 now c1 d1)
    as [[cached c2] d2].
  destruct (authWithDeltaDeviceFlow homedir env c2 d2) as [result s] eqn:Hflow.
  assert (Hsucc : result = success ->
                  Resolved (credentials s) = Resolved c ->
                  exists attempt tokenResponse i,
                    pollDeviceToken (polled env attempt) = Resolved tokenResponse
                    /\ isDeviceTokenSuccess tokenResponse = true
                    /\ c = credentialsOfToken tokenResponse (dateNow env i)
                    /\ files (disk s) !! getDeltaCachedCredentialPath homedir
                       = Some {| mtimeMs := dateNow env i;
                                 data := JsonCredentials
                                           (credentialsOfToken tokenResponse
                                              (dateNow env i)) |}).
  { intros -> [= <-].
    destruct (authWithDeltaDeviceFlow_success _ _ _ _ _ Hflow)
      as (earlier & attempt & p & tokenResponse & _ & Hpoll & Hs & Hc & Hfile & _).
    exists attempt, tokenResponse, (S p). auto. }
  destruct cached, result as [|reason]; cbn; try discriminate;
    intros Hout; right;
    destruct (Hsucc eq_refl Hout) as (attempt & tokenResponse & i & H);
    exists e, c1, d1, attempt, tokenResponse, i; tauto.
Qed.

(** X15.  When the shared manager rejects, [getDeltaOAuthClient] runs the
    device flow whatever [loadCachedDeltaCredentials] found, and resolves
    exactly when the flow ends in [success].  When the flow fails, the error
    is "Delta OAuth authentication failed" if cached credentials were found
    usable, and otherwise the one that names the reason; a timeout is then
    reported to the UI a second time; and the disk is as
    [loadCachedDeltaCredentials] left it. *)
Theorem getDeltaOAuthClient_rejects
    (d : Disk) (e : Error.t) (c1 c2 : ClientCredentials) (d1 d2 : Disk)
    (cached : bool) (reason : Reason.t) (s : FlowState) :
  shared1 DeltaCredentials.empty d = (Rejected e, c1, d1) ->
  loadCachedDeltaCredentials homedir shared2 now c1 d1 = (cached, c2, d2) ->
  authWithDeltaDeviceFlow homedir env c2 d2 = (failure reason, s) ->
  let run := getDeltaOAuthClient homedir shared1 shared2 env now d in
  client_outcome run
  = Rejected (if cached then authentication_failed else failure_error reason)
  /\ client_disk run = d2
  /\ client_effects run
     = effects s
       ++ match cached, reason with
          | false, Reason.timeout =>
              [EmitAuthProgress "timeout"
                 "Authentication timed out. Please try again or select a different authentication method."]
          | _, _ => []
          end.
Proof using Type.
  intros Hshared Hload Hflow run. subst run. unfold getDeltaOAuthClient.
  rewrite Hshared, Hload, Hflow.
  pose proof (authWithDeltaDeviceFlow_failure_disk _ _ _ _ _ _ Hflow) as Hd.
  destruct cached; cbn.
  - rewrite app_nil_r. auto.
  - destruct reason; cbn; rewrite ?app_nil_r; auto.
Qed.
End ClientFacts.

(** The file holds a record that passes the local check and the manager
    cannot take its lock: the token comes from the client's own record. *)
Lemma loadCachedDeltaCredentials_sound_witness :
  exists cached shared,
    cached_value "/home/user"
      (sample_disk "/home/user" (sample_credentials "a1" 5000000))
    = Some cached
    /\ manager_down cached (sample_disk "/home/user" (sample_credentials "a1" 5000000))
       = (shared, Credentials (sample_credentials "a1" 5000000),
          sample_disk "/home/user" (sample_credentials "a1" 5000000)).
Proof.
  destruct (proj1 (proj2 (loadCachedDeltaCredentials_sound "/home/user"
                            manager_down 4000000 DeltaCredentials.empty
                            (sample_disk "/home/user"
                               (sample_credentials "a1" 5000000))
                            ltac:(lia)))
              (Credentials (sample_credentials "a1" 5000000))
              (sample_disk "/home/user" (sample_credentials "a1" 5000000)))
    as (cached & shared & Hfile & Hshared & _).
  { vm_compute. reflexivity. }
  exists cached, shared. split; [exact Hfile|exact Hshared].
Defined.

(** The file holds [null] and the manager cannot take its lock: the client
    is left with [null] credentials, [getAccessToken] throws and the answer
    is [false]. *)
Lemma loadCachedDeltaCredentials_null_file :
  loadCachedDeltaCredentials "/home/user" manager_down 4000000
    DeltaCredentials.empty null_disk
  = (false, NullCredentials, null_disk).
Proof. vm_compute. reflexivity. Qed.

Lemma getDeltaOAuthClient_resolves_witness :
  exists attempt tokenResponse,
    pollDeviceToken (polled approved_at_third_poll attempt) = Resolved tokenResponse
    /\ isDeviceTokenSuccess tokenResponse = true.
Proof.
  destruct (getDeltaOAuthClient_resolves "/home/user" manager_down manager_down
              approved_at_third_poll 4000000 empty_disk
              (credentialsOfToken (token_body "a2" (Some 3600))
                 (dateNow approved_at_third_poll 54)))
    as [(record & c1 & d1 & _ & Habs & _)
       |(e & c1 & d1 & attempt & tokenResponse & i & _ & Hp & Hs & _)].
  - vm_compute. reflexivity.
  - discriminate Habs.
  - exists attempt, tokenResponse. split; [exact Hp|exact Hs].
Defined.

Lemma getDeltaOAuthClient_rejects_witness :
  client_outcome
    (getDeltaOAuthClient "/home/user" manager_down manager_down never_approved
       4000000 empty_disk)
  = Rejected (Error.plain "Delta OAuth authentication timed out").
Proof.
  refine (proj1 (getDeltaOAuthClient_rejects "/home/user" manager_down
                   manager_down never_approved 4000000 empty_disk
                   (Error.plain "LOCK_TIMEOUT") DeltaCredentials.empty
                   DeltaCredentials.empty empty_disk empty_disk false
                   Reason.timeout
                   (snd (authWithDeltaDeviceFlow "/home/user" never_approved
                           DeltaCredentials.empty empty_disk))
                   eq_refl _ _)).
  - vm_compute. reflexivity.
  - vm_compute. reflexivity.
Defined.

(** ** [contentGenerator.ts] *)

Lemma or_string_nonempty (o : option string) (d : string) :
  d <> "" -> Js.or_string o d <> "".
Proof.
  intros Hd. unfold Js.or_string.
  destruct (Js.truthy_string o) eqn:Ht; [|exact Hd].
  apply truthy_string_spec in Ht as (s & -> & Hs). exact Hs.
Qed.

Section ContentGeneratorFacts.
Variable SamplingParams : Type.
Variable DEFAULT_GEMINI_MODEL : string.
Variable DEFAULT_QWEN_MODEL : string.

#[local] Abbreviation makeConfig :=
  (createContentGeneratorConfig SamplingParams DEFAULT_GEMINI_MODEL
     DEFAULT_QWEN_MODEL).
#[local] Abbreviation makeGenerator := (createContentGenerator SamplingParams).

(** [createContentGeneratorConfig] records the auth type it was given. *)
Lemma createContentGeneratorConfig_authType
    (config : Config SamplingParams) (env : gmap string string)
    (a : option AuthType.t) :
  authType _ (makeConfig config env a) = a.
Proof using Type.
  unfold createContentGeneratorConfig.
  repeat match goal with
         | |- context [if ?b then _ else _] => destruct b
         end; reflexivity.
Qed.

(** X16.  Whatever the configuration, the environment and the auth type,
    the model of the generator configuration is not the empty string,
    provided the two default model names are not empty. *)
Theorem createContentGeneratorConfig_model
    (config : Config SamplingParams) (env : gmap string string)
    (a : option AuthType.t) :
  DEFAULT_GEMINI_MODEL <> "" ->
  DEFAULT_QWEN_MODEL <> "" ->
  model _ (makeConfig config env a) <> "".
Proof using Type.
  intros Hg Hq. unfold createContentGeneratorConfig.
  repeat match goal with
         | |- context [if ?b then _ else _] => destruct b
         end; cbn; now apply or_string_nonempty.
Qed.

(** X17.  For Delta OAuth the two functions agree on the marker: the
    configuration made by [createContentGeneratorConfig] is never refused as
    an "Invalid Delta OAuth configuration".  The generator is built exactly
    when [getDeltaOAuthClient] resolves, around the client it resolved to;
    otherwise the rejection is "Failed to initialize Delta: " followed by
    the message of the error. *)
Theorem createContentGenerator_delta
    (config gcConfig : Config SamplingParams) (env : gmap string string)
    (platform arch : string) (codeAssist : Outcome unit)
    (deltaClient : Outcome DeltaCredentials.t) :
  let generatorConfig := makeConfig config env (Some AuthType.QWEN_OAUTH) in
  apiKey _ generatorConfig = Some QWEN_OAUTH_DYNAMIC_TOKEN
  /\ model _ generatorConfig = Js.or_string (env !! "QWEN_MODEL") DEFAULT_QWEN_MODEL
  /\ makeGenerator generatorConfig gcConfig platform arch codeAssist deltaClient
     = match deltaClient with
       | Resolved client =>
           Resolved (DeltaContentGenerator _ client generatorConfig)
       | Rejected error =>
           Rejected (Error.plain
                       ("Failed to initialize Delta: " +:+ Error.message error))
       end.
Proof using Type.
  intros generatorConfig. subst generatorConfig.
  split; [reflexivity|]. split; [reflexivity|].
  destruct deltaClient; reflexivity.
Qed.

(** X18.  For OpenAI the generator is built exactly when [OPENAI_API_KEY]
    is set to a non-empty string, with that key and with the model
    [OPENAI_MODEL] or else the default; otherwise [createContentGenerator]
    rejects with "OpenAI API key is required". *)
Theorem createContentGenerator_openai
    (config gcConfig : Config SamplingParams) (env : gmap string string)
    (platform arch : string) (codeAssist : Outcome unit)
    (deltaClient : Outcome DeltaCredentials.t) :
  let generatorConfig := makeConfig config env (Some AuthType.USE_OPENAI) in
  if Js.truthy_string (env !! "OPENAI_API_KEY") then
    makeGenerator generatorConfig gcConfig platform arch codeAssist deltaClient
    = Resolved (OpenAIContentGenerator _ generatorConfig)
    /\ apiKey _ generatorConfig = env !! "OPENAI_API_KEY"
    /\ model _ generatorConfig
       = Js.or_string (env !! "OPENAI_MODEL") DEFAULT_QWEN_MODEL
  else
    makeGenerator generatorConfig gcConfig platform arch codeAssist deltaClient
    = Rejected (Error.plain "OpenAI API key is required").
Proof using Type.
  cbn. destruct (Js.truthy_string (env !! "OPENAI_API_KEY")) eqn:Hkey; cbn.
  - rewrite Hkey. cbn. repeat split.
    unfold Js.or_undefined, Js.or_string.
    destruct (Js.truthy_string (env !! "OPENAI_MODEL")) eqn:Hm; cbn;
      rewrite ?Hm; reflexivity.
  - reflexivity.
Qed.

(** X19.  [createContentGenerator] builds a generator only for the six
    auth types it handles, and the kind of generator is fixed by the auth
    type: with no auth type or with [USE_CLAUDE] it rejects, whatever else
    the configuration holds. *)
Theorem createContentGenerator_dispatch
    (generatorConfig : ContentGeneratorConfig SamplingParams)
    (gcConfig : Config SamplingParams) (platform arch : string)
    (codeAssist : Outcome unit) (deltaClient : Outcome DeltaCredentials.t)
    (g : Generator SamplingParams) :
  makeGenerator generatorConfig gcConfig platform arch codeAssist deltaClient
  = Resolved g ->
  match authType _ generatorConfig, g with
  | Some AuthType.LOGIN_WITH_GOOGLE, CodeAssistGenerator _ _ _
  | Some AuthType.CLOUD_SHELL, CodeAssistGenerator _ _ _
  | Some AuthType.USE_GEMINI, GoogleGenAIGenerator _ _ _ _
  | Some AuthType.USE_VERTEX_AI, GoogleGenAIGenerator _ _ _ _
  | Some AuthType.USE_OPENAI, OpenAIContentGenerator _ _
  | Some AuthType.QWEN_OAUTH, DeltaContentGenerator _ _ _ => True
  | _, _ => False
  end.
Proof using Type.
  unfold createContentGenerator.
  destruct (authType _ generatorConfig) as [[]|]; cbn;
    repeat match goal with
           | |- context [match ?x with _ => _ end] => destruct x; cbn
           end;
    intros [= <-] || discriminate; exact I.
Qed.
End ContentGeneratorFacts.


Section GoogleGenerator.
Variable SamplingParams : Type.
Variable DEFAULT_GEMINI_MODEL : string.
Variable DEFAULT_QWEN_MODEL : string.

(** X20.  For Gemini and Vertex AI the two functions never reject, with or
    without a key in the environment: the generator is built with the key
    of the environment ([GOOGLE_API_KEY] for Vertex AI, [GEMINI_API_KEY]
    otherwise) or with none, never with the empty string, and [vertexai]
    is either left unset or tells the two apart. *)
Theorem createContentGenerator_google
    (config gcConfig : Config SamplingParams) (env : gmap string string)
    (platform arch : string) (codeAssist : Outcome unit)
    (deltaClient : Outcome DeltaCredentials.t) (vertex : bool) :
  let a := if vertex then AuthType.USE_VERTEX_AI else AuthType.USE_GEMINI in
  exists key flag agent,
    createContentGenerator SamplingParams
      (createContentGeneratorConfig SamplingParams DEFAULT_GEMINI_MODEL
         DEFAULT_QWEN_MODEL config env (Some a))
      gcConfig platform arch codeAssist deltaClient
    = Resolved (GoogleGenAIGenerator _ key flag agent)
    /\ key = Js.or_undefined
               (env !! (if vertex then "GOOGLE_API_KEY" else "GEMINI_API_KEY"))
    /\ key <> Some ""
    /\ (flag = None \/ flag = Some vertex).
Proof using Type.
  assert (Hne : forall o, Js.or_undefined o <> Some "").
  { intros o. unfold Js.or_undefined.
    destruct (Js.truthy_string o) eqn:Ht; [|discriminate].
    apply truthy_string_spec in Ht as (s & -> & Hs). congruence. }
  assert (Hstr : forall o, Js.str_is (Js.or_undefined o) "" = false).
  { intros o. specialize (Hne o).
    destruct (Js.or_undefined o) as [s|]; cbn; [|reflexivity].
    destruct (String.eqb_spec s ""); congruence. }
  assert (Hidem : forall o, Js.truthy_string (Js.or_undefined o)
                             = Js.truthy_string o).
  { intros o. unfold Js.or_undefined.
    destruct (Js.truthy_string o) eqn:Ht; [exact Ht|reflexivity]. }
  intros a. subst a. destruct vertex.
  - unfold createContentGeneratorConfig. cbn.
    destruct (Js.truthy_string (Js.or_undefined (env !! "GOOGLE_API_KEY"))
              || Js.truthy_string (Js.or_undefined (env !! "GOOGLE_CLOUD_PROJECT"))
                 && Js.truthy_string (Js.or_undefined (env !! "GOOGLE_CLOUD_LOCATION")))
      eqn:Hcond; cbn.
    + rewrite Hstr. eexists _, _, _. split; [reflexivity|].
      split; [reflexivity|]. split; [apply Hne|]. right. reflexivity.
    + apply orb_false_iff in Hcond as [Hkey _]. rewrite Hidem in Hkey.
      eexists _, _, _. split; [reflexivity|].
      split; [unfold Js.or_undefined; rewrite Hkey; reflexivity|].
      split; [discriminate|]. left. reflexivity.
  - unfold createContentGeneratorConfig. cbn.
    destruct (Js.truthy_string (Js.or_undefined (env !! "GEMINI_API_KEY")))
      eqn:Hcond; cbn.
    + rewrite Hstr. eexists _, _, _. split; [reflexivity|].
      split; [reflexivity|]. split; [apply Hne|]. right. reflexivity.
    + rewrite Hidem in Hcond.
      eexists _, _, _. split; [reflexivity|].
      split; [unfold Js.or_undefined; rewrite Hcond; reflexivity|].
      split; [discriminate|]. left. reflexivity.
Qed.
End GoogleGenerator.

(** ** [objectToUrlEncoded] *)

Lemma encodeURIComponent_cons (c : Ascii.ascii) (rest : string) :
  encodeURIComponent (String c rest)
  = if uriUnreserved c then String c (encodeURIComponent rest)
    else String percent
           (String (hexDigit (Ascii.N_of_ascii c / 16))
              (String (hexDigit (Ascii.N_of_ascii c mod 16))
                 (encodeURIComponent rest))).
Proof. reflexivity. Qed.

Lemma N_of_hexDigit (n : N) :
  (n < 16)%N ->
  Ascii.N_of_ascii (hexDigit n) = if (n <? 10)%N then (48 + n)%N else (55 + n)%N.
Proof.
  intros Hn. unfold hexDigit.
  destruct (n <? 10)%N; apply Ascii.N_ascii_embedding; lia.
Qed.

Lemma hexDigit_inj (a b : N) :
  (a < 16)%N -> (b < 16)%N -> hexDigit a = hexDigit b -> a = b.
Proof.
  intros Ha Hb H. apply (f_equal Ascii.N_of_ascii) in H.
  rewrite !N_of_hexDigit in H by assumption.
  destruct (N.ltb_spec a 10), (N.ltb_spec b 10); lia.
Qed.

Lemma hexDigit_unreserved (n : N) :
  (n < 16)%N -> uriUnreserved (hexDigit n) = true.
Proof.
  intros Hn. unfold uriUnreserved. cbv zeta.
  rewrite N_of_hexDigit by assumption.
  destruct (N.ltb_spec n 10).
  - replace ((48 <=? 48 + n) && (48 + n <=? 57))%N with true.
    + now rewrite orb_true_r.
    + symmetry. apply andb_true_iff. split; apply N.leb_le; lia.
  - replace ((65 <=? 55 + n) && (55 + n <=? 90))%N with true.
    + reflexivity.
    + symmetry. apply andb_true_iff. split; apply N.leb_le; lia.
Qed.

Lemma nibbles_bounded (c : Ascii.ascii) :
  (Ascii.N_of_ascii c / 16 < 16)%N /\ (Ascii.N_of_ascii c mod 16 < 16)%N.
Proof.
  pose proof (Ascii.N_ascii_bounded c) as Hc. split.
  - apply N.Div0.div_lt_upper_bound. lia.
  - apply N.mod_lt. lia.
Qed.

Lemma percent_reserved : uriUnreserved percent = false.
Proof. reflexivity. Qed.

(** [encodeURIComponent] is injective. *)
Lemma encodeURIComponent_inj (s1 s2 : string) :
  encodeURIComponent s1 = encodeURIComponent s2 -> s1 = s2.
Proof.
  revert s2. induction s1 as [|c1 s1 IH]; intros [|c2 s2].
  - reflexivity.
  - rewrite encodeURIComponent_cons. cbn [encodeURIComponent].
    destruct (uriUnreserved c2); discriminate.
  - rewrite encodeURIComponent_cons. cbn [encodeURIComponent].
    destruct (uriUnreserved c1); discriminate.
  - rewrite !encodeURIComponent_cons.
    destruct (uriUnreserved c1) eqn:H1, (uriUnreserved c2) eqn:H2.
    + intros [= -> H]. f_equal. now apply IH.
    + intros [= -> _]. rewrite percent_reserved in H1. discriminate.
    + intros [= <- _]. rewrite percent_reserved in H2. discriminate.
    + intros [= Hhi Hlo H].
      destruct (nibbles_bounded c1) as [? ?], (nibbles_bounded c2) as [? ?].
      apply hexDigit_inj in Hhi; [|assumption..].
      apply hexDigit_inj in Hlo; [|assumption..].
      f_equal; [|now apply IH].
      rewrite <- (Ascii.ascii_N_embedding c1), <- (Ascii.ascii_N_embedding c2).
      f_equal.
      rewrite (N.div_mod (Ascii.N_of_ascii c1) 16) by lia.
      rewrite (N.div_mod (Ascii.N_of_ascii c2) 16) by lia.
      congruence.
Qed.

Lemma encodeURIComponent_occurs (c : Ascii.ascii) (s : string) :
  uriUnreserved c = false -> c <> percent ->
  occurs c (encodeURIComponent s) = false.
Proof.
  intros Hc Hp.
  assert (Hneq : forall c', uriUnreserved c' = true -> Ascii.eqb c c' = false).
  { intros c' Hc'. destruct (Ascii.eqb_spec c c'); [congruence|reflexivity]. }
  induction s as [|a s IH]; [reflexivity|].
  rewrite encodeURIComponent_cons.
  destruct (uriUnreserved a) eqn:Ha; cbn [occurs].
  - rewrite (Hneq a Ha). exact IH.
  - destruct (nibbles_bounded a) as [? ?].
    destruct (Ascii.eqb_spec c percent); [congruence|].
    rewrite !Hneq by now apply hexDigit_unreserved. exact IH.
Qed.

Lemma occurs_app (c : Ascii.ascii) (s t : string) :
  occurs c (s +:+ t) = occurs c s || occurs c t.
Proof.
  induction s as [|a s IH]; [reflexivity|].
  change (String a s +:+ t) with (String a (s +:+ t)).
  cbn [occurs]. rewrite IH. apply orb_assoc.
Qed.

Lemma append_empty_r (s : string) : s +:+ "" = s.
Proof.
  induction s as [|a s IH]; [reflexivity|].
  change (String a s +:+ "") with (String a (s +:+ "")). now rewrite IH.
Qed.

(** A string is cut at the first occurrence of a character in one way. *)
Lemma append_split (c : Ascii.ascii) (s1 s2 t1 t2 : string) :
  occurs c s1 = false -> occurs c s2 = false ->
  s1 +:+ String c t1 = s2 +:+ String c t2 -> s1 = s2 /\ t1 = t2.
Proof.
  revert s2. induction s1 as [|a s1 IH]; intros [|b s2]; cbn [occurs].
  - intros _ _ [= ->]. auto.
  - intros _ Hb. change (String c t1 = String b (s2 +:+ String c t2) -> "" = String b s2 /\ t1 = t2).
    intros [= <- _]. rewrite Ascii.eqb_refl in Hb. discriminate.
  - intros Ha _. change (String a (s1 +:+ String c t1) = String c t2 -> String a s1 = "" /\ t1 = t2).
    intros [= -> _]. rewrite Ascii.eqb_refl in Ha. discriminate.
  - intros Ha Hb.
    change (String a (s1 +:+ String c t1) = String b (s2 +:+ String c t2)
            -> String a s1 = String b s2 /\ t1 = t2).
    intros [= -> H].
    apply orb_false_iff in Ha as [_ Ha]. apply orb_false_iff in Hb as [_ Hb].
    destruct (IH s2 Ha Hb H) as [-> ->]. auto.
Qed.

Lemma objectToUrlEncoded_cons (key value : string) (rest : list (string * string)) :
  objectToUrlEncoded ((key, value) :: rest)
  = encodeURIComponent key
      +:+ String equals_sign
            (encodeURIComponent value
               +:+ match rest with
                   | [] => ""
                   | _ :: _ => String ampersand (objectToUrlEncoded rest)
                   end).
Proof.
  destruct rest as [|[k v] rest]; [|reflexivity].
  cbn [objectToUrlEncoded]. now rewrite append_empty_r.
Qed.

Lemma equals_sign_reserved (s : string) :
  occurs equals_sign (encodeURIComponent s) = false.
Proof. apply encodeURIComponent_occurs; [reflexivity|discriminate]. Qed.

Lemma ampersand_reserved (s : string) :
  occurs ampersand (encodeURIComponent s) = false.
Proof. apply encodeURIComponent_occurs; [reflexivity|discriminate]. Qed.

(** X21.  [objectToUrlEncoded] is injective: two lists of parameters with
    the same encoded body are the same list, keys and values included.  A
    value can thus never be read as another parameter. *)
Theorem objectToUrlEncoded_injective (data1 data2 : list (string * string)) :
  objectToUrlEncoded data1 = objectToUrlEncoded data2 -> data1 = data2.
Proof.
  revert data2.
  induction data1 as [|[k1 v1] rest1 IH]; intros [|[k2 v2] rest2].
  - reflexivity.
  - rewrite objectToUrlEncoded_cons. cbn [objectToUrlEncoded].
    destruct (encodeURIComponent k2); discriminate.
  - rewrite objectToUrlEncoded_cons. cbn [objectToUrlEncoded].
    destruct (encodeURIComponent k1); discriminate.
  - rewrite !objectToUrlEncoded_cons. intros H.
    apply append_split in H as [Hk H]; [|apply equals_sign_reserved..].
    apply encodeURIComponent_inj in Hk as ->.
    destruct rest1 as [|p1 rest1], rest2 as [|p2 rest2].
    + rewrite !append_empty_r in H.
      apply encodeURIComponent_inj in H as ->. reflexivity.
    + rewrite append_empty_r in H.
      apply (f_equal (occurs ampersand)) in H.
      rewrite occurs_app, !ampersand_reserved in H. cbn [occurs] in H.
      rewrite Ascii.eqb_refl in H. discriminate.
    + rewrite append_empty_r in H.
      apply (f_equal (occurs ampersand)) in H.
      rewrite occurs_app, !ampersand_reserved in H. cbn [occurs] in H.
      rewrite Ascii.eqb_refl in H. discriminate.
    + apply append_split in H as [Hv H]; [|apply ampersand_reserved..].
      apply encodeURIComponent_inj in Hv as ->.
      apply IH in H. congruence.
Qed.

(** X22.  A character that [encodeURIComponent] does not keep, other than
    the [%] of the escapes, occurs in no encoded component: no [&], [=],
    [+], [#], space or line break. *)
Theorem encodeURIComponent_escapes (c : Ascii.ascii) (s : string) :
  uriUnreserved c = false -> c <> percent ->
  occurs c (encodeURIComponent s) = false.
Proof. apply encodeURIComponent_occurs. Qed.

Lemma encodeURIComponent_escapes_witness :
  occurs ampersand (encodeURIComponent "a&b=c") = false.
Proof.
  apply (encodeURIComponent_escapes ampersand "a&b=c").
  - reflexivity.
  - discriminate.
Defined.

Lemma encodeURIComponent_length (s : string) :
  (String.length s <= String.length (encodeURIComponent s))%nat.
Proof.
  induction s as [|a s IH]; [reflexivity|].
  rewrite encodeURIComponent_cons.
  destruct (uriUnreserved a); cbn [String.length]; lia.
Qed.

(** X23.  [encodeURIComponent] returns its argument unchanged exactly when
    every character of it is a letter, a digit or one of [- _ . ! ~ * ' ( )]:
    a base64url string, such as the PKCE verifier and challenge, is sent as
    it is. *)
Theorem encodeURIComponent_unchanged (s : string) :
  encodeURIComponent s = s <-> all_unreserved s = true.
Proof.
  induction s as [|a s IH]; [easy|].
  rewrite encodeURIComponent_cons. cbn [all_unreserved].
  destruct (uriUnreserved a) eqn:Ha; cbn [andb].
  - rewrite <- IH. split; [intros [= H]; exact H|intros ->; reflexivity].
  - split; [|discriminate]. intros H.
    apply (f_equal String.length) in H. cbn [String.length] in H.
    pose proof (encodeURIComponent_length s). lia.
Qed.

(** ** [DeltaOAuthProgress] *)

(** X24.  Started at [start >= 1], the countdown shows [max 0 (start - k)]
    after [k] ticks, never a negative time, and has called [onTimeout]
    [max 0 (k - start + 1)] times: not before the tick that reaches zero,
    and then again at every later tick. *)
Theorem countdown_after (start : Z) (k : nat) :
  1 <= start ->
  countdown k start
  = (Z.max 0 (start - Z.of_nat k), Z.to_nat (Z.of_nat k - start + 1)).
Proof.
  intros Hstart. induction k as [|k IH].
  - cbn [countdown]. f_equal; lia.
  - cbn [countdown]. rewrite IH. unfold countdownTick.
    destruct (Z.leb_spec (Z.max 0 (start - Z.of_nat k)) 1); f_equal; lia.
Qed.

Lemma countdown_after_witness :
  countdown 302 (defaultTimeout None) = (0, 3%nat).
Proof.
  exact (countdown_after (defaultTimeout None) 302 ltac:(cbn; lia)).
Defined.

(** X25.  The dots go round [''], ['.'], ['..'], ['...']: after [k] ticks
    there are [k mod 4] of them. *)
Theorem dots_cycle (k : nat) : dots_after k = dots (k mod 4).
Proof.
  induction k as [|k IH]; [reflexivity|].
  cbn [dots_after]. rewrite IH.
  replace (S k) with (k + 1)%nat by lia.
  rewrite <- Nat.Div0.add_mod_idemp_l.
  pose proof (Nat.mod_upper_bound k 4 ltac:(lia)) as Hr.
  destruct (k mod 4)%nat as [|[|[|[|r]]]]; try reflexivity. lia.
Qed.


Lemma createContentGeneratorConfig_model_witness :
  model unit
    (createContentGeneratorConfig unit "gemini-2.5-pro" "qwen3-coder-plus"
       sample_config (<["OPENAI_MODEL" := ""]> ∅) (Some AuthType.USE_OPENAI))
  <> "".
Proof.
  apply (createContentGeneratorConfig_model unit "gemini-2.5-pro"
           "qwen3-coder-plus" sample_config (<["OPENAI_MODEL" := ""]> ∅)
           (Some AuthType.USE_OPENAI)); discriminate.
Defined.

Lemma createContentGenerator_dispatch_witness :
  exists g,
    createContentGenerator unit
      (createContentGeneratorConfig unit "gemini-2.5-pro" "qwen3-coder-plus"
         sample_config ∅ (Some AuthType.QWEN_OAUTH))
      sample_config "linux" "x64" (Resolved tt)
      (Resolved (sample_credentials "a1" 5000000))
    = Resolved g
    /\ match g with DeltaContentGenerator _ _ _ => True | _ => False end.
Proof.
  eexists. split; [reflexivity|].
  exact (createContentGenerator_dispatch unit
           (createContentGeneratorConfig unit "gemini-2.5-pro" "qwen3-coder-plus"
              sample_config ∅ (Some AuthType.QWEN_OAUTH))
           sample_config "linux" "x64" (Resolved tt)
           (Resolved (sample_credentials "a1" 5000000)) _ eq_refl).
Defined.

Lemma objectToUrlEncoded_injective_witness :
  [("grant_type", "refresh_token"); ("client_id", "a&scope=b")]
  = [("grant_type", "refresh_token"); ("client_id", "a&scope=b")].
Proof.
  apply (objectToUrlEncoded_injective
           [("grant_type", "refresh_token"); ("client_id", "a&scope=b")]
           [("grant_type", "refresh_token"); ("client_id", "a&scope=b")]).
  reflexivity.
Defined.
